(** * The monitor subsystem of ovsdb-etcd (pkg/ovsdb/monitor.go)

    A shallow embedding of the updater, the diff engine, the monitor
    registry and the revision checker, and the properties of the
    specification that concern them. *)

From Stdlib Require Import ZArith Lia Ascii.
From stdpp Require Import base option list strings gmap fin_maps.

Local Open Scope Z_scope.
Local Open Scope string_scope.

(** ** Values *)

(** The comparable Go values that libovsdb uses for the atoms of an
    OVSDB set or map (string, int, bool, [libovsdb.UUID]).  Numbers are
    kept as integers. *)
Inductive Atom :=
| AString (s : string)
| AInteger (n : Z)
| ABoolean (b : bool)
| AUUID (s : string).

Global Instance Atom_eq_dec : EqDecision Atom.
Proof. solve_decision. Defined.

Global Instance Atom_countable : Countable Atom.
Proof.
  refine (inj_countable'
    (fun a => match a with
              | AString s => inl (inl s)
              | AInteger n => inl (inr n)
              | ABoolean b => inr (inl b)
              | AUUID s => inr (inr s)
              end)
    (fun x => match x with
              | inl (inl s) => AString s
              | inl (inr n) => AInteger n
              | inr (inl b) => ABoolean b
              | inr (inr s) => AUUID s
              end) _).
  by intros [].
Defined.

(** [libovsdb.OvsMap] ([GoMap map[interface{}]interface{}]) and
    [libovsdb.OvsSet] ([GoSet []interface{}]). *)
Record OvsMap := mkOvsMap { GoMap : gmap Atom Atom }.
Record OvsSet := mkOvsSet { GoSet : list Atom }.

Global Instance OvsMap_eq_dec : EqDecision OvsMap.
Proof. solve_decision. Defined.
Global Instance OvsSet_eq_dec : EqDecision OvsSet.
Proof. solve_decision. Defined.

(** Go's [interface{}] as it occurs in a row: what [encoding/json]
    decodes into ([nil], [bool], a number, [string], [[]interface{}],
    [map[string]interface{}]), and the [*OvsMap] and [*OvsSet] the diff
    engine stores in a delta.  Numbers are kept as integers.  A nested
    JSON object is kept as an association list in key order, so that
    structural equality is [reflect.DeepEqual]. *)
#[local] Unset Elimination Schemes.
Inductive Value :=
| VNil
| VBool (b : bool)
| VNumber (n : Z)
| VString (s : string)
| VArray (l : list Value)
| VObject (o : list (string * Value))
| VOvsMap (m : OvsMap)
| VOvsSet (s : OvsSet).
#[local] Set Elimination Schemes.

(** [reflect.DeepEqual] on two values. *)
Fixpoint DeepEqual (a b : Value) {struct a} : bool :=
  match a, b with
  | VNil, VNil => true
  | VBool x, VBool y => bool_decide (x = y)
  | VNumber x, VNumber y => bool_decide (x = y)
  | VString x, VString y => bool_decide (x = y)
  | VArray l1, VArray l2 =>
      (fix go (l1 l2 : list Value) : bool :=
         match l1, l2 with
         | [], [] => true
         | x :: xs, y :: ys => DeepEqual x y && go xs ys
         | _, _ => false
         end) l1 l2
  | VObject o1, VObject o2 =>
      (fix go (o1 o2 : list (string * Value)) : bool :=
         match o1, o2 with
         | [], [] => true
         | (k1, x) :: xs, (k2, y) :: ys =>
             bool_decide (k1 = k2) && DeepEqual x y && go xs ys
         | _, _ => false
         end) o1 o2
  | VOvsMap m1, VOvsMap m2 => bool_decide (m1 = m2)
  | VOvsSet s1, VOvsSet s2 => bool_decide (s1 = s2)
  | _, _ => false
  end.

(** Induction on a value, with the hypothesis for every element of an
    array and every field of an object. *)
Section Value_ind.
Variable P : Value -> Prop.
Hypothesis HNil : P VNil.
Hypothesis HBool : forall b, P (VBool b).
Hypothesis HNumber : forall n, P (VNumber n).
Hypothesis HString : forall s, P (VString s).
Hypothesis HArray : forall l, Forall P l -> P (VArray l).
Hypothesis HObject : forall o, Forall (fun kv => P kv.2) o -> P (VObject o).
Hypothesis HOvsMap : forall m, P (VOvsMap m).
Hypothesis HOvsSet : forall s, P (VOvsSet s).

Fixpoint Value_ind (v : Value) : P v :=
  match v with
  | VNil => HNil
  | VBool b => HBool b
  | VNumber n => HNumber n
  | VString s => HString s
  | VArray l =>
      HArray l
        ((fix all (l : list Value) : Forall P l :=
            match l with
            | [] => Forall_nil_2 P
            | x :: xs => Forall_cons_2 P x xs (Value_ind x) (all xs)
            end) l)
  | VObject o =>
      HObject o
        ((fix all (o : list (string * Value)) : Forall (fun kv => P kv.2) o :=
            match o with
            | [] => Forall_nil_2 _
            | kv :: xs => Forall_cons_2 _ kv xs (Value_ind kv.2) (all xs)
            end) o)
  | VOvsMap m => HOvsMap m
  | VOvsSet s => HOvsSet s
  end.
End Value_ind.

Lemma DeepEqual_eq (a b : Value) : DeepEqual a b = true <-> a = b.
Proof.
  revert b. induction a as [| x | x | x | l IH | o IH | m | s] using Value_ind;
    intros [| y | y | y | l' | o' | m' | s']; simpl;
    try (split; [discriminate | congruence]);
    try (rewrite bool_decide_eq_true; split; congruence);
    try tauto.
  - revert l'. induction IH as [| x xs Hx _ IHxs]; intros [| y ys];
      try (split; [discriminate | congruence]); [tauto |].
    rewrite andb_true_iff, Hx.
    split.
    + intros [-> H]. apply IHxs in H. congruence.
    + intros [= -> ->]. split; [done |]. by apply IHxs.
  - revert o'. induction IH as [| [k x] xs Hx _ IHxs]; intros [| [k' y] ys];
      try (split; [discriminate | congruence]); [tauto |].
    simpl in Hx.
    rewrite !andb_true_iff, bool_decide_eq_true, Hx.
    split.
    + intros [[-> ->] H]. apply IHxs in H. congruence.
    + intros [= -> -> ->]. split; [done |]. by apply IHxs.
Qed.

Lemma DeepEqual_refl (a : Value) : DeepEqual a a = true.
Proof. by apply DeepEqual_eq. Qed.

Lemma DeepEqual_neq (a b : Value) : DeepEqual a b = false <-> a <> b.
Proof.
  rewrite <- DeepEqual_eq. destruct (DeepEqual a b); split; congruence.
Qed.

Global Instance Value_eq_dec : EqDecision Value.
Proof.
  intros a b. destruct (DeepEqual a b) eqn:E.
  - left. by apply DeepEqual_eq.
  - right. by apply DeepEqual_neq.
Defined.

(** A decoded row, a projected row and a delta all have the Go type
    [map[string]interface{}]. *)
Abbreviation Row := (gmap string Value).

(** [m[column]] on a Go map: the zero value [nil] when the key is absent. *)
Definition index (m : Row) (column : string) : Value :=
  default VNil (m !! column).

(** ** Results *)

(** The errors of the package; each stands for one [fmt.Errorf] (or for
    the error of a library call). *)
Inductive error :=
| ErrUnmarshal
| ErrNoUUID
| ErrWrongUUIDType (v : Value)
| ErrWrongUUIDLen (l : list Value)
| ErrWrongUUIDElem (v : Value)
| ErrUUIDChanged (prevUUID uuid : string)
| ErrLookupColumn (column : string)
| ErrConvertMap (data : Value)
| ErrConvertPrevMap (prevData : Value)
| ErrConvertSet (data : Value)
| ErrConvertPrevSet (prevData : Value).

(** The outcome of a call: it returns normally, it returns a non-nil
    [error] (the other results are then zero values), or it panics on a
    nil pointer. *)
Inductive Res (A : Type) :=
| Ok (a : A)
| Err (e : error)
| Panic.
Arguments Ok {A} a.
Arguments Err {A} e.
Arguments Panic {A}.

Global Instance Res_ret : MRet Res := fun A a => Ok a.

Global Instance Res_bind : MBind Res := fun A B k r =>
  match r with
  | Ok a => k a
  | Err e => Err e
  | Panic => Panic
  end.

(** Dereferencing a pointer that may be nil. *)
Definition deref {A} (p : option A) : Res A :=
  match p with
  | Some a => Ok a
  | None => Panic
  end.

(** ** Data model *)

(** [libovsdb.MonitorSelect]: the four selection flags, each a [*bool]. *)
Module MonitorSelect.
Record t := mk {
  Initial : option bool;
  Insert : option bool;
  Delete : option bool;
  Modify : option bool }.
Definition empty : t := mk None None None None.
End MonitorSelect.

Global Instance MonitorSelect_eq_dec : EqDecision MonitorSelect.t.
Proof. solve_decision. Defined.

(** Modelled from the spec: [libovsdb.MSIsTrue], which is not among the
    sources; a selection flag is tri-state, and an absent flag counts as
    true. *)
Definition MSIsTrue (flag : option bool) : bool :=
  match flag with
  | None => true
  | Some b => b
  end.

(** [ovsjson.MonitorCondRequest]. *)
Module MonitorCondRequest.
Record t := mk {
  Columns : list string;
  Where : option (list Value);
  Select : option MonitorSelect.t }.
End MonitorCondRequest.

Global Instance MonitorCondRequest_eq_dec : EqDecision MonitorCondRequest.t.
Proof. solve_decision. Defined.

(** The type tags of [libovsdb.ColumnSchema.Type]. *)
Inductive ExtendedType :=
| TypeInteger | TypeReal | TypeBoolean | TypeString | TypeUUID | TypeEnum
| TypeSet | TypeMap.

Global Instance ExtendedType_eq_dec : EqDecision ExtendedType.
Proof. solve_decision. Defined.

Module ColumnSchema.
Record t := mk { Type_ : ExtendedType }.
End ColumnSchema.

Global Instance ColumnSchema_eq_dec : EqDecision ColumnSchema.t.
Proof. solve_decision. Defined.

Module TableSchema.
Record t := mk { Columns : gmap string ColumnSchema.t }.

(** Modelled from the spec: [libovsdb.TableSchema.LookupColumn], which
    is not among the sources; it fails with a schema lookup error if
    the column is absent from the schema. *)
Definition LookupColumn (ts : t) (column : string) : Res ColumnSchema.t :=
  match Columns ts !! column with
  | Some columnSchema => Ok columnSchema
  | None => Err (ErrLookupColumn column)
  end.
End TableSchema.

Global Instance TableSchema_eq_dec : EqDecision TableSchema.t.
Proof. solve_decision. Defined.

Inductive UpdateNotificationType := Update | Update2 | Update3.

Global Instance UpdateNotificationType_eq_dec : EqDecision UpdateNotificationType.
Proof. solve_decision. Defined.

(** The updater of one monitor request on one table. *)
Record updater := mkUpdater {
  mcr : MonitorCondRequest.t;
  tableSchema : TableSchema.t;
  isV1 : bool;
  notificationType : UpdateNotificationType;
  jasonValueStr : string }.

(** [reflect.DeepEqual] on two updaters is decidable equality
    ([tableSchema], a pointer in the source, is compared by what it
    points to, and is taken not to be nil). *)
Global Instance updater_eq_dec : EqDecision updater.
Proof. solve_decision. Defined.

(** A nil [Select] is replaced by [&libovsdb.MonitorSelect{}];
    [notificationType] is left at its zero value. *)
Definition mcrToUpdater (mcr : MonitorCondRequest.t) (jsonValue : string)
    (tableSchema : TableSchema.t) (isV1 : bool) : updater :=
  let mcr :=
    match MonitorCondRequest.Select mcr with
    | None =>
        MonitorCondRequest.mk (MonitorCondRequest.Columns mcr)
          (MonitorCondRequest.Where mcr) (Some MonitorSelect.empty)
    | Some _ => mcr
    end in
  {| mcr := mcr; tableSchema := tableSchema; isV1 := isV1;
     notificationType := Update; jasonValueStr := jsonValue |}.

(** [ovsjson.RowUpdate]. *)
Module RowUpdate.
Record t := mk {
  New : option Row;
  Old : option Row;
  Initial : option Row;
  Insert : option Row;
  Delete : bool;
  Modify : option Row }.
End RowUpdate.

Global Instance RowUpdate_eq_dec : EqDecision RowUpdate.t.
Proof. solve_decision. Defined.

(** [mvccpb.KeyValue].  The payload [Value] is represented by what
    [json.Unmarshal] makes of its bytes: [Some obj] for bytes that decode
    to the JSON object [obj] (the empty map for [null]), [None] for bytes
    that it rejects. *)
Module KeyValue.
Record t := mk {
  Key : string;
  CreateRevision : Z;
  ModRevision : Z;
  Value : option Row }.
End KeyValue.

(** [clientv3.Event], with etcd's [IsCreate] and [IsModify]. *)
Module Event.
Inductive EventType := PUT | DELETE.

Record t := mk {
  Type_ : EventType;
  Kv : option KeyValue.t;
  PrevKv : option KeyValue.t }.

Definition IsCreate (e : t) : Res bool :=
  match Type_ e with
  | PUT =>
      kv ← deref (Kv e);
      Ok (bool_decide (KeyValue.CreateRevision kv = KeyValue.ModRevision kv))
  | DELETE => Ok false
  end.

Definition IsModify (e : t) : Res bool :=
  match Type_ e with
  | PUT =>
      kv ← deref (Kv e);
      Ok (negb (bool_decide (KeyValue.CreateRevision kv = KeyValue.ModRevision kv)))
  | DELETE => Ok false
  end.
End Event.

(** Modelled from the spec: the constant [COL_UUID], which is declared
    outside the sources; the reserved field of a row payload is [_uuid]. *)
Definition COL_UUID : string := "_uuid".

(** No column map of the row update has the reserved column as a key. *)
Definition noUUIDColumn (rowUpdate : RowUpdate.t) : Prop :=
  Forall (fun columns : option Row =>
            forall row, columns = Some row -> row !! COL_UUID = None)
    [RowUpdate.New rowUpdate; RowUpdate.Old rowUpdate; RowUpdate.Initial rowUpdate;
     RowUpdate.Insert rowUpdate; RowUpdate.Modify rowUpdate].

(** A delta of a set or map column that reports no change: the empty
    set or the empty map. *)
Definition emptyDelta (delta : Value) : bool :=
  match delta with
  | VOvsSet deltaSet => bool_decide (GoSet deltaSet = [])
  | VOvsMap deltaMap => bool_decide (GoMap deltaMap = ∅)
  | _ => false
  end.

(** ** Row codec *)

Definition unmarshalData (data : option Row) : Res Row :=
  match data with
  | Some obj => Ok obj
  | None => Err ErrUnmarshal
  end.

(** The map is changed in place: the result carries the map as the
    function leaves it, next to the UUID. *)
Definition getAndDeleteUUID (data : Row) : Res (Row * string) :=
  match data !! COL_UUID with
  | None => Err ErrNoUUID
  | Some uuidInt =>
      let data := delete COL_UUID data in
      match uuidInt with
      | VArray uuid =>
          if bool_decide (length uuid ≠ 2%nat) then Err (ErrWrongUUIDLen uuid)
          else
            match uuid !! 1%nat with
            | Some (VString uuidStr) => Ok (data, uuidStr)
            | _ => Err (ErrWrongUUIDElem uuidInt)
            end
      | _ => Err (ErrWrongUUIDType uuidInt)
      end
  end.

Definition deleteUnselectedColumns (u : updater) (data : Row) : Row :=
  if bool_decide (length (MonitorCondRequest.Columns (mcr u)) ≠ 0%nat) then
    foldl (fun (newData : Row) column =>
             match data !! column with
             | Some value => <[column := value]> newData
             | None => newData
             end) ∅ (MonitorCondRequest.Columns (mcr u))
  else data.

Definition prepareRow (u : updater) (value : option Row) : Res (Row * string) :=
  data ← unmarshalData value;
  '(data, uuid) ← getAndDeleteUUID data;
  let data := deleteUnselectedColumns u data in
  Ok (data, uuid).

(** ** Diff engine *)

(** The first loop of [setsDifference] and, with the sets swapped, the
    second: the elements of [set1] that are not in [set2] are appended
    to [diff]. *)
Definition setsDifference_pass (set1 set2 diff : list Atom) : list Atom :=
  foldl (fun (diff : list Atom) s1 =>
           let found := existsb (fun s2 => bool_decide (s1 = s2)) set2 in
           if negb found then (diff ++ [s1])%list else diff) diff set1.

Definition setsDifference (set1 set2 : OvsSet) : OvsSet :=
  let diff := setsDifference_pass (GoSet set1) (GoSet set2) [] in
  let diff := setsDifference_pass (GoSet set2) (GoSet set1) diff in
  mkOvsSet diff.

(** The two loops of [compareMaps], over the entries of the new map and
    of the previous map in the order [range] yields them. *)
Definition compareMaps_new (newEntries : list (Atom * Atom))
    (prevMap deltaMap : gmap Atom Atom) : gmap Atom Atom :=
  foldl (fun (deltaMap : gmap Atom Atom) '(k, v) =>
           match prevMap !! k with
           | Some pv =>
               if negb (bool_decide (v = pv)) then <[k := v]> deltaMap
               else deltaMap
           | None => <[k := v]> deltaMap
           end) deltaMap newEntries.

Definition compareMaps_prev (prevEntries : list (Atom * Atom))
    (newMap deltaMap : gmap Atom Atom) : gmap Atom Atom :=
  foldl (fun (deltaMap : gmap Atom Atom) '(pk, pv) =>
           match deltaMap !! pk with
           | Some _ => deltaMap
           | None =>
               match newMap !! pk with
               | None => <[pk := pv]> deltaMap
               | Some _ => deltaMap
               end
           end) deltaMap prevEntries.

Definition compareMaps_loops (newMap prevMap : OvsMap) : OvsMap :=
  let deltaMap := compareMaps_new (map_to_list (GoMap newMap)) (GoMap prevMap) ∅ in
  let deltaMap := compareMaps_prev (map_to_list (GoMap prevMap)) (GoMap newMap) deltaMap in
  mkOvsMap deltaMap.

Section Updater.
(** [libovsdb.ColumnSchema.UnmarshalMap] and [UnmarshalSet] are not
    among the sources: typed unmarshalling is a parameter; [None] is
    its error.  What it returns without an error is taken to be of its
    type, so that the assertions [v.(libovsdb.OvsMap)] and
    [v.(libovsdb.OvsSet)] hold; the elements of a set are atoms, which
    [==] compares; and [tableSchema] is taken not to be nil. *)
Variable UnmarshalMap : ColumnSchema.t -> Value -> option OvsMap.
Variable UnmarshalSet : ColumnSchema.t -> Value -> option OvsSet.

(** The order in which [range] visits the entries of a row: Go leaves
    it unspecified. *)
Variable rangeRow : Row -> list (string * Value).

Definition compareMaps (u : updater) (data prevData : Value)
    (columnSchema : ColumnSchema.t) : Res OvsMap :=
  match UnmarshalMap columnSchema data with
  | None => Err (ErrConvertMap data)
  | Some newMap =>
      match UnmarshalMap columnSchema prevData with
      | None => Err (ErrConvertPrevMap prevData)
      | Some prevMap => Ok (compareMaps_loops newMap prevMap)
      end
  end.

Definition compareSets (u : updater) (data prevData : Value)
    (columnSchema : ColumnSchema.t) : Res OvsSet :=
  match UnmarshalSet columnSchema data with
  | None => Err (ErrConvertSet data)
  | Some newSet =>
      match UnmarshalSet columnSchema prevData with
      | None => Err (ErrConvertPrevSet prevData)
      | Some prevSet => Ok (setsDifference newSet prevSet)
      end
  end.

(** What one iteration of [compareModifiedRows] stores in
    [deltaRow[column]] for a column whose values differ. *)
Definition compareColumn (u : updater) (modifiedRow prevRow : Row)
    (column : string) : Res Value :=
  columnSchema ← TableSchema.LookupColumn (tableSchema u) column;
  if bool_decide (ColumnSchema.Type_ columnSchema = TypeMap) then
    deltaMap ← compareMaps u (index modifiedRow column) (index prevRow column) columnSchema;
    Ok (VOvsMap deltaMap)
  else if bool_decide (ColumnSchema.Type_ columnSchema = TypeSet) then
    deltaSet ← compareSets u (index modifiedRow column) (index prevRow column) columnSchema;
    Ok (VOvsSet deltaSet)
  else if isV1 u then Ok (index prevRow column)
  else Ok (index modifiedRow column).

(** What the loop stores under a column whose values differ. *)
Definition cell (u : updater) (modifiedRow prevRow : Row) (c : string) : option Value :=
  match compareColumn u modifiedRow prevRow c with
  | Ok d => Some d
  | _ => None
  end.

(** The loop of [compareModifiedRows] over the entries still to visit.
    [deltaRow] is filled in place, so the caller sees what was stored
    before an error return: the result is the map and the error. *)
Fixpoint compareModifiedRows_loop (u : updater)
    (entries : list (string * Value)) (modifiedRow prevRow deltaRow : Row)
    : Res (Row * option error) :=
  match entries with
  | [] => Ok (deltaRow, None)
  | (column, cValue) :: entries =>
      if negb (DeepEqual cValue (index prevRow column)) then
        match compareColumn u modifiedRow prevRow column with
        | Ok delta =>
            compareModifiedRows_loop u entries modifiedRow prevRow
              (<[column := delta]> deltaRow)
        | Err err => Ok (deltaRow, Some err)
        | Panic => Panic
        end
      else compareModifiedRows_loop u entries modifiedRow prevRow deltaRow
  end.

Definition compareModifiedRows (u : updater)
    (modifiedRow prevRow deltaRow : Row) : Res (Row * option error) :=
  compareModifiedRows_loop u (rangeRow modifiedRow) modifiedRow prevRow deltaRow.

(** ** Updater *)

Definition Result : Type := Res (option RowUpdate.t * string).

Definition prepareDeleteRowUpdate (u : updater) (event : Event.t) : Result :=
  select ← deref (MonitorCondRequest.Select (mcr u));
  if negb (MSIsTrue (MonitorSelect.Delete select)) then Ok (None, "")
  else
    prevKv ← deref (Event.PrevKv event);
    let value := KeyValue.Value prevKv in
    if negb (isV1 u) then
      '(_, uuid) ← prepareRow u value;
      Ok (Some (RowUpdate.mk None None None None true None), uuid)
    else
      '(data, uuid) ← prepareRow u value;
      if bool_decide (0 < size data)%nat then
        Ok (Some (RowUpdate.mk None (Some data) None None false None), uuid)
      else Ok (None, uuid).

Definition prepareCreateRowUpdate (u : updater) (event : Event.t) : Result :=
  select ← deref (MonitorCondRequest.Select (mcr u));
  if negb (MSIsTrue (MonitorSelect.Insert select)) then Ok (None, "")
  else
    kv ← deref (Event.Kv event);
    let value := KeyValue.Value kv in
    '(data, uuid) ← prepareRow u value;
    if bool_decide (0 < size data)%nat then
      if negb (isV1 u) then
        Ok (Some (RowUpdate.mk None None None (Some data) false None), uuid)
      else Ok (Some (RowUpdate.mk (Some data) None None None false None), uuid)
    else Ok (None, "").

Definition prepareModifyRowUpdate (u : updater) (event : Event.t) : Result :=
  select ← deref (MonitorCondRequest.Select (mcr u));
  if negb (MSIsTrue (MonitorSelect.Modify select)) then Ok (None, "")
  else
    kv ← deref (Event.Kv event);
    '(modifiedRow, uuid) ← prepareRow u (KeyValue.Value kv);
    prevKv ← deref (Event.PrevKv event);
    '(prevRow, prevUUID) ← prepareRow u (KeyValue.Value prevKv);
    if bool_decide (uuid ≠ prevUUID) then Err (ErrUUIDChanged prevUUID uuid)
    else
      '(deltaRow, _) ← compareModifiedRows u modifiedRow prevRow ∅;
      if bool_decide (0 < size deltaRow)%nat then
        if negb (isV1 u) then
          Ok (Some (RowUpdate.mk None None None None false (Some deltaRow)), uuid)
        else
          Ok (Some (RowUpdate.mk (Some modifiedRow) (Some deltaRow) None None false None), uuid)
      else Ok (None, "").

Definition prepareRowUpdate (u : updater) (event : Event.t) : Result :=
  isModify ← Event.IsModify event;
  if negb isModify then
    isCreate ← Event.IsCreate event;
    if (isCreate : bool) then prepareCreateRowUpdate u event
    else prepareDeleteRowUpdate u event
  else prepareModifyRowUpdate u event.

Definition prepareCreateRowInitial (u : updater) (value : option (option Row)) : Result :=
  select ← deref (MonitorCondRequest.Select (mcr u));
  if negb (MSIsTrue (MonitorSelect.Initial select)) then Ok (None, "")
  else
    data ← deref value;
    '(data, uuid) ← prepareRow u data;
    if bool_decide (0 < size data)%nat then
      if negb (isV1 u) then
        Ok (Some (RowUpdate.mk None None (Some data) None false None), uuid)
      else Ok (Some (RowUpdate.mk (Some data) None None None false None), uuid)
    else Ok (None, uuid).

End Updater.

(** ** Revision checker *)

Record revisionChecker := mkRevisionChecker { revision : Z }.

(** The checker is changed in place: the result is the returned boolean
    and the checker after the call. *)
Definition isNewRevision (rc : revisionChecker) (newRevision : Z)
    : bool * revisionChecker :=
  if bool_decide (newRevision > revision rc) then
    (true, mkRevisionChecker newRevision)
  else (false, rc).

(** ** Monitor registry and watch loop *)

Section Monitor.
(** [common.Key] is declared outside the sources: the type of the keys
    of the registry is a parameter, with the functions of package
    [common] that the monitor calls on it. *)
Context {Key : Type} `{Countable Key}.
Variable ParseKey : string -> option Key.
Variable ToTableKey : Key -> Key.
Variable TableName : Key -> string.

Variable UnmarshalMap : ColumnSchema.t -> Value -> option OvsMap.
Variable UnmarshalSet : ColumnSchema.t -> Value -> option OvsSet.
Variable rangeRow : Row -> list (string * Value).

Abbreviation Key2Updaters := (gmap Key (list updater)).

(** [k[key]] on the registry: the nil slice when the key is absent. *)
Definition slot (k : Key2Updaters) (key : Key) : list updater :=
  default [] (k !! key).

Definition Key2Updaters_removeUpdaters (k : Key2Updaters) (key : Key)
    (jsonValue : string) : Key2Updaters :=
  match k !! key with
  | None => k
  | Some updaters =>
      let newUpdaters :=
        foldl (fun (newUpdaters : list updater) u =>
                 if bool_decide (jasonValueStr u ≠ jsonValue)
                 then (newUpdaters ++ [u])%list else newUpdaters) [] updaters in
      if bool_decide (length newUpdaters ≠ 0%nat) then <[key := newUpdaters]> k
      else delete key k
  end.

Record dbMonitor := mkDbMonitor {
  key2Updaters : Key2Updaters;
  revChecker : revisionChecker }.

(** The inner loop of [addUpdaters] over the updaters of the slot: its
    [continue] moves on to the next [u1] of this same loop, and the
    loop does nothing else. *)
Definition addUpdaters_scan (uNew : updater) (updaters : list updater) : unit :=
  foldl (fun _ u1 => if bool_decide (uNew = u1) then tt else tt) tt updaters.

(** The body of the outer loop of [addUpdaters] for one entry of
    [keyToUpdaters]. *)
Definition addUpdaters_entry (k : Key2Updaters) (key : Key)
    (updaters : list updater) : Key2Updaters :=
  let k :=
    match k !! key with
    | None => <[key := []]> k
    | Some _ => k
    end in
  foldl (fun (k : Key2Updaters) uNew =>
           let _ := addUpdaters_scan uNew (slot k key) in
           <[key := (slot k key ++ [uNew])%list]> k) k updaters.

Definition addUpdaters_range (k : Key2Updaters)
    (entries : list (Key * list updater)) : Key2Updaters :=
  foldl (fun k '(key, updaters) => addUpdaters_entry k key updaters) k entries.

Definition addUpdaters (m : dbMonitor) (keyToUpdaters : Key2Updaters) : dbMonitor :=
  mkDbMonitor (addUpdaters_range (key2Updaters m) (map_to_list keyToUpdaters))
    (revChecker m).

Definition removeUpdaters (m : dbMonitor) (keys : list Key)
    (jsonValue : string) : dbMonitor :=
  mkDbMonitor
    (foldl (fun k key => Key2Updaters_removeUpdaters k key jsonValue)
       (key2Updaters m) keys)
    (revChecker m).

Definition hasUpdaters (m : dbMonitor) : bool :=
  bool_decide (0 < size (key2Updaters m))%nat.

(** [ovsjson.TableUpdate] (row UUID to row update) and
    [ovsjson.TableUpdates] (table name to table update). *)
Abbreviation TableUpdate := (gmap string RowUpdate.t).
Abbreviation TableUpdates := (gmap string (gmap string RowUpdate.t)).

(** [newMonitor]: the registry is empty and the revision checker has its
    zero value (the name of the database, the handler and the logger are
    not part of the modelled state). *)
Definition newMonitor (dbName : string) : dbMonitor :=
  mkDbMonitor ∅ (mkRevisionChecker 0).

(** The loops of [cancelDbMonitor] that fill the map [jasonValues]. *)
Definition cancelDbMonitor_collect (entries : list (Key * list updater))
    : gmap string string :=
  foldl (fun (jasonValues : gmap string string) '(_, updaters) =>
           foldl (fun (jasonValues : gmap string string) updater =>
                    <[jasonValueStr updater := jasonValueStr updater]> jasonValues)
             jasonValues updaters) ∅ entries.

(** [cancelDbMonitor].  The result is the monitor after the call and the
    keys passed to [m.handler.monitorCanceledNotification], one for each
    call, in the order of the calls; the call of [m.cancel] on the etcd
    watcher is left out. *)
Definition cancelDbMonitor (m : dbMonitor) : dbMonitor * list string :=
  let jasonValues := cancelDbMonitor_collect (map_to_list (key2Updaters m)) in
  (mkDbMonitor ∅ (revChecker m), (map_to_list jasonValues).*1).

End Monitor.

(** What [Key2Updaters.removeUpdaters] leaves of a slot: the updaters
    of another monitor, or no slot if there is none. *)
Definition keep (jsonValue : string) (updaters : list updater) : option (list updater) :=
  let newUpdaters := filter (fun u => jasonValueStr u ≠ jsonValue) updaters in
  if decide (newUpdaters = []) then None else Some newUpdaters.

(** ** The watch loop (dbMonitor.notify, dbMonitor.prepareTableUpdate)

    When [prepareTableUpdate] gets a row update for a UUID that the
    table update already has, it logs every event of the batch, and the
    arguments of that call are evaluated whatever the verbosity is: they
    read [Kv.Key], [Kv.Value], [PrevKv.Key] and [PrevKv.Value] of each
    event, and so panic on an event without a key-value or without a
    previous key-value.  The other log calls read nothing that can be
    nil.  The definitions of this module are the two functions with the
    reads of their log calls. *)
Module Logged.
Section Logged.
Context {Key : Type} `{Countable Key}.
Variable ParseKey : string -> option Key.
Variable ToTableKey : Key -> Key.
Variable TableName : Key -> string.
Variable UnmarshalMap : ColumnSchema.t -> Value -> option OvsMap.
Variable UnmarshalSet : ColumnSchema.t -> Value -> option OvsSet.
Variable rangeRow : Row -> list (string * Value).

(** The arguments of the log call in [for n, eLog := range events]. *)
Definition logEvents (events : list Event.t) : Res unit :=
  foldl (fun (acc : Res unit) eLog =>
           done ← acc;
           kv ← deref (Event.Kv eLog);
           prevKv ← deref (Event.PrevKv eLog);
           Ok done) (Ok tt) events.

(** The loop of [prepareTableUpdate] over the updaters of one event
    [ev] of the batch [events]. *)
Definition prepareTableUpdate_updaters (events : list Event.t) (ev : Event.t)
    (key : Key) (updaters : list updater)
    (result : gmap string (gmap string (gmap string RowUpdate.t)))
    : Res (gmap string (gmap string (gmap string RowUpdate.t))) :=
  foldl (fun (acc : Res (gmap string (gmap string (gmap string RowUpdate.t)))) u =>
           result ← acc;
           match prepareRowUpdate UnmarshalMap UnmarshalSet rangeRow u ev with
           | Panic => Panic
           | Err _ => Ok result
           | Ok (None, _) => Ok result
           | Ok (Some rowUpdate, uuid) =>
               let tableUpdates := default ∅ (result !! jasonValueStr u) in
               let tableUpdate := default ∅ (tableUpdates !! TableName key) in
               done ← (if decide (is_Some (tableUpdate !! uuid))
                       then logEvents events else Ok tt);
               Ok (<[jasonValueStr u :=
                      <[TableName key := <[uuid := rowUpdate]> tableUpdate]>
                        tableUpdates]> result)
           end) (Ok result) updaters.

(** The loop over the events [todo] of the batch [events]. *)
Definition prepareTableUpdate_events (m : @dbMonitor Key _ _) (events todo : list Event.t)
    : Res (gmap string (gmap string (gmap string RowUpdate.t))) :=
  foldl (fun (acc : Res (gmap string (gmap string (gmap string RowUpdate.t)))) ev =>
           result ← acc;
           match Event.Kv ev with
           | None => Ok result
           | Some kv =>
               match ParseKey (KeyValue.Key kv) with
               | None => Ok result
               | Some key =>
                   match key2Updaters m !! ToTableKey key with
                   | None => Ok result
                   | Some updaters =>
                       prepareTableUpdate_updaters events ev key updaters result
                   end
               end
           end) (Ok ∅) todo.

Definition prepareTableUpdate (m : @dbMonitor Key _ _) (events : list Event.t)
    : Res (gmap string (gmap string (gmap string RowUpdate.t))) :=
  prepareTableUpdate_events m events events.

(** [notify] on the watch loop.  The result is the monitor after the
    call and the notifications handed to the handler, one for each
    [m.handler.notify(jValue, tableUpdates, wg)]; the wait group is left
    out. *)
Definition notify (m : @dbMonitor Key _ _) (events : list Event.t) (revision : Z)
    : Res (@dbMonitor Key _ _ * list (string * gmap string (gmap string RowUpdate.t))) :=
  if bool_decide (length events = 0%nat) then Ok (m, [])
  else
    let '(isNew, rc) := isNewRevision (revChecker m) revision in
    let m := mkDbMonitor (key2Updaters m) rc in
    if isNew then
      result ← prepareTableUpdate m events;
      if bool_decide (size result = 0%nat) then Ok (m, [])
      else Ok (m, map_to_list result)
    else Ok (m, []).

End Logged.
End Logged.

(** ** Session handler (pkg/ovsdb/handler.go) *)

Module Handler.

(** The errors of [monitor] and [MonitorCancel]. *)
Inductive handlerError :=
| ErrNoDatabaseName
| ErrDuplicateJsonValue
| ErrUnknownMonitor.

(** [ovsjson.CondMonitorParameters]. *)
Record CondMonitorParameters := mkParameters {
  DatabaseName : string;
  JsonValue : Value;
  MonitorCondRequests : gmap string (list MonitorCondRequest.t) }.

(** The [handlerMonitorData] that this file builds: the keys of the
    updaters of a monitor, by table name. *)
Record handlerMonitorData := mkMonitorData {
  dataBaseName : string;
  notificationType : UpdateNotificationType;
  updaters : gmap string (list string);
  jsonValue : Value }.

(** Modelled from the spec: the constant [ovsjson.ZERO_UUID], which is
    declared outside the sources; it is the all-zero UUID string. *)
Definition ZERO_UUID : string := "00000000-0000-0000-0000-000000000000".

(** One element of the parameters of a notification. *)
Inductive NotifyParam :=
| ParamJson (v : Value)
| ParamString (s : string)
| ParamUpdates (updates : gmap string (gmap string RowUpdate.t)).

(** The parameters of [connection.Notify]: a slice, or one value. *)
Inductive NotifyParams :=
| ParamsList (l : list NotifyParam)
| ParamsValue (v : Value).

Section Handler.
(** Declared outside this file: the keys of the registry with
    [common.NewTableKey], the updaters with their [key] and the
    [mcrToUpdater] that this file calls, the locks, and
    [fmt.Sprintf("%v", _)] on a JSON value. *)
Context {Key : Type} `{Countable Key}.
Context {Updater Locker : Type}.
Variable NewTableKey : string -> string -> Key.
Variable mcrToUpdater : MonitorCondRequest.t -> bool -> Updater.
Variable key : Updater -> string.
Variable Sprintf_v : Value -> string.

(** The calls on the database ([ch.db]), on the connection and on the
    locks: what a handler function does besides changing the handler. *)
Inductive effect :=
| AddMonitors (dbName : string) (updatersMap : gmap Key (list Updater))
    (jsonValueStr : string)
| RemoveMonitors (dbName : string) (updaters : gmap string (list string))
    (jsonValueStr : string)
| Notify (method : string) (params : NotifyParams)
| Unlock (lock : Locker).

(** The handler: whether its connection is not nil, its monitors by
    [jsonValueStr] and its locks. *)
Record t := mk {
  connection : bool;
  monitors : gmap string handlerMonitorData;
  databaseLocks : gmap string Locker }.

Definition NewHandler : t := mk false ∅ ∅.

(** [con] tells whether the connection that is given is not nil. *)
Definition SetConnection (ch : t) (con : bool) : t :=
  mk con (monitors ch) (databaseLocks ch).

Definition jsonValueToString (jsonValue : Value) : string := Sprintf_v jsonValue.

(** The loop of [monitor] over the requests of one table. *)
Definition monitor_requests (isV1 : bool) (mcrs : list MonitorCondRequest.t)
    : list Updater * list string :=
  foldl (fun '(updaters, keys) mcr =>
           let updater := mcrToUpdater mcr isV1 in
           ((updaters ++ [updater])%list, (keys ++ [key updater])%list))
    ([], []) mcrs.

(** The loop of [monitor] over the tables of the request, here in the
    order of [map_to_list]: the table names are the keys of a map, so
    [updaterKeys] does not depend on the order, and neither does
    [updatersMap] when [NewTableKey] tells the tables apart. *)
Definition monitor_tables (dbName : string) (isV1 : bool)
    (entries : list (string * list MonitorCondRequest.t))
    : gmap Key (list Updater) * gmap string (list string) :=
  foldl (fun '(updatersMap, updaterKeys) '(tableName, mcrs) =>
           let '(updaters, keys) := monitor_requests isV1 mcrs in
           (<[NewTableKey dbName tableName := updaters]> updatersMap,
            <[tableName := keys]> updaterKeys))
    (∅, ∅) entries.

(** [monitor]: the handler after the call, the calls on the database,
    and the returned error or map of updaters. *)
Definition monitor (ch : t) (param : CondMonitorParameters)
    (notificationType : UpdateNotificationType)
    : t * list effect * (handlerError + gmap Key (list Updater)) :=
  if bool_decide (String.length (DatabaseName param) = 0%nat) then
    (ch, [], inl ErrNoDatabaseName)
  else
    let jsonValue := JsonValue param in
    let JsonValueStr := jsonValueToString jsonValue in
    match monitors ch !! JsonValueStr with
    | Some _ => (ch, [], inl ErrDuplicateJsonValue)
    | None =>
        let '(updatersMap, updaterKeys) :=
          monitor_tables (DatabaseName param)
            (bool_decide (notificationType = Update))
            (map_to_list (MonitorCondRequests param)) in
        (mk (connection ch)
            (<[JsonValueStr :=
                 mkMonitorData (DatabaseName param) notificationType updaterKeys
                   jsonValue]> (monitors ch))
            (databaseLocks ch),
         [AddMonitors (DatabaseName param) updatersMap JsonValueStr],
         inr updatersMap)
    end.

(** [MonitorCancel]: the handler after the call, the calls on the
    database, and the returned error or reply. *)
Definition MonitorCancel (ch : t) (param : Value)
    : t * list effect * (handlerError + string) :=
  let jsonValue := jsonValueToString param in
  match monitors ch !! jsonValue with
  | None => (ch, [], inl ErrUnknownMonitor)
  | Some monitorHandler =>
      (mk (connection ch) (delete jsonValue (monitors ch)) (databaseLocks ch),
       [RemoveMonitors (dataBaseName monitorHandler) (updaters monitorHandler) jsonValue],
       inr "{}")
  end.

(** [Cleanup]: the locks are unlocked and the monitors are removed from
    the database, in the order [range] visits them; the handler keeps
    its maps. *)
Definition Cleanup (ch : t) : t * list effect :=
  (ch,
   ((fun '(_, m) => Unlock m) <$> map_to_list (databaseLocks ch)) ++
   ((fun '(jsonValueStr, monitorHandler) =>
       RemoveMonitors (dataBaseName monitorHandler) (updaters monitorHandler)
         jsonValueStr) <$> map_to_list (monitors ch)))%list.

(** [notify]: the calls on the connection; a nil connection panics. *)
Definition notify (ch : t) (jsonValueStr : string)
    (updates : gmap string (gmap string RowUpdate.t)) : Res (list effect) :=
  match monitors ch !! jsonValueStr with
  | None => Ok []
  | Some handler =>
      if connection ch then
        match notificationType handler with
        | Update =>
            Ok [Notify "update"
                  (ParamsList [ParamJson (jsonValue handler); ParamUpdates updates])]
        | Update2 =>
            Ok [Notify "update2"
                  (ParamsList [ParamJson (jsonValue handler); ParamUpdates updates])]
        | Update3 =>
            Ok [Notify "update3"
                  (ParamsList [ParamJson (jsonValue handler); ParamString ZERO_UUID;
                               ParamUpdates updates])]
        end
      else Panic
  end.

Definition monitorCanceledNotification (ch : t) (jsonValue : Value)
    : Res (list effect) :=
  if connection ch then Ok [Notify "monitor_canceled" (ParamsValue jsonValue)]
  else Panic.

End Handler.
End Handler.

(** ** Scenarios

    Concrete updaters, events and registries, on which the properties
    below are run. *)

(** The wire notation of RFC 7047 for atoms, sets and maps, as a typed
    unmarshalling to run the scenarios with. *)
Definition wireAtom (v : Value) : option Atom :=
  match v with
  | VString s => Some (AString s)
  | VNumber n => Some (AInteger n)
  | VBool b => Some (ABoolean b)
  | VArray [VString tag; VString s] =>
      if decide (tag = "uuid") then Some (AUUID s) else None
  | _ => None
  end.

Definition wireMap (_ : ColumnSchema.t) (v : Value) : option OvsMap :=
  match v with
  | VArray [VString tag; VArray pairs] =>
      if decide (tag = "map") then
        mkOvsMap <$>
          foldr (fun pair (acc : option (gmap Atom Atom)) =>
                   match pair with
                   | VArray [k; x] =>
                       m ← acc; k ← wireAtom k; x ← wireAtom x; Some (<[k := x]> m)
                   | _ => None
                   end) (Some ∅) pairs
      else None
  | _ => None
  end.

Definition wireSet (_ : ColumnSchema.t) (v : Value) : option OvsSet :=
  match v with
  | VArray [VString tag; VArray elems] =>
      if decide (tag = "set") then mkOvsSet <$> mapM wireAtom elems
      else (fun a => mkOvsSet [a]) <$> wireAtom v
  | _ => (fun a => mkOvsSet [a]) <$> wireAtom v
  end.

(** [range] in the order of [map_to_list], and in the opposite order. *)
Definition rangeForward (m : Row) : list (string * Value) := map_to_list m.
Definition rangeBackward (m : Row) : list (string * Value) := reverse (map_to_list m).

Definition U1 : Value := VArray [VString "uuid"; VString "U1"].
Definition U2 : Value := VArray [VString "uuid"; VString "U2"].

(** A table with two string columns, a map column and a set column. *)
Definition schema1 : TableSchema.t :=
  TableSchema.mk
    {[ "c1" := ColumnSchema.mk TypeString; "c2" := ColumnSchema.mk TypeString;
       "m" := ColumnSchema.mk TypeMap; "s" := ColumnSchema.mk TypeSet ]}.

(** The updater of a monitor request without [select], on the given
    columns. *)
Definition updaterOn (columns : list string) (isV1 : bool) : updater :=
  mcrToUpdater (MonitorCondRequest.mk columns None None) "jv" schema1 isV1.

Definition kvOf (createRevision modRevision : Z) (value : option Row) : KeyValue.t :=
  KeyValue.mk "key/db/table/000" createRevision modRevision value.

Definition putEvent (createRevision modRevision : Z) (value : option Row)
    (prev : option (option Row)) : Event.t :=
  Event.mk Event.PUT
    (Some (kvOf createRevision modRevision value))
    (kvOf createRevision createRevision <$> prev).

Definition deleteEvent (prev : option Row) : Event.t :=
  Event.mk Event.DELETE
    (Some (KeyValue.mk "key/db/table/000" 0 0 None))
    (Some (KeyValue.mk "key/db/table/000" 1 1 prev)).

Definition data1 : Row := {[ "_uuid" := U1; "c1" := VString "v1"; "c2" := VString "v2" ]}.
Definition data2 : Row := {[ "_uuid" := U1; "c1" := VString "v1"; "c2" := VString "v3" ]}.

Definition updaterOf (jsonValue : string) (columns : list string) (isV1 : bool) : updater :=
  mcrToUpdater (MonitorCondRequest.mk columns None None) jsonValue schema1 isV1.

(** Keys as lists of path segments, [prefix/database/table/uuid]. *)
Fixpoint splitPath (s : string) : list string :=
  match s with
  | EmptyString => [""]
  | String c rest =>
      if Ascii.eqb c "/"%char then "" :: splitPath rest
      else
        match splitPath rest with
        | seg :: segs => String c seg :: segs
        | [] => [String c ""]
        end
  end.

Definition parsePath (s : string) : option (list string) :=
  let segs := splitPath s in
  if decide (length segs = 4%nat) then Some segs else None.

Definition tablePath (key : list string) : list string := take 3 key.

Definition tableOf (key : list string) : string := default "" (key !! 2%nat).

Definition registryOf (slots : gmap (list string) (list updater)) (rev : Z)
    : dbMonitor :=
  mkDbMonitor slots (mkRevisionChecker rev).

Definition table1 : list string := ["key"; "db"; "table"].
Definition table2 : list string := ["key"; "db"; "other"].

(** An updater whose four selection flags are present and false. *)
Definition updaterClosed (isV1 : bool) : updater :=
  mcrToUpdater
    (MonitorCondRequest.mk [] None
       (Some (MonitorSelect.mk (Some false) (Some false) (Some false) (Some false))))
    "jv" schema1 isV1.

(** A handler over path keys: the updater of a request is the request
    with its protocol variant, its key is made of its columns, and JSON
    values are strings, printed as they are. *)
Definition newTablePath (dbName tableName : string) : list string :=
  ["key"; dbName; tableName].

Definition requestUpdater (mcr : MonitorCondRequest.t) (isV1 : bool)
    : MonitorCondRequest.t * bool := (mcr, isV1).

Definition requestKey (u : MonitorCondRequest.t * bool) : string :=
  String.concat "," (MonitorCondRequest.Columns u.1).

Definition printValue (jsonValue : Value) : string :=
  match jsonValue with
  | VString s => s
  | _ => ""
  end.

Definition handler0 : Handler.t (Locker := string) :=
  Handler.SetConnection Handler.NewHandler true.

Definition params1 : Handler.CondMonitorParameters :=
  Handler.mkParameters "db" (VString "jv")
    {[ "table" := [MonitorCondRequest.mk ["c1"] None None;
                   MonitorCondRequest.mk ["c2"] None None] ]}.

(** * Properties *)

(** ** Row codec *)

Lemma foldl_project_lookup (data : Row) (columns : list string) (acc : Row) (c : string) :
  foldl (fun (newData : Row) column =>
           match data !! column with
           | Some value => <[column := value]> newData
           | None => newData
           end) acc columns !! c
  = if decide (c ∈ columns) then
      match data !! c with Some v => Some v | None => acc !! c end
    else acc !! c.
Proof.
  revert acc. induction columns as [| column columns IH]; intros acc; simpl.
  - done.
  - rewrite IH. destruct (decide (c = column)) as [-> | Hne].
    + rewrite (decide_True (P := column ∈ column :: columns)) by (apply elem_of_cons; by left).
      destruct (data !! column) eqn:E; [| by destruct (decide _)].
      rewrite lookup_insert_eq. by destruct (decide _).
    + assert (c ∈ column :: columns <-> c ∈ columns) as Hiff.
      { rewrite elem_of_cons. tauto. }
      assert ((match data !! column with
               | Some value => <[column := value]> acc
               | None => acc
               end) !! c = acc !! c) as ->.
      { destruct (data !! column); [by rewrite lookup_insert_ne |]; done. }
      destruct (decide (c ∈ columns)), (decide (c ∈ column :: columns)); tauto.
Qed.

(** The projection keeps the selected columns that the row has, or the
    whole row when no column is selected. *)
Lemma deleteUnselectedColumns_lookup (u : updater) (data : Row) (c : string) :
  deleteUnselectedColumns u data !! c
  = if decide (MonitorCondRequest.Columns (mcr u) = []) then data !! c
    else if decide (c ∈ MonitorCondRequest.Columns (mcr u)) then data !! c
    else None.
Proof.
  unfold deleteUnselectedColumns.
  destruct (MonitorCondRequest.Columns (mcr u)) as [| column columns] eqn:E.
  - done.
  - rewrite bool_decide_eq_true_2 by (simpl; lia).
    rewrite foldl_project_lookup, lookup_empty.
    rewrite (decide_False (P := _ :: _ = [])) by done.
    destruct (decide _); [| done]. by destruct (data !! c).
Qed.

Lemma getAndDeleteUUID_Ok (obj data : Row) (uuid : string) :
  getAndDeleteUUID obj = Ok (data, uuid) ->
  data = delete COL_UUID obj /\
  exists tag, obj !! COL_UUID = Some (VArray [tag; VString uuid]).
Proof.
  unfold getAndDeleteUUID. destruct (obj !! COL_UUID) as [uuidInt |]; [| done].
  destruct uuidInt as [| | | | l | | |]; try done.
  case_bool_decide; [done |].
  destruct l as [| tag [| x [| ? ?]]]; simpl in *; try lia.
  destruct x; try done. intros [= <- <-]. eauto.
Qed.

Lemma prepareRow_Ok (u : updater) (value : option Row) (data : Row) (uuid : string) :
  prepareRow u value = Ok (data, uuid) ->
  exists obj tag,
    value = Some obj /\
    obj !! COL_UUID = Some (VArray [tag; VString uuid]) /\
    data = deleteUnselectedColumns u (delete COL_UUID obj).
Proof.
  unfold prepareRow. destruct value as [obj |]; simpl; [| done].
  destruct (getAndDeleteUUID obj) as [[data' uuid'] | |] eqn:E; simpl; try done.
  intros [= <- <-]. apply getAndDeleteUUID_Ok in E as [-> [tag Htag]]. eauto.
Qed.

(** A projected row never has the reserved column. *)
Lemma prepareRow_no_uuid (u : updater) (value : option Row) (data : Row) (uuid : string) :
  prepareRow u value = Ok (data, uuid) -> data !! COL_UUID = None.
Proof.
  intros (obj & tag & _ & _ & ->)%prepareRow_Ok.
  rewrite deleteUnselectedColumns_lookup, lookup_delete_eq.
  by repeat destruct (decide _).
Qed.

Lemma size_pos_nonempty (m : Row) : bool_decide (0 < size m)%nat = negb (bool_decide (m = ∅)).
Proof.
  destruct (decide (m = ∅)) as [-> | Hne].
  - by rewrite map_size_empty.
  - apply map_size_non_empty_iff in Hne as Hsize.
    rewrite bool_decide_eq_true_2 by lia. by rewrite bool_decide_eq_false_2.
Qed.

(** ** Updater and diff engine *)

Section UpdaterProps.
Variable UnmarshalMap : ColumnSchema.t -> Value -> option OvsMap.
Variable UnmarshalSet : ColumnSchema.t -> Value -> option OvsSet.
Variable rangeRow : Row -> list (string * Value).

(** Whatever the order, [range] visits each entry of the map once. *)
Hypothesis rangeRow_entries : forall m : Row, rangeRow m ≡ₚ map_to_list m.

Local Abbreviation compareColumn := (compareColumn UnmarshalMap UnmarshalSet).
Local Abbreviation cell := (cell UnmarshalMap UnmarshalSet).
Local Abbreviation compareModifiedRows_loop :=
  (compareModifiedRows_loop UnmarshalMap UnmarshalSet).
Local Abbreviation compareModifiedRows :=
  (compareModifiedRows UnmarshalMap UnmarshalSet rangeRow).
Local Abbreviation prepareModifyRowUpdate :=
  (prepareModifyRowUpdate UnmarshalMap UnmarshalSet rangeRow).
Local Abbreviation prepareRowUpdate :=
  (prepareRowUpdate UnmarshalMap UnmarshalSet rangeRow).

Lemma rangeRow_lookup (m : Row) (c : string) (v : Value) :
  (c, v) ∈ rangeRow m <-> m !! c = Some v.
Proof. by rewrite rangeRow_entries, elem_of_map_to_list. Qed.

Lemma rangeRow_NoDup (m : Row) : NoDup (rangeRow m).*1.
Proof. rewrite rangeRow_entries. apply NoDup_fst_map_to_list. Qed.

Lemma rangeRow_fst (m : Row) (c : string) :
  c ∈ (rangeRow m).*1 <-> is_Some (m !! c).
Proof.
  rewrite list_elem_of_fmap. split.
  - intros [[c' v] [-> Hin]]. apply rangeRow_lookup in Hin. eauto.
  - intros [v Hv]. exists (c, v). split; [done |]. by apply rangeRow_lookup.
Qed.

(** *** The loop of [compareModifiedRows] *)

Lemma compareModifiedRows_loop_app u l1 l2 modifiedRow prevRow deltaRow :
  compareModifiedRows_loop u (l1 ++ l2) modifiedRow prevRow deltaRow
  = match compareModifiedRows_loop u l1 modifiedRow prevRow deltaRow with
    | Ok (deltaRow', None) =>
        compareModifiedRows_loop u l2 modifiedRow prevRow deltaRow'
    | r => r
    end.
Proof.
  revert deltaRow. induction l1 as [| [column cValue] l1 IH]; intros deltaRow; simpl.
  - done.
  - destruct (DeepEqual cValue (index prevRow column)); simpl; [by rewrite IH |].
    destruct (compareColumn u modifiedRow prevRow column); [by rewrite IH | done ..].
Qed.

(** The loop only stores under the columns it visits. *)
Lemma compareModifiedRows_loop_keys u entries modifiedRow prevRow deltaRow delta err c :
  compareModifiedRows_loop u entries modifiedRow prevRow deltaRow = Ok (delta, err) ->
  is_Some (delta !! c) -> is_Some (deltaRow !! c) \/ c ∈ entries.*1.
Proof.
  revert deltaRow. induction entries as [| [column cValue] entries IH];
    intros deltaRow; simpl.
  - intros [= <- <-]. by left.
  - destruct (DeepEqual cValue (index prevRow column)); simpl.
    + intros Hloop Hc. destruct (IH _ Hloop Hc); [by left |].
      right. apply elem_of_cons. by right.
    + destruct (compareColumn u modifiedRow prevRow column) as [d | e |]; [| | done].
      * intros Hloop Hc. destruct (IH _ Hloop Hc) as [Hin | Hin].
        -- destruct (decide (column = c)) as [-> | Hne].
           ++ right. apply elem_of_cons. by left.
           ++ left. by rewrite lookup_insert_ne in Hin.
        -- right. apply elem_of_cons. by right.
      * intros [= <- <-]. by left.
Qed.

(** When no visited column raises an error, the loop runs to its end
    and stores a value under exactly the visited columns whose values
    differ. *)
Lemma compareModifiedRows_loop_Ok u entries modifiedRow prevRow deltaRow :
  (forall c v, (c, v) ∈ entries -> modifiedRow !! c = Some v) ->
  (forall c v, (c, v) ∈ entries -> v <> index prevRow c ->
               is_Some (cell u modifiedRow prevRow c)) ->
  exists delta,
    compareModifiedRows_loop u entries modifiedRow prevRow deltaRow = Ok (delta, None) /\
    forall c, delta !! c
              = if decide (c ∈ entries.*1 /\ index modifiedRow c <> index prevRow c)
                then cell u modifiedRow prevRow c
                else deltaRow !! c.
Proof.
  revert deltaRow. induction entries as [| [column cValue] entries IH];
    intros deltaRow Hin Hok.
  - exists deltaRow. split; [done |]. intros c.
    rewrite decide_False; [done |]. intros [[]%not_elem_of_nil _].
  - simpl.
    assert (index modifiedRow column = cValue) as Hidx.
    { unfold index. rewrite (Hin column cValue); [done |]. apply elem_of_cons. by left. }
    assert (forall c v, (c, v) ∈ entries -> modifiedRow !! c = Some v) as Hin'.
    { intros c v Hcv. apply Hin, elem_of_cons. by right. }
    assert (forall c v, (c, v) ∈ entries -> v <> index prevRow c ->
                        is_Some (cell u modifiedRow prevRow c)) as Hok'.
    { intros c v Hcv. apply Hok, elem_of_cons. by right. }
    destruct (DeepEqual cValue (index prevRow column)) eqn:E; simpl.
    + apply DeepEqual_eq in E.
      destruct (IH deltaRow Hin' Hok') as (delta & Hloop & Hdelta).
      exists delta. split; [done |]. intros c. rewrite Hdelta.
      destruct (decide (c = column)) as [-> | Hne].
      * rewrite !decide_False; [done | |]; intros [_ Hd]; congruence.
      * apply decide_ext. rewrite elem_of_cons. tauto.
    + apply DeepEqual_neq in E.
      destruct (Hok column cValue) as [d Hd]; [apply elem_of_cons; by left | done |].
      unfold cell in Hd.
      destruct (compareColumn u modifiedRow prevRow column) as [d' | |] eqn:Ecol;
        [| done ..].
      injection Hd as ->.
      destruct (IH (<[column := d]> deltaRow) Hin' Hok') as (delta & Hloop & Hdelta).
      exists delta. split; [done |]. intros c. rewrite Hdelta.
      destruct (decide (c = column)) as [-> | Hne].
      * rewrite lookup_insert_eq.
        assert (cell u modifiedRow prevRow column = Some d) as ->
          by (unfold cell; by rewrite Ecol).
        assert (column ∈ column :: entries.*1 /\
                index modifiedRow column <> index prevRow column) as Hhere.
        { split; [apply elem_of_cons; by left | congruence]. }
        repeat case_decide; done.
      * rewrite lookup_insert_ne by done.
        apply decide_ext. simpl. rewrite elem_of_cons. tauto.
Qed.

(** *** Events *)

Lemma IsModify_true (event : Event.t) :
  Event.IsModify event = Ok true ->
  Event.Type_ event = Event.PUT /\ Event.IsCreate event = Ok false.
Proof.
  unfold Event.IsModify, Event.IsCreate.
  destruct (Event.Type_ event); [| done].
  destruct (Event.Kv event) as [kv |]; simpl; [| done].
  by case_bool_decide.
Qed.

Lemma IsCreate_true (event : Event.t) :
  Event.IsCreate event = Ok true -> Event.IsModify event = Ok false.
Proof.
  unfold Event.IsModify, Event.IsCreate.
  destruct (Event.Type_ event); [| done].
  destruct (Event.Kv event) as [kv |]; simpl; [| done].
  by case_bool_decide.
Qed.

Lemma IsDelete (event : Event.t) :
  Event.Type_ event = Event.DELETE ->
  Event.IsModify event = Ok false /\ Event.IsCreate event = Ok false.
Proof. unfold Event.IsModify, Event.IsCreate. by intros ->. Qed.

(** *** Claims on the updater *)

(** C9. A Modify event whose gate is open and whose decoded post- and
    pre-images carry different UUIDs makes the updater return the
    "UUID was changed" error; with the error no row update is
    returned. *)
Theorem modify_uuid_changed (u : updater) (event : Event.t)
    (select : MonitorSelect.t) (kv prevKv : KeyValue.t)
    (modifiedRow prevRow : Row) (uuid prevUUID : string) :
  Event.IsModify event = Ok true ->
  MonitorCondRequest.Select (mcr u) = Some select ->
  MSIsTrue (MonitorSelect.Modify select) = true ->
  Event.Kv event = Some kv ->
  Event.PrevKv event = Some prevKv ->
  prepareRow u (KeyValue.Value kv) = Ok (modifiedRow, uuid) ->
  prepareRow u (KeyValue.Value prevKv) = Ok (prevRow, prevUUID) ->
  uuid <> prevUUID ->
  prepareRowUpdate u event = Err (ErrUUIDChanged prevUUID uuid).
Proof.
  intros Hmod Hsel Hgate Hkv Hprev Hrow Hprow Hne.
  unfold prepareRowUpdate, prepareModifyRowUpdate.
  rewrite Hmod, Hsel; simpl. rewrite Hgate, Hkv; simpl.
  rewrite Hrow, Hprev; simpl. rewrite Hprow; simpl.
  by rewrite bool_decide_eq_true_2.
Qed.

(** C2, as amended.  A Create event whose Insert gate is open and
    whose projected row is empty yields no row update.  A Delete event
    whose Delete gate is open and whose pre-image decodes yields, for
    a v2/v3 updater, [{Delete: true}] whatever the projection is, and
    for a v1 updater [{Old: projected pre-image}] if the projection is
    not empty and no row update otherwise. *)
Theorem create_delete_row_update (u : updater) (event : Event.t)
    (select : MonitorSelect.t) :
  MonitorCondRequest.Select (mcr u) = Some select ->
  (forall kv data uuid,
      Event.IsCreate event = Ok true ->
      MSIsTrue (MonitorSelect.Insert select) = true ->
      Event.Kv event = Some kv ->
      prepareRow u (KeyValue.Value kv) = Ok (data, uuid) ->
      data = ∅ ->
      prepareRowUpdate u event = Ok (None, "")) /\
  (forall prevKv data uuid,
      Event.Type_ event = Event.DELETE ->
      MSIsTrue (MonitorSelect.Delete select) = true ->
      Event.PrevKv event = Some prevKv ->
      prepareRow u (KeyValue.Value prevKv) = Ok (data, uuid) ->
      prepareRowUpdate u event
      = if isV1 u then
          if decide (data = ∅) then Ok (None, uuid)
          else Ok (Some (RowUpdate.mk None (Some data) None None false None), uuid)
        else Ok (Some (RowUpdate.mk None None None None true None), uuid)).
Proof.
  intros Hsel. split.
  - intros kv data uuid Hcreate Hgate Hkv Hrow ->.
    unfold prepareRowUpdate. rewrite (IsCreate_true _ Hcreate); simpl.
    rewrite Hcreate; simpl. unfold prepareCreateRowUpdate.
    rewrite Hsel; simpl. rewrite Hgate, Hkv; simpl. by rewrite Hrow.
  - intros prevKv data uuid Hdel Hgate Hprev Hrow.
    destruct (IsDelete _ Hdel) as [Hmod Hcreate].
    unfold prepareRowUpdate. rewrite Hmod; simpl. rewrite Hcreate; simpl.
    unfold prepareDeleteRowUpdate.
    rewrite Hsel; simpl. rewrite Hgate, Hprev; simpl. rewrite Hrow.
    destruct (isV1 u); simpl; [| done].
    rewrite size_pos_nonempty. by destruct (decide (data = ∅)); case_bool_decide.
Qed.

(** *** What an emitted row update is made of *)

Lemma prepareCreateRowUpdate_Some u event rowUpdate uuid :
  prepareCreateRowUpdate u event = Ok (Some rowUpdate, uuid) ->
  exists kv data,
    Event.Kv event = Some kv /\
    prepareRow u (KeyValue.Value kv) = Ok (data, uuid) /\
    (rowUpdate = RowUpdate.mk None None None (Some data) false None \/
     rowUpdate = RowUpdate.mk (Some data) None None None false None).
Proof.
  unfold prepareCreateRowUpdate.
  destruct (MonitorCondRequest.Select (mcr u)) as [select |]; simpl; [| done].
  destruct (MSIsTrue (MonitorSelect.Insert select)); simpl; [| done].
  destruct (Event.Kv event) as [kv |] eqn:Hkv; simpl; [| done].
  destruct (prepareRow u (KeyValue.Value kv)) as [[data uuid'] | |] eqn:Hrow; simpl; [| done ..].
  case_bool_decide; [| done].
  destruct (isV1 u); simpl; intros [= <- <-]; exists kv, data; eauto 10.
Qed.

Lemma prepareDeleteRowUpdate_Some u event rowUpdate uuid :
  prepareDeleteRowUpdate u event = Ok (Some rowUpdate, uuid) ->
  exists prevKv data,
    Event.PrevKv event = Some prevKv /\
    prepareRow u (KeyValue.Value prevKv) = Ok (data, uuid) /\
    (rowUpdate = RowUpdate.mk None None None None true None \/
     rowUpdate = RowUpdate.mk None (Some data) None None false None).
Proof.
  unfold prepareDeleteRowUpdate.
  destruct (MonitorCondRequest.Select (mcr u)) as [select |]; simpl; [| done].
  destruct (MSIsTrue (MonitorSelect.Delete select)); simpl; [| done].
  destruct (Event.PrevKv event) as [prevKv |] eqn:Hprev; simpl; [| done].
  destruct (prepareRow u (KeyValue.Value prevKv)) as [[data uuid'] | |] eqn:Hrow;
    destruct (isV1 u); simpl; try done.
  - case_bool_decide; [| done]. intros [= <- <-]; exists prevKv, data; eauto 10.
  - intros [= <- <-]; exists prevKv, data; eauto 10.
Qed.

Lemma prepareModifyRowUpdate_Some u event rowUpdate uuid :
  prepareModifyRowUpdate u event = Ok (Some rowUpdate, uuid) ->
  exists kv prevKv modifiedRow prevRow deltaRow err,
    Event.Kv event = Some kv /\
    Event.PrevKv event = Some prevKv /\
    prepareRow u (KeyValue.Value kv) = Ok (modifiedRow, uuid) /\
    prepareRow u (KeyValue.Value prevKv) = Ok (prevRow, uuid) /\
    compareModifiedRows u modifiedRow prevRow ∅ = Ok (deltaRow, err) /\
    (rowUpdate = RowUpdate.mk None None None None false (Some deltaRow) \/
     rowUpdate = RowUpdate.mk (Some modifiedRow) (Some deltaRow) None None false None).
Proof.
  unfold prepareModifyRowUpdate.
  destruct (MonitorCondRequest.Select (mcr u)) as [select |]; simpl; [| done].
  destruct (MSIsTrue (MonitorSelect.Modify select)); simpl; [| done].
  destruct (Event.Kv event) as [kv |] eqn:Hkv; simpl; [| done].
  destruct (prepareRow u (KeyValue.Value kv)) as [[modifiedRow uuid'] | |] eqn:Hrow;
    simpl; [| done ..].
  destruct (Event.PrevKv event) as [prevKv |] eqn:Hprev; simpl; [| done].
  destruct (prepareRow u (KeyValue.Value prevKv)) as [[prevRow prevUUID] | |] eqn:Hprow;
    simpl; [| done ..].
  case_bool_decide as Huuid; [done |].
  assert (uuid' = prevUUID) as <- by (by destruct (decide (uuid' = prevUUID))).
  destruct (compareModifiedRows u modifiedRow prevRow ∅) as [[deltaRow err] | |] eqn:E;
    simpl; [| done ..].
  case_bool_decide; [| done].
  destruct (isV1 u); simpl; intros [= <- <-];
    exists kv, prevKv, modifiedRow, prevRow, deltaRow, err; eauto 10.
Qed.

Lemma prepareCreateRowInitial_Some u value rowUpdate uuid :
  prepareCreateRowInitial u value = Ok (Some rowUpdate, uuid) ->
  exists payload data,
    value = Some payload /\
    prepareRow u payload = Ok (data, uuid) /\
    (rowUpdate = RowUpdate.mk None None (Some data) None false None \/
     rowUpdate = RowUpdate.mk (Some data) None None None false None).
Proof.
  unfold prepareCreateRowInitial.
  destruct (MonitorCondRequest.Select (mcr u)) as [select |]; simpl; [| done].
  destruct (MSIsTrue (MonitorSelect.Initial select)); simpl; [| done].
  destruct value as [payload |]; simpl; [| done].
  destruct (prepareRow u payload) as [[data uuid'] | |] eqn:Hrow; simpl; [| done ..].
  case_bool_decide; [| done].
  destruct (isV1 u); simpl; intros [= <- <-]; exists payload, data; eauto 10.
Qed.

(** The delta of a Modify event has no column that the post-image
    lacks. *)
Lemma compareModifiedRows_keys u modifiedRow prevRow deltaRow err c :
  compareModifiedRows u modifiedRow prevRow ∅ = Ok (deltaRow, err) ->
  is_Some (deltaRow !! c) -> is_Some (modifiedRow !! c).
Proof.
  intros Hloop Hc.
  destruct (compareModifiedRows_loop_keys _ _ _ _ _ _ _ _ Hloop Hc) as [Hin | Hin].
  - rewrite lookup_empty in Hin. by destruct Hin.
  - by apply rangeRow_fst.
Qed.

Lemma noUUIDColumn_intro (new old initial insert modify : option Row) (delete : bool) :
  (forall row, new = Some row -> row !! COL_UUID = None) ->
  (forall row, old = Some row -> row !! COL_UUID = None) ->
  (forall row, initial = Some row -> row !! COL_UUID = None) ->
  (forall row, insert = Some row -> row !! COL_UUID = None) ->
  (forall row, modify = Some row -> row !! COL_UUID = None) ->
  noUUIDColumn (RowUpdate.mk new old initial insert delete modify).
Proof. intros. unfold noUUIDColumn; simpl. by repeat constructor. Qed.

(** C8. Whatever the event, the protocol variant and the projection
    (also one that lists [_uuid]), a row update that [prepareRowUpdate]
    or [prepareCreateRowInitial] emits has no [_uuid] key in [New],
    [Old], [Initial], [Insert] or [Modify]; the UUID returned next to
    it is the one of the [_uuid] field of the decoded image. *)
Theorem uuid_not_in_row_update (u : updater) (event : Event.t)
    (value : option (option Row)) (rowUpdate : RowUpdate.t) (uuid : string) :
  (prepareRowUpdate u event = Ok (Some rowUpdate, uuid) ->
   noUUIDColumn rowUpdate /\
   exists kv obj tag,
     (Event.Kv event = Some kv \/ Event.PrevKv event = Some kv) /\
     KeyValue.Value kv = Some obj /\
     obj !! COL_UUID = Some (VArray [tag; VString uuid])) /\
  (prepareCreateRowInitial u value = Ok (Some rowUpdate, uuid) ->
   noUUIDColumn rowUpdate /\
   exists obj tag,
     value = Some (Some obj) /\
     obj !! COL_UUID = Some (VArray [tag; VString uuid])).
Proof.
  split.
  - unfold prepareRowUpdate.
    destruct (Event.IsModify event) as [[|] | |]; simpl; [| | done ..].
    + intros (kv & prevKv & modifiedRow & prevRow & deltaRow & err & Hkv & _ &
              Hrow & _ & Hloop & Hru)%prepareModifyRowUpdate_Some.
      pose proof (prepareRow_no_uuid _ _ _ _ Hrow) as Hno.
      assert (deltaRow !! COL_UUID = None) as Hdelta.
      { destruct (deltaRow !! COL_UUID) eqn:E; [| done].
        destruct (compareModifiedRows_keys _ _ _ _ _ _ Hloop (mk_is_Some _ _ E)) as [? ?].
        congruence. }
      split.
      * destruct Hru as [-> | ->]; apply noUUIDColumn_intro; congruence.
      * apply prepareRow_Ok in Hrow as (obj & tag & Hval & Htag & _). eauto 10.
    + destruct (Event.IsCreate event) as [[|] | |]; simpl; [| | done ..].
      * intros (kv & data & Hkv & Hrow & Hru)%prepareCreateRowUpdate_Some.
        pose proof (prepareRow_no_uuid _ _ _ _ Hrow) as Hno.
        split.
        -- destruct Hru as [-> | ->]; apply noUUIDColumn_intro; congruence.
        -- apply prepareRow_Ok in Hrow as (obj & tag & Hval & Htag & _). eauto 10.
      * intros (prevKv & data & Hprev & Hrow & Hru)%prepareDeleteRowUpdate_Some.
        pose proof (prepareRow_no_uuid _ _ _ _ Hrow) as Hno.
        split.
        -- destruct Hru as [-> | ->]; apply noUUIDColumn_intro; congruence.
        -- apply prepareRow_Ok in Hrow as (obj & tag & Hval & Htag & _). eauto 10.
  - intros (payload & data & -> & Hrow & Hru)%prepareCreateRowInitial_Some.
    pose proof (prepareRow_no_uuid _ _ _ _ Hrow) as Hno.
    split.
    + destruct Hru as [-> | ->]; apply noUUIDColumn_intro; congruence.
    + apply prepareRow_Ok in Hrow as (obj & tag & -> & Htag & _). eauto.
Qed.

(** *** The delta of a Modify event *)

(** When the diff engine meets no error, the delta holds exactly the
    columns of the post-image whose value differs from the pre-image,
    each with what [compareColumn] computes for it. *)
Lemma compareModifiedRows_Ok u modifiedRow prevRow :
  (forall c v, modifiedRow !! c = Some v -> v <> index prevRow c ->
               exists d, compareColumn u modifiedRow prevRow c = Ok d) ->
  exists deltaRow,
    compareModifiedRows u modifiedRow prevRow ∅ = Ok (deltaRow, None) /\
    (forall c v, modifiedRow !! c = Some v -> v <> index prevRow c ->
                 exists d, compareColumn u modifiedRow prevRow c = Ok d /\
                           deltaRow !! c = Some d) /\
    (forall c, is_Some (deltaRow !! c) ->
               exists v, modifiedRow !! c = Some v /\ v <> index prevRow c).
Proof.
  intros Hok.
  destruct (compareModifiedRows_loop_Ok u (rangeRow modifiedRow) modifiedRow prevRow ∅)
    as (deltaRow & Hloop & Hdelta).
  { intros c v. apply rangeRow_lookup. }
  { intros c v Hin%rangeRow_lookup Hne. unfold cell.
    destruct (Hok c v Hin Hne) as [d ->]. eauto. }
  exists deltaRow. split; [done |]. split.
  - intros c v Hc Hne. destruct (Hok c v Hc Hne) as [d Hd]. exists d. split; [done |].
    rewrite Hdelta, decide_True.
    + unfold cell. by rewrite Hd.
    + split; [apply rangeRow_fst; eauto |]. unfold index at 1. by rewrite Hc.
  - intros c [d Hd]. rewrite Hdelta in Hd.
    destruct (decide _) as [[[v Hv]%rangeRow_fst Hne] |]; [| by rewrite lookup_empty in Hd].
    exists v. split; [done |]. unfold index at 1 in Hne. by rewrite Hv in Hne.
Qed.

Lemma compareColumn_scalar u modifiedRow prevRow c columnSchema :
  TableSchema.LookupColumn (tableSchema u) c = Ok columnSchema ->
  ColumnSchema.Type_ columnSchema <> TypeMap ->
  ColumnSchema.Type_ columnSchema <> TypeSet ->
  compareColumn u modifiedRow prevRow c
  = Ok (if isV1 u then index prevRow c else index modifiedRow c).
Proof.
  intros Hlookup Hmap Hset. unfold compareColumn. rewrite Hlookup; simpl.
  rewrite !bool_decide_eq_false_2 by done. by destruct (isV1 u).
Qed.

(** C1, as amended.  For a Modify event whose gate is open, whose
    images decode with the same UUID, on which the diff engine meets no
    error (each changed column is in the schema and, for a map or set
    column, unmarshals) and on which no map or set column differs in
    its encoding only (the delta of each changed column is not empty):
    the delta holds exactly the columns of the projected post-image
    whose value differs from the pre-image (a column that the pre-image
    lacks counts as [nil] there), none of them with an empty delta, for
    a scalar column the previous value under v1 and the new value under
    v2/v3; if the delta is not empty a v1 updater emits
    [{New: projected post-image, Old: delta}] and a v2/v3 updater
    [{Modify: delta}]; if every column of the projected post-image is
    equal in the pre-image the delta is empty and nothing is emitted. *)
Theorem modify_row_update (u : updater) (event : Event.t)
    (select : MonitorSelect.t) (kv prevKv : KeyValue.t)
    (modifiedRow prevRow : Row) (uuid : string) :
  Event.IsModify event = Ok true ->
  MonitorCondRequest.Select (mcr u) = Some select ->
  MSIsTrue (MonitorSelect.Modify select) = true ->
  Event.Kv event = Some kv ->
  Event.PrevKv event = Some prevKv ->
  prepareRow u (KeyValue.Value kv) = Ok (modifiedRow, uuid) ->
  prepareRow u (KeyValue.Value prevKv) = Ok (prevRow, uuid) ->
  (forall c v, modifiedRow !! c = Some v -> v <> index prevRow c ->
               exists d, compareColumn u modifiedRow prevRow c = Ok d /\
                         emptyDelta d = false) ->
  exists deltaRow : Row,
    (forall c v, modifiedRow !! c = Some v -> v <> index prevRow c ->
                 exists d, compareColumn u modifiedRow prevRow c = Ok d /\
                           deltaRow !! c = Some d) /\
    (forall c, is_Some (deltaRow !! c) ->
               exists v, modifiedRow !! c = Some v /\ v <> index prevRow c) /\
    (forall c d, deltaRow !! c = Some d -> emptyDelta d = false) /\
    (forall c v columnSchema,
        modifiedRow !! c = Some v -> v <> index prevRow c ->
        TableSchema.LookupColumn (tableSchema u) c = Ok columnSchema ->
        ColumnSchema.Type_ columnSchema <> TypeMap ->
        ColumnSchema.Type_ columnSchema <> TypeSet ->
        deltaRow !! c = Some (if isV1 u then index prevRow c else v)) /\
    (deltaRow = ∅ <->
     forall c v, modifiedRow !! c = Some v -> v = index prevRow c) /\
    prepareRowUpdate u event
    = Ok (if decide (deltaRow = ∅) then (None, "")
          else if isV1 u then
            (Some (RowUpdate.mk (Some modifiedRow) (Some deltaRow) None None false None),
             uuid)
          else
            (Some (RowUpdate.mk None None None None false (Some deltaRow)), uuid)).
Proof.
  intros Hmod Hsel Hgate Hkv Hprev Hrow Hprow Hreal.
  assert (forall c v, modifiedRow !! c = Some v -> v <> index prevRow c ->
                      exists d, compareColumn u modifiedRow prevRow c = Ok d) as Hok.
  { intros c v Hc Hne. destruct (Hreal c v Hc Hne) as (d & Hd & _). eauto. }
  destruct (compareModifiedRows_Ok u modifiedRow prevRow Hok)
    as (deltaRow & Hloop & Hchanged & Honly).
  exists deltaRow. split; [done |]. split; [done |]. split; [| split; [| split]].
  - intros c d Hd. destruct (Honly c (mk_is_Some _ _ Hd)) as (v & Hv & Hne).
    destruct (Hchanged c v Hv Hne) as (d1 & Hd1 & Hdelta).
    destruct (Hreal c v Hv Hne) as (d2 & Hd2 & Hfull). congruence.
  - intros c v columnSchema Hc Hne Hlookup Hmap Hset.
    destruct (Hchanged c v Hc Hne) as (d & Hd & ->).
    rewrite (compareColumn_scalar _ _ _ _ _ Hlookup Hmap Hset) in Hd.
    injection Hd as <-. unfold index at 2. by rewrite Hc.
  - split.
    + intros -> c v Hc. destruct (decide (v = index prevRow c)) as [| Hne]; [done |].
      destruct (Hchanged c v Hc Hne) as (d & _ & Hd). by rewrite lookup_empty in Hd.
    + intros Heq. apply map_eq. intros c. rewrite lookup_empty.
      destruct (deltaRow !! c) as [d |] eqn:E; [| done].
      destruct (Honly c (mk_is_Some _ _ E)) as (v & Hv & Hne).
      by destruct (Hne (Heq c v Hv)).
  - unfold prepareRowUpdate, prepareModifyRowUpdate.
    rewrite Hmod, Hsel; simpl. rewrite Hgate, Hkv; simpl.
    rewrite Hrow, Hprev; simpl. rewrite Hprow; simpl.
    rewrite bool_decide_eq_false_2 by (intros Hne; by apply Hne).
    rewrite Hloop; simpl. rewrite size_pos_nonempty.
    destruct (decide (deltaRow = ∅)); case_bool_decide; try done.
    by destruct (isV1 u).
Qed.

(** C4 on the code.  When the diff engine meets a changed column that
    is absent from the table schema, [compareModifiedRows] stops at that
    column and returns the lookup error, which its caller drops: the
    delta holds the changed columns visited before it, and neither the
    unknown column nor any column that [range] visits after it, so it
    depends on the order of the visit.  [prepareRowUpdate] returns
    without an error and emits this delta if it is not empty. *)
Theorem schema_lookup_error_stops_diff (u : updater) (event : Event.t)
    (select : MonitorSelect.t) (kv prevKv : KeyValue.t)
    (modifiedRow prevRow : Row) (uuid : string)
    (before after : list (string * Value)) (x : string) (xv : Value) :
  Event.IsModify event = Ok true ->
  MonitorCondRequest.Select (mcr u) = Some select ->
  MSIsTrue (MonitorSelect.Modify select) = true ->
  Event.Kv event = Some kv ->
  Event.PrevKv event = Some prevKv ->
  prepareRow u (KeyValue.Value kv) = Ok (modifiedRow, uuid) ->
  prepareRow u (KeyValue.Value prevKv) = Ok (prevRow, uuid) ->
  rangeRow modifiedRow = (before ++ (x, xv) :: after)%list ->
  xv <> index prevRow x ->
  TableSchema.Columns (tableSchema u) !! x = None ->
  (forall c v, (c, v) ∈ before -> v <> index prevRow c ->
               exists d, compareColumn u modifiedRow prevRow c = Ok d) ->
  exists deltaRow : Row,
    compareModifiedRows u modifiedRow prevRow ∅
    = Ok (deltaRow, Some (ErrLookupColumn x)) /\
    (forall c v, (c, v) ∈ before -> v <> index prevRow c ->
                 exists d, compareColumn u modifiedRow prevRow c = Ok d /\
                           deltaRow !! c = Some d) /\
    (forall c, is_Some (deltaRow !! c) ->
               c ∈ before.*1 /\ index modifiedRow c <> index prevRow c) /\
    deltaRow !! x = None /\
    (forall c, c ∈ after.*1 -> deltaRow !! c = None) /\
    prepareRowUpdate u event
    = Ok (if decide (deltaRow = ∅) then (None, "")
          else if isV1 u then
            (Some (RowUpdate.mk (Some modifiedRow) (Some deltaRow) None None false None),
             uuid)
          else
            (Some (RowUpdate.mk None None None None false (Some deltaRow)), uuid)).
Proof.
  intros Hmod Hsel Hgate Hkv Hprev Hrow Hprow Hrange Hx Hschema Hok.
  pose proof (rangeRow_NoDup modifiedRow) as Hnodup.
  rewrite Hrange, fmap_app, fmap_cons in Hnodup. simpl in Hnodup.
  apply NoDup_app in Hnodup as (_ & Hdisj & [Hxafter _]%NoDup_cons).
  assert (forall c v, (c, v) ∈ before -> modifiedRow !! c = Some v) as Hin.
  { intros c v Hcv. apply rangeRow_lookup. rewrite Hrange. apply elem_of_app. by left. }
  destruct (compareModifiedRows_loop_Ok u before modifiedRow prevRow ∅ Hin)
    as (deltaRow & Hloop & Hdelta).
  { intros c v Hcv Hne. unfold cell. destruct (Hok c v Hcv Hne) as [d ->]. eauto. }
  assert (forall c, is_Some (deltaRow !! c) ->
                    c ∈ before.*1 /\ index modifiedRow c <> index prevRow c) as Honly.
  { intros c [d Hd]. rewrite Hdelta in Hd.
    destruct (decide _); [done | by rewrite lookup_empty in Hd]. }
  assert (forall c, c ∉ before.*1 -> deltaRow !! c = None) as Hnot.
  { intros c Hc. destruct (deltaRow !! c) eqn:E; [| done].
    by destruct (Honly c (mk_is_Some _ _ E)). }
  assert (compareModifiedRows u modifiedRow prevRow ∅
          = Ok (deltaRow, Some (ErrLookupColumn x))) as Hcmp.
  { unfold compareModifiedRows. rewrite Hrange, compareModifiedRows_loop_app, Hloop.
    simpl. rewrite (proj2 (DeepEqual_neq _ _) Hx); simpl.
    unfold compareColumn, TableSchema.LookupColumn. by rewrite Hschema. }
  exists deltaRow. split; [done |]. split; [| split; [done | split; [| split]]].
  - intros c v Hcv Hne. destruct (Hok c v Hcv Hne) as [d Hd]. exists d. split; [done |].
    rewrite Hdelta, decide_True.
    + unfold cell. by rewrite Hd.
    + split.
      * apply list_elem_of_fmap. by exists (c, v).
      * unfold index at 1. by rewrite (Hin c v Hcv).
  - apply Hnot. intros Hxb. apply (Hdisj x Hxb). apply elem_of_cons. by left.
  - intros c Hc. apply Hnot. intros Hcb. apply (Hdisj c Hcb). apply elem_of_cons. by right.
  - unfold prepareRowUpdate, prepareModifyRowUpdate.
    rewrite Hmod, Hsel; simpl. rewrite Hgate, Hkv; simpl.
    rewrite Hrow, Hprev; simpl. rewrite Hprow; simpl.
    rewrite bool_decide_eq_false_2 by (intros Hne; by apply Hne).
    rewrite Hcmp; simpl. rewrite size_pos_nonempty.
    destruct (decide (deltaRow = ∅)); case_bool_decide; try done.
    by destruct (isV1 u).
Qed.

(** *** The delta of a map column *)

(** The first loop of [compareMaps], in whatever order the entries of
    the new map are visited. *)
Lemma compareMaps_new_lookup (newEntries : list (Atom * Atom))
    (prevMap deltaMap : gmap Atom Atom) (k : Atom) :
  NoDup newEntries.*1 ->
  compareMaps_new newEntries prevMap deltaMap !! k
  = match (list_to_map newEntries : gmap Atom Atom) !! k with
    | Some v => if decide (prevMap !! k = Some v) then deltaMap !! k else Some v
    | None => deltaMap !! k
    end.
Proof.
  revert deltaMap. induction newEntries as [| [k0 v0] entries IH]; intros deltaMap Hnodup.
  - done.
  - apply NoDup_cons in Hnodup as [Hk0 Hnodup]. simpl.
    unfold compareMaps_new in IH |- *. simpl. rewrite (IH _ Hnodup).
    destruct (decide (k = k0)) as [-> | Hne].
    + rewrite lookup_insert_eq.
      rewrite (proj1 (not_elem_of_list_to_map _ _) Hk0).
      destruct (prevMap !! k0) as [pv |] eqn:E.
      * case_bool_decide as Hv; simpl.
        -- subst pv. by rewrite decide_True.
        -- rewrite lookup_insert_eq. rewrite decide_False; [done | congruence].
      * rewrite lookup_insert_eq. by rewrite decide_False.
    + rewrite (lookup_insert_ne (list_to_map entries)) by done.
      assert ((match prevMap !! k0 with
               | Some pv => if negb (bool_decide (v0 = pv)) then <[k0:=v0]> deltaMap
                            else deltaMap
               | None => <[k0:=v0]> deltaMap
               end) !! k = deltaMap !! k) as ->; [| done].
      destruct (prevMap !! k0); [case_bool_decide; simpl |];
        by rewrite ?lookup_insert_ne.
Qed.

(** The second loop of [compareMaps], in whatever order the entries of
    the previous map are visited. *)
Lemma compareMaps_prev_lookup (prevEntries : list (Atom * Atom))
    (newMap deltaMap : gmap Atom Atom) (k : Atom) :
  NoDup prevEntries.*1 ->
  compareMaps_prev prevEntries newMap deltaMap !! k
  = match deltaMap !! k with
    | Some d => Some d
    | None =>
        match (list_to_map prevEntries : gmap Atom Atom) !! k with
        | Some pv => match newMap !! k with None => Some pv | Some _ => None end
        | None => None
        end
    end.
Proof.
  revert deltaMap. induction prevEntries as [| [k0 v0] entries IH]; intros deltaMap Hnodup.
  - simpl. by destruct (deltaMap !! k).
  - apply NoDup_cons in Hnodup as [Hk0 Hnodup]. simpl.
    unfold compareMaps_prev in IH |- *. simpl. rewrite (IH _ Hnodup).
    destruct (decide (k = k0)) as [-> | Hne].
    + rewrite lookup_insert_eq.
      rewrite (proj1 (not_elem_of_list_to_map _ _) Hk0).
      destruct (deltaMap !! k0) as [d |] eqn:E; [by rewrite E |].
      destruct (newMap !! k0); [by rewrite E |]. by rewrite lookup_insert_eq.
    + rewrite (lookup_insert_ne (list_to_map entries)) by done.
      assert ((match deltaMap !! k0 with
               | Some _ => deltaMap
               | None => match newMap !! k0 with
                         | Some _ => deltaMap
                         | None => <[k0:=v0]> deltaMap
                         end
               end) !! k = deltaMap !! k) as ->; [| done].
      destruct (deltaMap !! k0); [done |].
      destruct (newMap !! k0); [done |]. by rewrite lookup_insert_ne.
Qed.

(** What the two loops leave under a key. *)
Lemma compareMaps_loops_lookup (newMap prevMap : OvsMap) (k : Atom) :
  GoMap (compareMaps_loops newMap prevMap) !! k
  = match GoMap newMap !! k with
    | Some v => if decide (GoMap prevMap !! k = Some v) then None else Some v
    | None => GoMap prevMap !! k
    end.
Proof.
  unfold compareMaps_loops; simpl.
  rewrite compareMaps_prev_lookup by apply NoDup_fst_map_to_list.
  rewrite compareMaps_new_lookup by apply NoDup_fst_map_to_list.
  rewrite !list_to_map_to_list, lookup_empty.
  destruct (GoMap newMap !! k) as [v |] eqn:Enew.
  - destruct (decide (GoMap prevMap !! k = Some v)) as [Eprev |]; [| done].
    by rewrite Eprev.
  - by destruct (GoMap prevMap !! k).
Qed.

(** The delta does not depend on the order in which [range] visits the
    two maps. *)
Lemma compareMaps_loops_any_order (newMap prevMap : OvsMap)
    (newEntries prevEntries : list (Atom * Atom)) :
  newEntries ≡ₚ map_to_list (GoMap newMap) ->
  prevEntries ≡ₚ map_to_list (GoMap prevMap) ->
  compareMaps_prev prevEntries (GoMap newMap)
    (compareMaps_new newEntries (GoMap prevMap) ∅)
  = GoMap (compareMaps_loops newMap prevMap).
Proof.
  intros Hnew Hprev. apply map_eq. intros k.
  assert (NoDup newEntries.*1) as Hn by (rewrite Hnew; apply NoDup_fst_map_to_list).
  assert (NoDup prevEntries.*1) as Hp by (rewrite Hprev; apply NoDup_fst_map_to_list).
  unfold compareMaps_loops; simpl.
  rewrite !compareMaps_prev_lookup, !compareMaps_new_lookup
    by (done || apply NoDup_fst_map_to_list).
  rewrite (list_to_map_proper _ _ Hn Hnew), (list_to_map_proper _ _ Hp Hprev).
  done.
Qed.

(** C3. For a map column whose two values unmarshal, the delta holds
    every key of the new map whose value is new or changed, with the new
    value; every key of the previous map that the new map lacks, with
    the previous value; and no other key: not a key with equal values on
    both sides.  For previous [{a:1, b:2}] and new [{a:1, b:3, c:4}] the
    delta is [{b:3, c:4}]. *)
Theorem compareMaps_delta (u : updater) (data prevData : Value)
    (columnSchema : ColumnSchema.t) (newMap prevMap : OvsMap) :
  UnmarshalMap columnSchema data = Some newMap ->
  UnmarshalMap columnSchema prevData = Some prevMap ->
  exists deltaMap : OvsMap,
    compareMaps UnmarshalMap u data prevData columnSchema = Ok deltaMap /\
    (forall k v, GoMap newMap !! k = Some v -> GoMap prevMap !! k <> Some v ->
                 GoMap deltaMap !! k = Some v) /\
    (forall k pv, GoMap prevMap !! k = Some pv -> GoMap newMap !! k = None ->
                  GoMap deltaMap !! k = Some pv) /\
    (forall k v, GoMap newMap !! k = Some v -> GoMap prevMap !! k = Some v ->
                 GoMap deltaMap !! k = None) /\
    (forall k, GoMap newMap !! k = None -> GoMap prevMap !! k = None ->
               GoMap deltaMap !! k = None) /\
    (GoMap prevMap = {[AString "a" := AInteger 1; AString "b" := AInteger 2]} ->
     GoMap newMap = {[AString "a" := AInteger 1; AString "b" := AInteger 3;
                      AString "c" := AInteger 4]} ->
     GoMap deltaMap = {[AString "b" := AInteger 3; AString "c" := AInteger 4]}).
Proof.
  intros Hnew Hprev. exists (compareMaps_loops newMap prevMap).
  split; [unfold compareMaps; by rewrite Hnew, Hprev |].
  repeat split.
  - intros k v Hk Hne. rewrite compareMaps_loops_lookup, Hk. by rewrite decide_False.
  - intros k pv Hk Hnone. by rewrite compareMaps_loops_lookup, Hnone.
  - intros k v Hk Hpk. rewrite compareMaps_loops_lookup, Hk. by rewrite decide_True.
  - intros k Hk Hpk. by rewrite compareMaps_loops_lookup, Hk.
  - intros Hp Hn. apply map_eq. intros k.
    rewrite compareMaps_loops_lookup, Hp, Hn.
    destruct (decide (k = AString "a")) as [-> | Ha]; [done |].
    destruct (decide (k = AString "b")) as [-> | Hb]; [done |].
    destruct (decide (k = AString "c")) as [-> | Hc]; [done |].
    by rewrite ?lookup_insert_ne, ?lookup_singleton_ne by done.
Qed.

End UpdaterProps.

(** *** Scenarios on the updater *)

Lemma rangeForward_entries (m : Row) : rangeForward m ≡ₚ map_to_list m.
Proof. reflexivity. Qed.

Lemma rangeBackward_entries (m : Row) : rangeBackward m ≡ₚ map_to_list m.
Proof. apply reverse_Permutation. Qed.

(** C9 on an event whose pre-image has UUID [U1] and whose post-image
    has UUID [U2]. *)
Lemma modify_uuid_changed_witness :
  prepareRowUpdate wireMap wireSet rangeForward (updaterOn [] false)
    (putEvent 1 2 (Some (<["_uuid" := U2]> data2)) (Some (Some data1)))
  = Err (ErrUUIDChanged "U1" "U2").
Proof.
  eapply modify_uuid_changed.
  - reflexivity.
  - reflexivity.
  - reflexivity.
  - reflexivity.
  - reflexivity.
  - vm_compute. reflexivity.
  - vm_compute. reflexivity.
  - discriminate.
Defined.

(** C2 on the test cases "ZeroColumn": a projection on a column that the
    row lacks. *)
Lemma create_delete_row_update_witness :
  prepareRowUpdate wireMap wireSet rangeForward (updaterOn ["c3"] false)
    (putEvent 1 1 (Some data1) None) = Ok (None, "") /\
  prepareRowUpdate wireMap wireSet rangeForward (updaterOn ["c3"] false)
    (deleteEvent (Some data1))
  = Ok (Some (RowUpdate.mk None None None None true None), "U1") /\
  prepareRowUpdate wireMap wireSet rangeForward (updaterOn ["c3"] true)
    (deleteEvent (Some data1)) = Ok (None, "U1") /\
  prepareRowUpdate wireMap wireSet rangeForward (updaterOn ["c2"] true)
    (deleteEvent (Some data1))
  = Ok (Some (RowUpdate.mk None (Some {["c2" := VString "v2"]}) None None false None),
        "U1").
Proof.
  split; [| split; [| split]].
  - eapply (proj1 (create_delete_row_update wireMap wireSet rangeForward
                     (updaterOn ["c3"] false) _ MonitorSelect.empty eq_refl)).
    + reflexivity.
    + reflexivity.
    + reflexivity.
    + vm_compute. reflexivity.
    + reflexivity.
  - etrans.
    + eapply (proj2 (create_delete_row_update wireMap wireSet rangeForward
                       (updaterOn ["c3"] false) _ MonitorSelect.empty eq_refl)
                _ ∅ "U1").
      * reflexivity.
      * reflexivity.
      * reflexivity.
      * vm_compute. reflexivity.
    + vm_compute. reflexivity.
  - etrans.
    + eapply (proj2 (create_delete_row_update wireMap wireSet rangeForward
                       (updaterOn ["c3"] true) _ MonitorSelect.empty eq_refl)
                _ ∅ "U1").
      * reflexivity.
      * reflexivity.
      * reflexivity.
      * vm_compute. reflexivity.
    + vm_compute. reflexivity.
  - etrans.
    + eapply (proj2 (create_delete_row_update wireMap wireSet rangeForward
                       (updaterOn ["c2"] true) _ MonitorSelect.empty eq_refl)
                _ {["c2" := VString "v2"]} "U1").
      * reflexivity.
      * reflexivity.
      * reflexivity.
      * vm_compute. reflexivity.
    + vm_compute. reflexivity.
Defined.

(** C2 as stated fails on a Delete event whose pre-image has no [_uuid]
    field (or does not decode at all): the gate is open, and the v2
    updater returns the error of the row codec instead of
    [{Delete: true}]. *)
Lemma delete_unconditional_counterexample :
  let u := updaterOn [] false in
  isV1 u = false /\
  (MSIsTrue ∘ MonitorSelect.Delete) <$> MonitorCondRequest.Select (mcr u) = Some true /\
  Event.Type_ (deleteEvent (Some {["c1" := VString "v1"]})) = Event.DELETE /\
  prepareRowUpdate wireMap wireSet rangeForward u
    (deleteEvent (Some {["c1" := VString "v1"]})) = Err ErrNoUUID /\
  prepareRowUpdate wireMap wireSet rangeForward u (deleteEvent None) = Err ErrUnmarshal.
Proof. repeat split. Qed.

(** C8 on a v1 updater whose projection lists [_uuid], for a Modify
    event and for the initial snapshot. *)
Lemma uuid_not_in_row_update_witness :
  noUUIDColumn
    (RowUpdate.mk (Some {["c2" := VString "v3"]}) (Some {["c2" := VString "v2"]})
       None None false None) /\
  noUUIDColumn (RowUpdate.mk (Some {["c2" := VString "v2"]}) None None None false None).
Proof.
  split.
  - eapply (proj1 (uuid_not_in_row_update wireMap wireSet rangeForward
                     rangeForward_entries (updaterOn ["_uuid"; "c2"] true)
                     (putEvent 1 2 (Some data2) (Some (Some data1))) None _ "U1")).
    vm_compute. reflexivity.
  - eapply (proj2 (uuid_not_in_row_update wireMap wireSet rangeForward
                     rangeForward_entries (updaterOn ["_uuid"; "c2"] true)
                     (deleteEvent None) (Some (Some data1)) _ "U1")).
    vm_compute. reflexivity.
Defined.

(** C1 on the second and the sixth scenario of the specification: v1,
    projection on [c2], [c2] goes from ["v2"] to ["v3"]; and v1, the set
    column [s] goes from [1, 2, 3] to [2, 3, 4]. *)
Lemma modify_row_update_witness :
  let post : Row :=
    {[ "_uuid" := U1;
       "s" := VArray [VString "set"; VArray [VNumber 2; VNumber 3; VNumber 4]] ]} in
  let pre : Row :=
    {[ "_uuid" := U1;
       "s" := VArray [VString "set"; VArray [VNumber 1; VNumber 2; VNumber 3]] ]} in
  prepareRowUpdate wireMap wireSet rangeForward (updaterOn ["c2"] true)
    (putEvent 1 2 (Some data2) (Some (Some data1)))
  = Ok (Some (RowUpdate.mk (Some {["c2" := VString "v3"]})
                (Some {["c2" := VString "v2"]}) None None false None), "U1") /\
  prepareRowUpdate wireMap wireSet rangeForward (updaterOn [] true)
    (putEvent 1 2 (Some post) (Some (Some pre)))
  = Ok (Some (RowUpdate.mk
                (Some {["s" := VArray [VString "set";
                                       VArray [VNumber 2; VNumber 3; VNumber 4]]]})
                (Some {["s" := VOvsSet (mkOvsSet [AInteger 4; AInteger 1])]})
                None None false None), "U1").
Proof.
  intros post pre. split.
  - edestruct (modify_row_update wireMap wireSet rangeForward rangeForward_entries
                 (updaterOn ["c2"] true) (putEvent 1 2 (Some data2) (Some (Some data1)))
                 MonitorSelect.empty (kvOf 1 2 (Some data2)) (kvOf 1 1 (Some data1))
                 {["c2" := VString "v3"]}
                 {["c2" := VString "v2"]} "U1")
      as (deltaRow & _ & Honly & _ & Hscalar & _ & Hres).
    + reflexivity.
    + reflexivity.
    + reflexivity.
    + reflexivity.
    + reflexivity.
    + vm_compute. reflexivity.
    + vm_compute. reflexivity.
    + intros c v [<- <-]%lookup_singleton_Some _. eexists.
      split; vm_compute; reflexivity.
    + assert (deltaRow = {["c2" := VString "v2"]}) as ->.
      { apply map_eq. intros c. destruct (decide (c = "c2")) as [-> | Hne].
        - rewrite (Hscalar "c2" (VString "v3") (ColumnSchema.mk TypeString));
            try done; vm_compute; congruence.
        - rewrite lookup_singleton_ne by done.
          destruct (deltaRow !! c) as [d |] eqn:E; [| done].
          destruct (Honly c (mk_is_Some _ _ E)) as (v & [? ?]%lookup_singleton_Some & _).
          congruence. }
      rewrite Hres. vm_compute. reflexivity.
  - edestruct (modify_row_update wireMap wireSet rangeForward rangeForward_entries
                 (updaterOn [] true) (putEvent 1 2 (Some post) (Some (Some pre)))
                 MonitorSelect.empty (kvOf 1 2 (Some post)) (kvOf 1 1 (Some pre))
                 {["s" := VArray [VString "set";
                                  VArray [VNumber 2; VNumber 3; VNumber 4]]]}
                 {["s" := VArray [VString "set";
                                  VArray [VNumber 1; VNumber 2; VNumber 3]]]} "U1")
      as (deltaRow & Hchanged & Honly & _ & _ & _ & Hres).
    + reflexivity.
    + reflexivity.
    + reflexivity.
    + reflexivity.
    + reflexivity.
    + vm_compute. reflexivity.
    + vm_compute. reflexivity.
    + intros c v [<- <-]%lookup_singleton_Some _. eexists.
      split; vm_compute; reflexivity.
    + assert (deltaRow = {["s" := VOvsSet (mkOvsSet [AInteger 4; AInteger 1])]}) as ->.
      { apply map_eq. intros c. destruct (decide (c = "s")) as [-> | Hne].
        - destruct (Hchanged "s"
                      (VArray [VString "set"; VArray [VNumber 2; VNumber 3; VNumber 4]]))
            as (d & Hd & ->); [vm_compute; reflexivity | vm_compute; congruence |].
          vm_compute in Hd. injection Hd as <-. by rewrite lookup_singleton_eq.
        - rewrite lookup_singleton_ne by done.
          destruct (deltaRow !! c) as [d |] eqn:E; [| done].
          destruct (Honly c (mk_is_Some _ _ E)) as (v & [? ?]%lookup_singleton_Some & _).
          congruence. }
      rewrite Hres. vm_compute. reflexivity.
Defined.

(** C1 as stated fails on a column that the pre-image has and the
    post-image lacks, and on a changed column that is not in the schema:
    the gate is open, both images decode with UUID [U1], a projected
    column differs, and nothing is emitted.  It fails as well on a set
    column whose elements are the same in another order: every column
    is equal, and a row update with an empty delta for the column is
    emitted. *)
Lemma modify_row_update_counterexample :
  let u := updaterOn [] false in
  let post : Row := {[ "_uuid" := U1; "c1" := VString "v1" ]} in
  let post' : Row := {[ "_uuid" := U1; "x" := VNumber 1 ]} in
  let pre' : Row := {[ "_uuid" := U1; "x" := VNumber 0 ]} in
  let s12 := VArray [VString "set"; VArray [VNumber 1; VNumber 2]] in
  let s21 := VArray [VString "set"; VArray [VNumber 2; VNumber 1]] in
  (MSIsTrue ∘ MonitorSelect.Modify) <$> MonitorCondRequest.Select (mcr u) = Some true /\
  (Event.IsModify (putEvent 1 2 (Some post) (Some (Some data1))) = Ok true /\
   prepareRow u (Some post) = Ok ({["c1" := VString "v1"]}, "U1") /\
   prepareRow u (Some data1)
   = Ok ({["c1" := VString "v1"; "c2" := VString "v2"]}, "U1") /\
   ({["c1" := VString "v1"]} : Row) !! "c2"
   <> ({["c1" := VString "v1"; "c2" := VString "v2"]} : Row) !! "c2" /\
   prepareRowUpdate wireMap wireSet rangeForward u
     (putEvent 1 2 (Some post) (Some (Some data1))) = Ok (None, "")) /\
  (Event.IsModify (putEvent 1 2 (Some post') (Some (Some pre'))) = Ok true /\
   prepareRow u (Some post') = Ok ({["x" := VNumber 1]}, "U1") /\
   prepareRow u (Some pre') = Ok ({["x" := VNumber 0]}, "U1") /\
   ({["x" := VNumber 1]} : Row) !! "x" <> ({["x" := VNumber 0]} : Row) !! "x" /\
   prepareRowUpdate wireMap wireSet rangeForward u
     (putEvent 1 2 (Some post') (Some (Some pre'))) = Ok (None, "")) /\
  (TableSchema.Columns (tableSchema u) !! "s" = Some (ColumnSchema.mk TypeSet) /\
   wireSet (ColumnSchema.mk TypeSet) s12 = Some (mkOvsSet [AInteger 1; AInteger 2]) /\
   wireSet (ColumnSchema.mk TypeSet) s21 = Some (mkOvsSet [AInteger 2; AInteger 1]) /\
   prepareRowUpdate wireMap wireSet rangeForward u
     (putEvent 1 2 (Some {[ "_uuid" := U1; "s" := s12 ]})
        (Some (Some {[ "_uuid" := U1; "s" := s21 ]})))
   = Ok (Some (RowUpdate.mk None None None None false
                 (Some {[ "s" := VOvsSet (mkOvsSet []) ]})), "U1")).
Proof. repeat split; vm_compute; (reflexivity || discriminate). Qed.

(** C4 on a row with the known column [c1] and the unknown column [x],
    both changed.  When [range] visits [c1] first, the delta holds [c1]
    only, and it is emitted; when it visits [x] first, the delta is
    empty and nothing is emitted. *)
Lemma schema_lookup_error_stops_diff_witness :
  let post : Row := {[ "_uuid" := U1; "c1" := VString "w1"; "x" := VNumber 1 ]} in
  let pre : Row := {[ "_uuid" := U1; "c1" := VString "v1"; "x" := VNumber 0 ]} in
  prepareRowUpdate wireMap wireSet rangeForward (updaterOn [] false)
    (putEvent 1 2 (Some post) (Some (Some pre)))
  = Ok (Some (RowUpdate.mk None None None None false (Some {["c1" := VString "w1"]})),
        "U1") /\
  prepareRowUpdate wireMap wireSet rangeBackward (updaterOn [] false)
    (putEvent 1 2 (Some post) (Some (Some pre)))
  = Ok (None, "").
Proof.
  intros post pre. split.
  - edestruct (schema_lookup_error_stops_diff wireMap wireSet rangeForward
                 rangeForward_entries (updaterOn [] false)
                 (putEvent 1 2 (Some post) (Some (Some pre)))
                 MonitorSelect.empty (kvOf 1 2 (Some post)) (kvOf 1 1 (Some pre))
                 {[ "c1" := VString "w1"; "x" := VNumber 1 ]}
                 {[ "c1" := VString "v1"; "x" := VNumber 0 ]} "U1"
                 [("c1", VString "w1")] [] "x" (VNumber 1))
      as (deltaRow & _ & Hbefore & Honly & _ & _ & Hres).
    + reflexivity.
    + reflexivity.
    + reflexivity.
    + reflexivity.
    + reflexivity.
    + vm_compute. reflexivity.
    + vm_compute. reflexivity.
    + vm_compute. reflexivity.
    + vm_compute. congruence.
    + vm_compute. reflexivity.
    + intros c v [= -> ->]%list_elem_of_singleton _. eexists. vm_compute. reflexivity.
    + assert (deltaRow = {["c1" := VString "w1"]}) as ->.
      { apply map_eq. intros c. destruct (decide (c = "c1")) as [-> | Hne].
        - destruct (Hbefore "c1" (VString "w1")) as (d & Hd & ->).
          + by apply list_elem_of_singleton.
          + vm_compute. congruence.
          + vm_compute in Hd. injection Hd as <-. by rewrite lookup_singleton_eq.
        - rewrite lookup_singleton_ne by done.
          destruct (deltaRow !! c) as [d |] eqn:E; [| done].
          destruct (Honly c (mk_is_Some _ _ E)) as [Hc%list_elem_of_singleton _].
          done. }
      rewrite Hres. vm_compute. reflexivity.
  - edestruct (schema_lookup_error_stops_diff wireMap wireSet rangeBackward
                 rangeBackward_entries (updaterOn [] false)
                 (putEvent 1 2 (Some post) (Some (Some pre)))
                 MonitorSelect.empty (kvOf 1 2 (Some post)) (kvOf 1 1 (Some pre))
                 {[ "c1" := VString "w1"; "x" := VNumber 1 ]}
                 {[ "c1" := VString "v1"; "x" := VNumber 0 ]} "U1"
                 [] [("c1", VString "w1")] "x" (VNumber 1))
      as (deltaRow & _ & _ & Honly & _ & _ & Hres).
    + reflexivity.
    + reflexivity.
    + reflexivity.
    + reflexivity.
    + reflexivity.
    + vm_compute. reflexivity.
    + vm_compute. reflexivity.
    + vm_compute. reflexivity.
    + vm_compute. congruence.
    + vm_compute. reflexivity.
    + intros c v Hin. by apply not_elem_of_nil in Hin.
    + assert (deltaRow = ∅) as ->.
      { apply map_eq. intros c. rewrite lookup_empty.
        destruct (deltaRow !! c) as [d |] eqn:E; [| done].
        destruct (Honly c (mk_is_Some _ _ E)) as [Hc _].
        by apply not_elem_of_nil in Hc. }
      rewrite Hres. vm_compute. reflexivity.
Defined.

(** C3 on the fifth scenario of the specification, in wire notation. *)
Lemma compareMaps_delta_witness :
  compareMaps wireMap (updaterOn [] false)
    (VArray [VString "map";
             VArray [VArray [VString "a"; VNumber 1]; VArray [VString "b"; VNumber 3];
                     VArray [VString "c"; VNumber 4]]])
    (VArray [VString "map";
             VArray [VArray [VString "a"; VNumber 1]; VArray [VString "b"; VNumber 2]]])
    (ColumnSchema.mk TypeMap)
  = Ok (mkOvsMap {[AString "b" := AInteger 3; AString "c" := AInteger 4]}).
Proof.
  edestruct (compareMaps_delta wireMap (updaterOn [] false)
               (VArray [VString "map";
                        VArray [VArray [VString "a"; VNumber 1];
                                VArray [VString "b"; VNumber 3];
                                VArray [VString "c"; VNumber 4]]])
               (VArray [VString "map";
                        VArray [VArray [VString "a"; VNumber 1];
                                VArray [VString "b"; VNumber 2]]])
               (ColumnSchema.mk TypeMap)
               (mkOvsMap {[AString "a" := AInteger 1; AString "b" := AInteger 3;
                           AString "c" := AInteger 4]})
               (mkOvsMap {[AString "a" := AInteger 1; AString "b" := AInteger 2]}))
    as ([deltaMap] & Hcmp & _ & _ & _ & _ & Hexample).
  - vm_compute. reflexivity.
  - vm_compute. reflexivity.
  - rewrite Hcmp. simpl in Hexample. by rewrite Hexample.
Defined.

(** ** Monitor registry *)

Lemma filter_all {A} (P : A -> Prop) `{forall x, Decision (P x)} (l : list A) :
  (forall x, x ∈ l -> P x) -> filter P l = l.
Proof.
  induction l as [| x l IH]; intros Hl; [done |].
  rewrite filter_cons_True by (apply Hl, elem_of_cons; by left).
  rewrite IH; [done |]. intros y Hy. apply Hl, elem_of_cons. by right.
Qed.

Lemma filter_none {A} (P : A -> Prop) `{forall x, Decision (P x)} (l : list A) :
  (forall x, x ∈ l -> ~ P x) -> filter P l = [].
Proof.
  induction l as [| x l IH]; intros Hl; [done |].
  rewrite filter_cons_False by (apply Hl, elem_of_cons; by left).
  apply IH. intros y Hy. apply Hl, elem_of_cons. by right.
Qed.

Lemma keep_idemp (jsonValue : string) (o : option (list updater)) :
  (o ≫= keep jsonValue) ≫= keep jsonValue = o ≫= keep jsonValue.
Proof.
  destruct o as [l |]; [| done]. simpl. unfold keep at 2 3.
  destruct (decide _) as [| Hne]; [done |]. simpl. unfold keep.
  rewrite list_filter_filter.
  assert (filter (fun u => jasonValueStr u ≠ jsonValue ∧ jasonValueStr u ≠ jsonValue) l
          = filter (fun u => jasonValueStr u ≠ jsonValue) l) as ->.
  { apply list_filter_iff. tauto. }
  by rewrite decide_False.
Qed.

Lemma keep_not_empty (jsonValue : string) (o : option (list updater)) :
  o ≫= keep jsonValue ≠ Some [].
Proof.
  destruct o as [l |]; [| done]. simpl. unfold keep.
  destruct (decide _); congruence.
Qed.

Section MonitorProps.
Context {Key : Type} `{Countable Key}.

Implicit Types (k : gmap Key (list updater)) (m : @dbMonitor Key _ _).

Lemma removeUpdaters_loop (jsonValue : string) (updaters newUpdaters : list updater) :
  foldl (fun (newUpdaters : list updater) u =>
           if bool_decide (jasonValueStr u ≠ jsonValue)
           then (newUpdaters ++ [u])%list else newUpdaters) newUpdaters updaters
  = (newUpdaters ++ filter (fun u => jasonValueStr u ≠ jsonValue) updaters)%list.
Proof.
  revert newUpdaters. induction updaters as [| u updaters IH]; intros newUpdaters; simpl.
  - by rewrite app_nil_r.
  - rewrite IH. case_bool_decide.
    + rewrite filter_cons_True by done. by rewrite <- app_assoc.
    + by rewrite filter_cons_False by tauto.
Qed.

Lemma Key2Updaters_removeUpdaters_lookup k (key key' : Key) (jsonValue : string) :
  Key2Updaters_removeUpdaters k key jsonValue !! key'
  = if decide (key' = key) then k !! key ≫= keep jsonValue else k !! key'.
Proof.
  unfold Key2Updaters_removeUpdaters.
  destruct (k !! key) as [updaters |] eqn:E; simpl.
  - rewrite removeUpdaters_loop. simpl. unfold keep.
    destruct (decide (filter _ updaters = [])) as [-> | Hne].
    + simpl. destruct (decide (key' = key)) as [-> | Hkey].
      * by rewrite lookup_delete_eq.
      * by rewrite lookup_delete_ne.
    + rewrite bool_decide_eq_true_2 by (by destruct (filter _ updaters)).
      destruct (decide (key' = key)) as [-> | Hkey].
      * by rewrite lookup_insert_eq.
      * by rewrite lookup_insert_ne.
  - destruct (decide (key' = key)) as [-> | Hkey]; done.
Qed.

(** [removeUpdaters] filters the slots of the listed keys and leaves the
    others as they are. *)
Lemma removeUpdaters_lookup m (keys : list Key) (jsonValue : string) (key : Key) :
  key2Updaters (removeUpdaters m keys jsonValue) !! key
  = if decide (key ∈ keys) then key2Updaters m !! key ≫= keep jsonValue
    else key2Updaters m !! key.
Proof.
  unfold removeUpdaters; simpl. generalize (key2Updaters m) as k.
  induction keys as [| key0 keys IH]; intros k.
  - done.
  - simpl. rewrite IH, !Key2Updaters_removeUpdaters_lookup.
    destruct (decide (key = key0)) as [-> | Hne].
    + rewrite (decide_True (P := key0 ∈ key0 :: keys)) by (apply elem_of_cons; by left).
      destruct (decide (key0 ∈ keys)); [apply keep_idemp | done].
    + destruct (decide (key ∈ keys)), (decide (key ∈ key0 :: keys)) as [Hin | Hin];
        try done; rewrite elem_of_cons in Hin; tauto.
Qed.

Lemma addUpdaters_append k (key : Key) (updaters l : list updater) :
  k !! key = Some l ->
  foldl (fun k uNew =>
           let _ := addUpdaters_scan uNew (slot k key) in
           <[key := (slot k key ++ [uNew])%list]> k) k updaters
  = <[key := (l ++ updaters)%list]> k.
Proof.
  revert k l. induction updaters as [| u updaters IH]; intros k l Hk; simpl.
  - rewrite app_nil_r. by rewrite insert_id.
  - erewrite IH; [| apply lookup_insert_eq].
    unfold slot. rewrite Hk; simpl.
    by rewrite insert_insert_eq, <- app_assoc.
Qed.

Lemma addUpdaters_entry_lookup k (key key' : Key) (updaters : list updater) :
  addUpdaters_entry k key updaters !! key'
  = if decide (key' = key) then Some (slot k key ++ updaters)%list else k !! key'.
Proof.
  unfold addUpdaters_entry.
  destruct (k !! key) as [l |] eqn:E.
  - rewrite (addUpdaters_append _ _ _ l E). unfold slot. rewrite E; simpl.
    destruct (decide (key' = key)) as [-> | Hne];
      [by rewrite lookup_insert_eq | by rewrite lookup_insert_ne].
  - rewrite (addUpdaters_append _ _ _ []) by apply lookup_insert_eq.
    rewrite insert_insert_eq. unfold slot. rewrite E; simpl.
    destruct (decide (key' = key)) as [-> | Hne];
      [by rewrite lookup_insert_eq | by rewrite lookup_insert_ne].
Qed.

(** The outer loop of [addUpdaters], in whatever order the entries of
    the incoming map are visited. *)
Lemma addUpdaters_range_lookup k (entries : list (Key * list updater)) (key : Key) :
  NoDup entries.*1 ->
  addUpdaters_range k entries !! key
  = match (list_to_map entries : gmap Key (list updater)) !! key with
    | Some updaters => Some (slot k key ++ updaters)%list
    | None => k !! key
    end.
Proof.
  revert k. induction entries as [| [key0 updaters] entries IH]; intros k Hnodup.
  - done.
  - apply NoDup_cons in Hnodup as [Hkey0 Hnodup].
    unfold addUpdaters_range in IH |- *. simpl. rewrite (IH _ Hnodup).
    unfold slot. rewrite !addUpdaters_entry_lookup.
    destruct (decide (key = key0)) as [-> | Hne].
    + rewrite lookup_insert_eq.
      by rewrite (proj1 (not_elem_of_list_to_map _ _) Hkey0).
    + by rewrite (lookup_insert_ne (list_to_map entries)).
Qed.

(** [addUpdaters] appends the incoming updaters of a key to its slot. *)
Lemma addUpdaters_lookup m (keyToUpdaters : gmap Key (list updater)) (key : Key) :
  key2Updaters (addUpdaters m keyToUpdaters) !! key
  = match keyToUpdaters !! key with
    | Some updaters => Some (slot (key2Updaters m) key ++ updaters)%list
    | None => key2Updaters m !! key
    end.
Proof.
  unfold addUpdaters; simpl.
  rewrite addUpdaters_range_lookup by apply NoDup_fst_map_to_list.
  by rewrite list_to_map_to_list.
Qed.

(** The order in which [range] visits the incoming map does not matter. *)
Lemma addUpdaters_any_order k (keyToUpdaters : gmap Key (list updater))
    (entries : list (Key * list updater)) :
  entries ≡ₚ map_to_list keyToUpdaters ->
  addUpdaters_range k entries = addUpdaters_range k (map_to_list keyToUpdaters).
Proof.
  intros Hperm. apply map_eq. intros key.
  assert (NoDup entries.*1) as Hnodup by (rewrite Hperm; apply NoDup_fst_map_to_list).
  rewrite !addUpdaters_range_lookup by (done || apply NoDup_fst_map_to_list).
  by rewrite (list_to_map_proper _ _ Hnodup Hperm).
Qed.

Lemma dbMonitor_eq m m' :
  (forall key, key2Updaters m !! key = key2Updaters m' !! key) ->
  revChecker m = revChecker m' -> m = m'.
Proof.
  destruct m, m'; simpl. intros Hk ->. f_equal. by apply map_eq.
Qed.

(** C5 on the code.  [addUpdaters] appends every incoming updater to
    its slot, also one that is deep-equal to an updater of the slot: the
    slot then holds the updater twice. *)
Theorem addUpdaters_appends_duplicate m (keyToUpdaters : gmap Key (list updater))
    (key : Key) (updaters : list updater) (u : updater) :
  keyToUpdaters !! key = Some updaters ->
  u ∈ slot (key2Updaters m) key ->
  u ∈ updaters ->
  key2Updaters (addUpdaters m keyToUpdaters) !! key
  = Some (slot (key2Updaters m) key ++ updaters)%list /\
  ~ NoDup (slot (key2Updaters (addUpdaters m keyToUpdaters)) key).
Proof.
  intros Hkey Hslot Hin.
  assert (key2Updaters (addUpdaters m keyToUpdaters) !! key
          = Some (slot (key2Updaters m) key ++ updaters)%list) as Hadd
    by (by rewrite addUpdaters_lookup, Hkey).
  split; [done |].
  unfold slot at 1. rewrite Hadd; simpl.
  intros (_ & Hdisj & _)%NoDup_app. by apply (Hdisj u).
Qed.

(** C6, as amended.  If every updater of [U] carries the key [jvk], and
    the slots of the registry under the keys of [U] are not empty and
    hold no updater that carries [jvk], then adding [U] and removing
    [jvk] under the keys of [U] gives the registry back. *)
Theorem add_remove_updaters m (keyToUpdaters : gmap Key (list updater))
    (keys : list Key) (jsonValue : string) :
  (forall key, key ∈ keys <-> is_Some (keyToUpdaters !! key)) ->
  (forall key updaters u,
      keyToUpdaters !! key = Some updaters -> u ∈ updaters ->
      jasonValueStr u = jsonValue) ->
  (forall key l,
      is_Some (keyToUpdaters !! key) -> key2Updaters m !! key = Some l ->
      l <> [] /\ forall u, u ∈ l -> jasonValueStr u <> jsonValue) ->
  removeUpdaters (addUpdaters m keyToUpdaters) keys jsonValue = m.
Proof.
  intros Hkeys Hjvk Hfresh. apply dbMonitor_eq; [| done]. intros key.
  rewrite removeUpdaters_lookup, addUpdaters_lookup.
  destruct (decide (key ∈ keys)) as [Hin | Hin].
  - apply Hkeys in Hin as Hsome. destruct Hsome as [updaters Hu]. rewrite Hu; simpl.
    unfold keep. rewrite filter_app.
    assert (filter (fun u => jasonValueStr u ≠ jsonValue) updaters = []) as ->.
    { apply filter_none. intros u Hin' Hne. apply Hne. by eapply Hjvk. }
    rewrite app_nil_r. unfold slot.
    destruct (key2Updaters m !! key) as [l |] eqn:E; simpl; [| done].
    destruct (Hfresh key l (mk_is_Some _ _ Hu) E) as [Hne Hl].
    assert (filter (fun u => jasonValueStr u ≠ jsonValue) l = l) as ->.
    { apply filter_all. intros u Hin'. by apply Hl. }
    by rewrite decide_False.
  - destruct (keyToUpdaters !! key) eqn:E; [| done].
    destruct Hin. apply Hkeys. eauto.
Qed.

(** C10, as amended.  [removeUpdaters] is idempotent; after the call no
    key of the key list maps to an empty list (an emptied slot is
    deleted), a key that is not in the registry is still not in it, the
    slots of the other keys are as before, and so the registry has no
    empty slot if it had none before. *)
Theorem removeUpdaters_idempotent m (keys : list Key) (jsonValue : string) :
  removeUpdaters (removeUpdaters m keys jsonValue) keys jsonValue
  = removeUpdaters m keys jsonValue /\
  (forall key, key ∈ keys ->
               key2Updaters (removeUpdaters m keys jsonValue) !! key <> Some []) /\
  (forall key, key2Updaters m !! key = None ->
               key2Updaters (removeUpdaters m keys jsonValue) !! key = None) /\
  (forall key, key ∉ keys ->
               key2Updaters (removeUpdaters m keys jsonValue) !! key
               = key2Updaters m !! key) /\
  ((forall key, key2Updaters m !! key <> Some []) ->
   forall key, key2Updaters (removeUpdaters m keys jsonValue) !! key <> Some []).
Proof.
  split; [| split; [| split; [| split]]].
  - apply dbMonitor_eq; [| done]. intros key. rewrite !removeUpdaters_lookup.
    destruct (decide (key ∈ keys)); [apply keep_idemp | done].
  - intros key Hin. rewrite removeUpdaters_lookup, decide_True by done.
    apply keep_not_empty.
  - intros key Hnone. rewrite removeUpdaters_lookup, Hnone. by destruct (decide _).
  - intros key Hin. by rewrite removeUpdaters_lookup, decide_False.
  - intros Hm key. rewrite removeUpdaters_lookup.
    destruct (decide _); [apply keep_not_empty | apply Hm].
Qed.

End MonitorProps.

(** ** Watch loop *)

Section WatchLoopProps.
Context {Key : Type} `{Countable Key}.
Variable ParseKey : string -> option Key.
Variable ToTableKey : Key -> Key.
Variable TableName : Key -> string.
Variable UnmarshalMap : ColumnSchema.t -> Value -> option OvsMap.
Variable UnmarshalSet : ColumnSchema.t -> Value -> option OvsSet.
Variable rangeRow : Row -> list (string * Value).

Lemma isNewRevision_spec (rc : revisionChecker) (newRevision : Z) :
  isNewRevision rc newRevision
  = if decide (revision rc < newRevision)
    then (true, mkRevisionChecker newRevision) else (false, rc).
Proof.
  unfold isNewRevision. case_bool_decide; destruct (decide _); try done; lia.
Qed.

(** C7. The revision checker never decreases.  On a batch that is not
    empty, [notify] with a revision that is at most the stored one hands
    no notification to the handler and leaves the monitor, and so the
    stored revision, as it was; with a greater revision the revision is
    stored first, the events are processed by [prepareTableUpdate] on
    the monitor that holds the new revision, and the updates are handed
    to the handler: [notify] panics exactly when this processing does,
    and otherwise returns the monitor with the new revision.  Whenever
    [notify] returns, the stored revision is the greater of the two.  An
    empty batch changes nothing, whatever its revision is. *)
Theorem notify_revision (m : @dbMonitor Key _ _) (events : list Event.t)
    (newRevision : Z) :
  events <> [] ->
  (forall rc r, revision rc <= revision (isNewRevision rc r).2) /\
  (newRevision <= revision (revChecker m) ->
   Logged.notify ParseKey ToTableKey TableName UnmarshalMap UnmarshalSet rangeRow
     m events newRevision = Ok (m, [])) /\
  (revision (revChecker m) < newRevision ->
   let m' := mkDbMonitor (key2Updaters m) (mkRevisionChecker newRevision) in
   (isNewRevision (revChecker m) newRevision).2 = revChecker m' /\
   Logged.notify ParseKey ToTableKey TableName UnmarshalMap UnmarshalSet rangeRow
     m events newRevision
   = (result ← Logged.prepareTableUpdate ParseKey ToTableKey TableName UnmarshalMap
                 UnmarshalSet rangeRow m' events;
      Ok (m', map_to_list result))) /\
  (forall m' handed,
      Logged.notify ParseKey ToTableKey TableName UnmarshalMap UnmarshalSet rangeRow
        m events newRevision = Ok (m', handed) ->
      revision (revChecker m') = Z.max (revision (revChecker m)) newRevision /\
      key2Updaters m' = key2Updaters m) /\
  Logged.notify ParseKey ToTableKey TableName UnmarshalMap UnmarshalSet rangeRow
    m [] newRevision = Ok (m, []).
Proof.
  intros Hevents.
  assert (bool_decide (length events = 0%nat) = false) as Hlen.
  { apply bool_decide_eq_false_2. by destruct events. }
  assert (newRevision <= revision (revChecker m) ->
          Logged.notify ParseKey ToTableKey TableName UnmarshalMap UnmarshalSet rangeRow
            m events newRevision = Ok (m, []))
    as Hold.
  { intros Hle. unfold Logged.notify. rewrite Hlen, isNewRevision_spec.
    rewrite decide_False by lia. by destruct m. }
  assert (revision (revChecker m) < newRevision ->
          let m' := mkDbMonitor (key2Updaters m) (mkRevisionChecker newRevision) in
          Logged.notify ParseKey ToTableKey TableName UnmarshalMap UnmarshalSet rangeRow
            m events newRevision
          = (result ← Logged.prepareTableUpdate ParseKey ToTableKey TableName
                        UnmarshalMap UnmarshalSet rangeRow m' events;
             Ok (m', map_to_list result)))
    as Hnew.
  { intros Hlt m'. unfold Logged.notify. rewrite Hlen, isNewRevision_spec.
    rewrite decide_True by lia. fold m'.
    destruct (Logged.prepareTableUpdate _ _ _ _ _ _ m' events) as [result | |]; simpl;
      [| done ..].
    clear Hlen. case_bool_decide as Hsize; [| done].
    apply map_size_empty_iff in Hsize as ->. by rewrite map_to_list_empty. }
  split; [| split; [done | split; [| split; [| done]]]].
  - intros rc r. rewrite isNewRevision_spec. destruct (decide _); simpl; lia.
  - intros Hlt m'. split; [| by apply Hnew].
    rewrite isNewRevision_spec. by rewrite decide_True by lia.
  - intros m' handed Hnotify.
    destruct (decide (revision (revChecker m) < newRevision)) as [Hlt | Hle].
    + rewrite (Hnew Hlt) in Hnotify.
      destruct (Logged.prepareTableUpdate _ _ _ _ _ _ _ events); simpl in Hnotify;
        [| done ..].
      injection Hnotify as <- _. simpl. split; [lia | done].
    + rewrite Hold in Hnotify by lia. injection Hnotify as <- _. split; [lia | done].
Qed.

End WatchLoopProps.

(** *** Scenarios on the registry and the watch loop *)

(** C5 on the code, for a registry that holds an updater and an
    incoming map that brings the same updater again. *)
Lemma addUpdaters_appends_duplicate_witness :
  let u := updaterOf "jv" ["c1"] true in
  let m := addUpdaters (registryOf {[ table1 := [u] ]} 0) {[ table1 := [u] ]} in
  key2Updaters m !! table1 = Some [u; u] /\ ~ NoDup (slot (key2Updaters m) table1).
Proof.
  cbv zeta.
  destruct (addUpdaters_appends_duplicate
              (registryOf {[ table1 := [updaterOf "jv" ["c1"] true] ]} 0)
              {[ table1 := [updaterOf "jv" ["c1"] true] ]} table1
              [updaterOf "jv" ["c1"] true] (updaterOf "jv" ["c1"] true))
    as [Hadd Hdup].
  - reflexivity.
  - apply (bool_decide_unpack _). vm_compute. exact I.
  - apply (bool_decide_unpack _). vm_compute. exact I.
  - split; [| exact Hdup]. rewrite Hadd. vm_compute. reflexivity.
Defined.

(** C6 on a registry whose slot holds the updater of another monitor. *)
Lemma add_remove_updaters_witness :
  let m := registryOf {[ table1 := [updaterOf "other" [] true] ]} 0 in
  removeUpdaters (addUpdaters m {[ table1 := [updaterOf "jv" ["c1"] false] ]})
    [table1] "jv" = m.
Proof.
  apply add_remove_updaters.
  - intros key. rewrite list_elem_of_singleton. split.
    + intros ->. by rewrite lookup_singleton_eq.
    + intros [updaters [-> _]%lookup_singleton_Some]. done.
  - intros key updaters u [_ <-]%lookup_singleton_Some ->%list_elem_of_singleton.
    reflexivity.
  - intros key l _ Hl. simpl in Hl. apply lookup_singleton_Some in Hl as [_ <-].
    split; [done |]. intros u ->%list_elem_of_singleton. discriminate.
Defined.

(** C6 as stated fails on a registry whose slot already holds an updater
    that carries the same key, and on a registry with an empty slot (as
    [addUpdaters] leaves one for a key without updaters): adding [U] and
    removing under its key deletes the slot. *)
Lemma add_remove_updaters_counterexample :
  let U : gmap (list string) (list updater) :=
    {[ table1 := [updaterOf "jv" ["c1"] false] ]} in
  let m := registryOf {[ table1 := [updaterOf "jv" [] true] ]} 0 in
  let m0 := addUpdaters (registryOf ∅ 0) {[ table1 := [] ]} in
  removeUpdaters (addUpdaters m U) [table1] "jv" = registryOf ∅ 0 /\
  removeUpdaters (addUpdaters m U) [table1] "jv" <> m /\
  key2Updaters m0 !! table1 = Some [] /\
  removeUpdaters (addUpdaters m0 U) [table1] "jv" = registryOf ∅ 0 /\
  removeUpdaters (addUpdaters m0 U) [table1] "jv" <> m0.
Proof.
  assert (forall m m' : @dbMonitor (list string) _ _,
             key2Updaters m !! table1 <> key2Updaters m' !! table1 -> m <> m') as Hne.
  { intros m m' Hk ->. done. }
  split; [vm_compute; reflexivity |]. split; [apply Hne; vm_compute; discriminate |].
  split; [vm_compute; reflexivity |]. split; [vm_compute; reflexivity |].
  apply Hne; vm_compute; discriminate.
Qed.

(** C10 on a registry with two monitors on one table. *)
Lemma removeUpdaters_idempotent_witness :
  let m := registryOf
             {[ table1 := [updaterOf "jv" ["c1"] false; updaterOf "other" [] true];
                table2 := [updaterOf "jv" [] false] ]} 0 in
  removeUpdaters (removeUpdaters m [table1; table2] "jv") [table1; table2] "jv"
  = removeUpdaters m [table1; table2] "jv" /\
  key2Updaters (removeUpdaters m [table1; table2] "jv") !! table2 <> Some [].
Proof.
  intros m.
  destruct (removeUpdaters_idempotent m [table1; table2] "jv") as (Hidem & Hkeys & _).
  split; [exact Hidem |]. apply Hkeys. apply (bool_decide_unpack _). vm_compute. exact I.
Defined.

(** C10 as stated fails on a registry with an empty slot under a key
    that is not in the key list: [addUpdaters] leaves such a slot for a
    key without updaters, and [removeUpdaters] does not visit it. *)
Lemma removeUpdaters_empty_slot_counterexample :
  let m := addUpdaters (registryOf ∅ 0) {[ table2 := [] ]} in
  key2Updaters m !! table2 = Some [] /\
  key2Updaters (removeUpdaters m [table1] "jv") !! table2 = Some [].
Proof. split; vm_compute; reflexivity. Qed.

(** C7 on a Create event for a monitored table, with the stored revision
    5: a batch at revision 5 is dropped, a batch at revision 6 is
    handed to the handler and leaves 6 as the stored revision. *)
Lemma notify_revision_witness :
  let m := registryOf {[ table1 := [updaterOf "jv" [] false] ]} 5 in
  let events := [putEvent 1 1 (Some data1) None] in
  Logged.notify parsePath tablePath tableOf wireMap wireSet rangeForward m events 5
  = Ok (m, []) /\
  Logged.notify parsePath tablePath tableOf wireMap wireSet rangeForward m events 6
  = Ok (registryOf {[ table1 := [updaterOf "jv" [] false] ]} 6,
        [("jv",
          {[ "table" :=
               {[ "U1" :=
                    RowUpdate.mk None None None
                      (Some {[ "c1" := VString "v1"; "c2" := VString "v2" ]})
                      false None ]} ]})]).
Proof.
  intros m events.
  destruct (notify_revision parsePath tablePath tableOf wireMap wireSet rangeForward
              m events 5) as (_ & Hold & _); [discriminate |].
  destruct (notify_revision parsePath tablePath tableOf wireMap wireSet rangeForward
              m events 6) as (_ & _ & Hnew & _); [discriminate |].
  split.
  - apply Hold. vm_compute. discriminate.
  - destruct Hnew as [_ Hnew]; [vm_compute; reflexivity |].
    rewrite Hnew. vm_compute. reflexivity.
Defined.

(** * Further properties of the code *)

(** ** Row codec *)

(** X1. [getAndDeleteUUID] succeeds exactly when [_uuid] is an array of
    two elements whose second element is a string: it returns that
    string and the map without [_uuid]; the first element (the tag) is
    not looked at.  Otherwise it returns an error; it never panics. *)
Theorem getAndDeleteUUID_cases (data : Row) :
  match getAndDeleteUUID data with
  | Ok (data', uuid) =>
      (exists tag, data !! COL_UUID = Some (VArray [tag; VString uuid])) /\
      data' = delete COL_UUID data
  | Err e =>
      (forall tag uuid, data !! COL_UUID <> Some (VArray [tag; VString uuid])) /\
      match data !! COL_UUID with
      | None => e = ErrNoUUID
      | Some (VArray l) =>
          if decide (length l = 2%nat) then e = ErrWrongUUIDElem (VArray l)
          else e = ErrWrongUUIDLen l
      | Some v => e = ErrWrongUUIDType v
      end
  | Panic => False
  end.
Proof.
  unfold getAndDeleteUUID.
  destruct (data !! COL_UUID) as [uuidInt |]; [| done].
  destruct uuidInt as [| | | | l | | |]; try done.
  case_bool_decide as Hlen.
  - split; [| by rewrite decide_False]. intros tag uuid [= ->]. by apply Hlen.
  - assert (length l = 2%nat) as Hl by (destruct (decide (length l = 2%nat)); tauto).
    destruct l as [| tag [| x [| ? ?]]]; try done. simpl.
    destruct x; try (split; [by intros ? ? [= ] | done]).
    split; [by exists tag | done].
Qed.

(** X2. The projection of a row is a part of the row: each column it
    has is a column of the row with the same value.  Without a
    projection list it is the row itself; with one it has the listed
    columns that the row has and no other column, however often a column
    is listed.  Projecting twice is projecting once. *)
Theorem deleteUnselectedColumns_projection (u : updater) (data : Row) :
  deleteUnselectedColumns u data ⊆ data /\
  (MonitorCondRequest.Columns (mcr u) = [] -> deleteUnselectedColumns u data = data) /\
  (MonitorCondRequest.Columns (mcr u) <> [] ->
   forall c, is_Some (deleteUnselectedColumns u data !! c)
             <-> c ∈ MonitorCondRequest.Columns (mcr u) /\ is_Some (data !! c)) /\
  deleteUnselectedColumns u (deleteUnselectedColumns u data)
  = deleteUnselectedColumns u data.
Proof.
  split; [| split; [| split]].
  - apply map_subseteq_spec. intros c v.
    rewrite deleteUnselectedColumns_lookup. by repeat case_decide.
  - intros Hnil. apply map_eq. intros c.
    rewrite deleteUnselectedColumns_lookup. by rewrite decide_True.
  - intros Hcols c. rewrite deleteUnselectedColumns_lookup.
    rewrite decide_False by done.
    destruct (decide (c ∈ _)); [tauto |].
    split; [by intros [? ?] | tauto].
  - apply map_eq. intros c. rewrite !deleteUnselectedColumns_lookup.
    by repeat case_decide.
Qed.

(** ** Updater *)

Lemma prepareRow_selected (u : updater) (value : option Row) (data : Row)
    (uuid : string) (c : string) :
  prepareRow u value = Ok (data, uuid) ->
  is_Some (data !! c) ->
  MonitorCondRequest.Columns (mcr u) = [] \/ c ∈ MonitorCondRequest.Columns (mcr u).
Proof.
  intros (obj & tag & _ & _ & ->)%prepareRow_Ok.
  rewrite deleteUnselectedColumns_lookup.
  destruct (decide (_ = [])); [by left |].
  destruct (decide (c ∈ _)); [by right | by intros [? ?]].
Qed.

Lemma prepareCreateRowUpdate_inv u event rowUpdate uuid :
  prepareCreateRowUpdate u event = Ok (Some rowUpdate, uuid) ->
  exists kv data,
    Event.Kv event = Some kv /\
    prepareRow u (KeyValue.Value kv) = Ok (data, uuid) /\
    data <> ∅ /\
    rowUpdate = if isV1 u then RowUpdate.mk (Some data) None None None false None
                else RowUpdate.mk None None None (Some data) false None.
Proof.
  unfold prepareCreateRowUpdate.
  destruct (MonitorCondRequest.Select (mcr u)) as [select |]; simpl; [| done].
  destruct (MSIsTrue (MonitorSelect.Insert select)); simpl; [| done].
  destruct (Event.Kv event) as [kv |] eqn:Hkv; simpl; [| done].
  destruct (prepareRow u (KeyValue.Value kv)) as [[data uuid'] | |] eqn:Hrow;
    simpl; [| done ..].
  rewrite size_pos_nonempty. case_bool_decide as Hempty; simpl; [done |].
  destruct (isV1 u); simpl; intros [= <- <-]; exists kv, data; eauto.
Qed.

Lemma prepareDeleteRowUpdate_inv u event rowUpdate uuid :
  prepareDeleteRowUpdate u event = Ok (Some rowUpdate, uuid) ->
  exists prevKv data,
    Event.PrevKv event = Some prevKv /\
    prepareRow u (KeyValue.Value prevKv) = Ok (data, uuid) /\
    if isV1 u then
      data <> ∅ /\ rowUpdate = RowUpdate.mk None (Some data) None None false None
    else rowUpdate = RowUpdate.mk None None None None true None.
Proof.
  unfold prepareDeleteRowUpdate.
  destruct (MonitorCondRequest.Select (mcr u)) as [select |]; simpl; [| done].
  destruct (MSIsTrue (MonitorSelect.Delete select)); simpl; [| done].
  destruct (Event.PrevKv event) as [prevKv |] eqn:Hprev; simpl; [| done].
  destruct (prepareRow u (KeyValue.Value prevKv)) as [[data uuid'] | |] eqn:Hrow;
    destruct (isV1 u); simpl; try done.
  - rewrite size_pos_nonempty. case_bool_decide as Hempty; simpl; [done |].
    intros [= <- <-]; exists prevKv, data; eauto.
  - intros [= <- <-]; exists prevKv, data; eauto.
Qed.

Lemma prepareCreateRowInitial_inv u value rowUpdate uuid :
  prepareCreateRowInitial u value = Ok (Some rowUpdate, uuid) ->
  exists payload data,
    value = Some payload /\
    prepareRow u payload = Ok (data, uuid) /\
    data <> ∅ /\
    rowUpdate = if isV1 u then RowUpdate.mk (Some data) None None None false None
                else RowUpdate.mk None None (Some data) None false None.
Proof.
  unfold prepareCreateRowInitial.
  destruct (MonitorCondRequest.Select (mcr u)) as [select |]; simpl; [| done].
  destruct (MSIsTrue (MonitorSelect.Initial select)); simpl; [| done].
  destruct value as [payload |]; simpl; [| done].
  destruct (prepareRow u payload) as [[data uuid'] | |] eqn:Hrow; simpl; [| done ..].
  rewrite size_pos_nonempty. case_bool_decide as Hempty; simpl; [done |].
  destruct (isV1 u); simpl; intros [= <- <-]; exists payload, data; eauto.
Qed.

Section UpdaterMore.
Variable UnmarshalMap : ColumnSchema.t -> Value -> option OvsMap.
Variable UnmarshalSet : ColumnSchema.t -> Value -> option OvsSet.
Variable rangeRow : Row -> list (string * Value).

Local Abbreviation compareColumn := (compareColumn UnmarshalMap UnmarshalSet).
Local Abbreviation compareModifiedRows_loop :=
  (compareModifiedRows_loop UnmarshalMap UnmarshalSet).
Local Abbreviation compareModifiedRows :=
  (compareModifiedRows UnmarshalMap UnmarshalSet rangeRow).
Local Abbreviation prepareModifyRowUpdate :=
  (prepareModifyRowUpdate UnmarshalMap UnmarshalSet rangeRow).
Local Abbreviation prepareRowUpdate :=
  (prepareRowUpdate UnmarshalMap UnmarshalSet rangeRow).

Lemma prepareModifyRowUpdate_inv u event rowUpdate uuid :
  prepareModifyRowUpdate u event = Ok (Some rowUpdate, uuid) ->
  exists kv prevKv modifiedRow prevRow deltaRow err,
    Event.Kv event = Some kv /\
    Event.PrevKv event = Some prevKv /\
    prepareRow u (KeyValue.Value kv) = Ok (modifiedRow, uuid) /\
    prepareRow u (KeyValue.Value prevKv) = Ok (prevRow, uuid) /\
    compareModifiedRows u modifiedRow prevRow ∅ = Ok (deltaRow, err) /\
    deltaRow <> ∅ /\
    rowUpdate = if isV1 u then
                  RowUpdate.mk (Some modifiedRow) (Some deltaRow) None None false None
                else RowUpdate.mk None None None None false (Some deltaRow).
Proof.
  unfold prepareModifyRowUpdate.
  destruct (MonitorCondRequest.Select (mcr u)) as [select |]; simpl; [| done].
  destruct (MSIsTrue (MonitorSelect.Modify select)); simpl; [| done].
  destruct (Event.Kv event) as [kv |] eqn:Hkv; simpl; [| done].
  destruct (prepareRow u (KeyValue.Value kv)) as [[modifiedRow uuid'] | |] eqn:Hrow;
    simpl; [| done ..].
  destruct (Event.PrevKv event) as [prevKv |] eqn:Hprev; simpl; [| done].
  destruct (prepareRow u (KeyValue.Value prevKv)) as [[prevRow prevUUID] | |] eqn:Hprow;
    simpl; [| done ..].
  case_bool_decide as Huuid; [done |].
  assert (uuid' = prevUUID) as <- by (by destruct (decide (uuid' = prevUUID))).
  destruct (compareModifiedRows u modifiedRow prevRow ∅) as [[deltaRow err] | |] eqn:E;
    simpl; [| done ..].
  rewrite size_pos_nonempty. case_bool_decide as Hempty; simpl; [done |].
  destruct (isV1 u); simpl; intros [= <- <-];
    exists kv, prevKv, modifiedRow, prevRow, deltaRow, err; eauto 10.
Qed.

Lemma compareColumn_returns u modifiedRow prevRow column :
  compareColumn u modifiedRow prevRow column <> Panic.
Proof.
  unfold compareColumn, compareMaps, compareSets, TableSchema.LookupColumn.
  destruct (TableSchema.Columns _ !! column) as [columnSchema |]; simpl; [| done].
  repeat (case_bool_decide; simpl);
    repeat (match goal with
            | |- context [match ?x with _ => _ end] => destruct x; simpl
            end); done.
Qed.

(** With these assumptions the loop of the diff returns. *)
Lemma compareModifiedRows_loop_returns u entries modifiedRow prevRow deltaRow :
  exists delta err,
    compareModifiedRows_loop u entries modifiedRow prevRow deltaRow = Ok (delta, err).
Proof.
  revert deltaRow. induction entries as [| [column cValue] entries IH];
    intros deltaRow; simpl; [by eexists _, _ |].
  destruct (DeepEqual cValue (index prevRow column)); simpl; [apply IH |].
  pose proof (compareColumn_returns u modifiedRow prevRow column) as Hret.
  destruct (compareColumn u modifiedRow prevRow column) as [d | e |];
    [apply IH | by eexists _, _ | done].
Qed.

(** The loop stores only under visited columns whose values differ. *)
Lemma compareModifiedRows_loop_changed u entries modifiedRow prevRow deltaRow delta err c :
  compareModifiedRows_loop u entries modifiedRow prevRow deltaRow = Ok (delta, err) ->
  is_Some (delta !! c) ->
  is_Some (deltaRow !! c) \/ exists v, (c, v) ∈ entries /\ v <> index prevRow c.
Proof.
  revert deltaRow. induction entries as [| [column cValue] entries IH];
    intros deltaRow; simpl.
  - intros [= <- <-]. by left.
  - destruct (DeepEqual cValue (index prevRow column)) eqn:Heq; simpl.
    + intros Hloop Hc. destruct (IH _ Hloop Hc) as [| (v & Hv & Hne)]; [by left |].
      right. exists v. split; [apply elem_of_cons; by right | done].
    + apply DeepEqual_neq in Heq.
      destruct (compareColumn u modifiedRow prevRow column) as [d | e |]; [| | done].
      * intros Hloop Hc. destruct (IH _ Hloop Hc) as [Hin | (v & Hv & Hne)].
        -- destruct (decide (column = c)) as [-> | Hcol].
           ++ right. exists cValue. split; [apply elem_of_cons; by left | done].
           ++ left. by rewrite lookup_insert_ne in Hin.
        -- right. exists v. split; [apply elem_of_cons; by right | done].
      * intros [= <- <-]. by left.
Qed.

Lemma prepareRow_returns (u : updater) (value : option Row) :
  prepareRow u value <> Panic.
Proof.
  unfold prepareRow, getAndDeleteUUID. destruct value as [obj |]; simpl; [| done].
  destruct (obj !! COL_UUID) as [[| | | | l | | |] |]; simpl; try done.
  case_bool_decide; simpl; [done |].
  destruct (l !! 1%nat) as [[] |]; simpl; done.
Qed.

Hypothesis rangeRow_entries : forall m : Row, rangeRow m ≡ₚ map_to_list m.

(** X3. With a projection list, every column of every column map of an
    emitted row update ([New], [Old], [Initial], [Insert], [Modify]) is
    a listed column. *)
Theorem row_update_within_projection (u : updater) (event : Event.t)
    (value : option (option Row)) (rowUpdate : RowUpdate.t) (uuid : string) :
  MonitorCondRequest.Columns (mcr u) <> [] ->
  prepareRowUpdate u event = Ok (Some rowUpdate, uuid) \/
  prepareCreateRowInitial u value = Ok (Some rowUpdate, uuid) ->
  Forall (fun columns : option Row =>
            forall row c, columns = Some row -> is_Some (row !! c) ->
                          c ∈ MonitorCondRequest.Columns (mcr u))
    [RowUpdate.New rowUpdate; RowUpdate.Old rowUpdate; RowUpdate.Initial rowUpdate;
     RowUpdate.Insert rowUpdate; RowUpdate.Modify rowUpdate].
Proof.
  intros Hcols Hemit.
  assert (forall value data uuid c,
             prepareRow u value = Ok (data, uuid) -> is_Some (data !! c) ->
             c ∈ MonitorCondRequest.Columns (mcr u)) as Hsel.
  { intros value' data uuid' c Hrow Hc.
    by destruct (prepareRow_selected _ _ _ _ _ Hrow Hc). }
  assert (forall (P : option Row -> Prop) new old initial insert delete modify,
             P new -> P old -> P initial -> P insert -> P modify ->
             Forall P [RowUpdate.New (RowUpdate.mk new old initial insert delete modify);
                       RowUpdate.Old (RowUpdate.mk new old initial insert delete modify);
                       RowUpdate.Initial (RowUpdate.mk new old initial insert delete modify);
                       RowUpdate.Insert (RowUpdate.mk new old initial insert delete modify);
                       RowUpdate.Modify (RowUpdate.mk new old initial insert delete modify)])
    as Hall by (intros; simpl; by repeat constructor).
  assert (forall data uuid value,
             prepareRow u value = Ok (data, uuid) ->
             forall row c, Some data = Some row -> is_Some (row !! c) ->
                           c ∈ MonitorCondRequest.Columns (mcr u)) as Hdata.
  { intros data uuid' value' Hrow row c [= <-] Hc. by eapply Hsel. }
  destruct Hemit as [Hemit | Hemit].
  - unfold prepareRowUpdate in Hemit.
    destruct (Event.IsModify event) as [[|] | |]; simpl in Hemit; [| | done ..].
    + apply prepareModifyRowUpdate_inv in Hemit
        as (kv & prevKv & modifiedRow & prevRow & deltaRow & err & _ & _ &
            Hrow & _ & Hloop & _ & ->).
      assert (forall row c, Some deltaRow = Some row -> is_Some (row !! c) ->
                            c ∈ MonitorCondRequest.Columns (mcr u)) as Hdelta.
      { intros row c [= <-] Hc. eapply Hsel; [exact Hrow |].
        by eapply (compareModifiedRows_keys UnmarshalMap UnmarshalSet rangeRow). }
      destruct (isV1 u); apply Hall; eauto; done.
    + destruct (Event.IsCreate event) as [[|] | |]; simpl in Hemit; [| | done ..].
      * apply prepareCreateRowUpdate_inv in Hemit as (kv & data & _ & Hrow & _ & ->).
        destruct (isV1 u); apply Hall; eauto; done.
      * apply prepareDeleteRowUpdate_inv in Hemit as (prevKv & data & _ & Hrow & Hru).
        destruct (isV1 u); [destruct Hru as [_ ->] | subst rowUpdate];
          apply Hall; eauto; done.
  - apply prepareCreateRowInitial_inv in Hemit as (payload & data & _ & Hrow & _ & ->).
    destruct (isV1 u); apply Hall; eauto; done.
Qed.

(** X4. When the selection flag of the kind of the event is present and
    false, the updater returns no row update, an empty UUID and no
    error, without looking at the event: also for a payload that does
    not decode or a previous key-value that is nil. *)
Theorem closed_gate_no_row_update (u : updater) (event : Event.t)
    (value : option (option Row)) (select : MonitorSelect.t) :
  MonitorCondRequest.Select (mcr u) = Some select ->
  (Event.IsCreate event = Ok true -> MonitorSelect.Insert select = Some false ->
   prepareRowUpdate u event = Ok (None, "")) /\
  (Event.Type_ event = Event.DELETE -> MonitorSelect.Delete select = Some false ->
   prepareRowUpdate u event = Ok (None, "")) /\
  (Event.IsModify event = Ok true -> MonitorSelect.Modify select = Some false ->
   prepareRowUpdate u event = Ok (None, "")) /\
  (MonitorSelect.Initial select = Some false ->
   prepareCreateRowInitial u value = Ok (None, "")).
Proof.
  intros Hsel. repeat split.
  - intros Hcreate Hgate. unfold prepareRowUpdate.
    rewrite (IsCreate_true _ Hcreate); simpl. rewrite Hcreate; simpl.
    unfold prepareCreateRowUpdate. rewrite Hsel; simpl. by rewrite Hgate.
  - intros Hdel Hgate. destruct (IsDelete _ Hdel) as [Hmod Hcreate].
    unfold prepareRowUpdate. rewrite Hmod; simpl. rewrite Hcreate; simpl.
    unfold prepareDeleteRowUpdate. rewrite Hsel; simpl. by rewrite Hgate.
  - intros Hmod Hgate. unfold prepareRowUpdate, prepareModifyRowUpdate.
    rewrite Hmod; simpl. rewrite Hsel; simpl. by rewrite Hgate.
  - intros Hgate. unfold prepareCreateRowInitial. rewrite Hsel; simpl.
    by rewrite Hgate.
Qed.


(** X6. The shape of an emitted row update.  Under v1 only [New] and
    [Old] are used: [New] alone for a Create event, [Old] alone for a
    Delete event, both for a Modify event.  Under v2/v3 [New] and [Old]
    are never used, and exactly one of [Insert], [Modify] and [Delete]
    is.  No column map of an emitted row update is empty. *)
Theorem row_update_shape (u : updater) (event : Event.t)
    (rowUpdate : RowUpdate.t) (uuid : string) :
  prepareRowUpdate u event = Ok (Some rowUpdate, uuid) ->
  RowUpdate.Initial rowUpdate = None /\
  (if isV1 u then
     RowUpdate.Insert rowUpdate = None /\ RowUpdate.Modify rowUpdate = None /\
     RowUpdate.Delete rowUpdate = false /\
     (is_Some (RowUpdate.New rowUpdate) \/ is_Some (RowUpdate.Old rowUpdate)) /\
     (Event.IsCreate event = Ok true -> RowUpdate.Old rowUpdate = None) /\
     (Event.Type_ event = Event.DELETE -> RowUpdate.New rowUpdate = None)
   else
     RowUpdate.New rowUpdate = None /\ RowUpdate.Old rowUpdate = None /\
     ((is_Some (RowUpdate.Insert rowUpdate) /\ RowUpdate.Modify rowUpdate = None /\
       RowUpdate.Delete rowUpdate = false) \/
      (RowUpdate.Insert rowUpdate = None /\ is_Some (RowUpdate.Modify rowUpdate) /\
       RowUpdate.Delete rowUpdate = false) \/
      (RowUpdate.Insert rowUpdate = None /\ RowUpdate.Modify rowUpdate = None /\
       RowUpdate.Delete rowUpdate = true))) /\
  Forall (fun columns : option Row => columns <> Some ∅)
    [RowUpdate.New rowUpdate; RowUpdate.Old rowUpdate; RowUpdate.Initial rowUpdate;
     RowUpdate.Insert rowUpdate; RowUpdate.Modify rowUpdate].
Proof.
  unfold prepareRowUpdate.
  destruct (Event.IsModify event) as [[|] | |] eqn:Hmod; simpl; [| | done ..].
  - intros (kv & prevKv & modifiedRow & prevRow & deltaRow & err & _ & _ &
            _ & _ & Hloop & Hne & ->)%prepareModifyRowUpdate_inv.
    assert (modifiedRow <> ∅) as Hpost.
    { intros ->. apply Hne, map_eq. intros c. rewrite lookup_empty.
      destruct (deltaRow !! c) as [d |] eqn:E; [| done].
      destruct (compareModifiedRows_keys UnmarshalMap UnmarshalSet rangeRow
                  rangeRow_entries _ _ _ _ _ c Hloop (mk_is_Some _ _ E)) as [? Hc].
      by rewrite lookup_empty in Hc. }
    destruct (IsModify_true _ Hmod) as [Hput Hcreate].
    destruct (isV1 u); simpl.
    + repeat split; eauto 10; try done; try congruence; repeat constructor; congruence.
    + repeat split; eauto 10; try done; try congruence; repeat constructor; congruence.
  - destruct (Event.IsCreate event) as [[|] | |] eqn:Hcreate; simpl; [| | done ..].
    + intros (kv & data & _ & _ & Hne & ->)%prepareCreateRowUpdate_inv.
      assert (Event.Type_ event <> Event.DELETE) as Hnodel.
      { intros Hdel. destruct (IsDelete _ Hdel). congruence. }
      destruct (isV1 u); simpl.
      * repeat split; eauto 10; try done; try congruence; repeat constructor; congruence.
      * repeat split; eauto 10; try done; try congruence; repeat constructor; congruence.
    + intros (prevKv & data & _ & _ & Hru)%prepareDeleteRowUpdate_inv.
      destruct (isV1 u); simpl.
      * destruct Hru as [Hne ->]. simpl.
        repeat split; eauto 10; try done; try congruence; repeat constructor; congruence.
      * subst rowUpdate. simpl. repeat split; eauto 10; try done; try congruence; repeat constructor; congruence.
Qed.

(** X7. A Modify event whose two key-values carry the same payload
    yields no row update, whatever the schema, the projection and the
    protocol variant are: the diff of a row with itself is empty. *)
Theorem modify_same_payload (u : updater) (event : Event.t)
    (select : MonitorSelect.t) (kv prevKv : KeyValue.t) (row : Row) (uuid : string) :
  Event.IsModify event = Ok true ->
  MonitorCondRequest.Select (mcr u) = Some select ->
  Event.Kv event = Some kv ->
  Event.PrevKv event = Some prevKv ->
  KeyValue.Value kv = KeyValue.Value prevKv ->
  prepareRow u (KeyValue.Value kv) = Ok (row, uuid) ->
  compareModifiedRows u row row ∅ = Ok (∅, None) /\
  prepareRowUpdate u event = Ok (None, "").
Proof.
  intros Hmod Hsel Hkv Hprev Hsame Hrow.
  assert (compareModifiedRows u row row ∅ = Ok (∅, None)) as Hcmp.
  { destruct (compareModifiedRows_Ok UnmarshalMap UnmarshalSet rangeRow
                rangeRow_entries u row row) as (deltaRow & Hloop & _ & Honly).
    - intros c v Hc Hne. destruct Hne. unfold index. by rewrite Hc.
    - rewrite Hloop. do 2 f_equal. apply map_eq. intros c. rewrite lookup_empty.
      destruct (deltaRow !! c) as [d |] eqn:E; [| done].
      destruct (Honly c (mk_is_Some _ _ E)) as (v & Hv & Hne).
      destruct Hne. unfold index. by rewrite Hv. }
  split; [done |].
  unfold prepareRowUpdate, prepareModifyRowUpdate.
  rewrite Hmod; simpl. rewrite Hsel; simpl.
  destruct (MSIsTrue (MonitorSelect.Modify select)); simpl; [| done].
  rewrite Hkv; simpl. rewrite Hrow, Hprev; simpl. rewrite <- Hsame, Hrow; simpl.
  rewrite bool_decide_eq_false_2 by (intros Hne; by apply Hne).
  by rewrite Hcmp.
Qed.

(** X8. An error of the diff engine is never returned.  On a Modify
    event whose images decode with the same UUID the updater returns no
    error; and with an open gate, when [compareModifiedRows] returns a
    delta with an error or without one, the updater emits this delta if
    it is not empty and nothing otherwise, whatever the error is. *)
Theorem modify_returns_no_error (u : updater) (event : Event.t)
    (select : MonitorSelect.t) (kv prevKv : KeyValue.t)
    (modifiedRow prevRow : Row) (uuid : string) :
  Event.IsModify event = Ok true ->
  MonitorCondRequest.Select (mcr u) = Some select ->
  Event.Kv event = Some kv ->
  Event.PrevKv event = Some prevKv ->
  prepareRow u (KeyValue.Value kv) = Ok (modifiedRow, uuid) ->
  prepareRow u (KeyValue.Value prevKv) = Ok (prevRow, uuid) ->
  (forall e, prepareRowUpdate u event <> Err e) /\
  (forall (deltaRow : Row) (err : option error),
      MSIsTrue (MonitorSelect.Modify select) = true ->
      compareModifiedRows u modifiedRow prevRow ∅ = Ok (deltaRow, err) ->
      prepareRowUpdate u event
      = Ok (if decide (deltaRow = ∅) then (None, "")
            else if isV1 u then
              (Some (RowUpdate.mk (Some modifiedRow) (Some deltaRow) None None false None),
               uuid)
            else
              (Some (RowUpdate.mk None None None None false (Some deltaRow)), uuid))).
Proof.
  intros Hmod Hsel Hkv Hprev Hrow Hprow.
  unfold prepareRowUpdate, prepareModifyRowUpdate.
  rewrite Hmod; simpl. rewrite Hsel; simpl. split.
  - intros e. destruct (MSIsTrue (MonitorSelect.Modify select)); simpl; [| done].
    rewrite Hkv; simpl. rewrite Hrow, Hprev; simpl. rewrite Hprow; simpl.
    rewrite bool_decide_eq_false_2 by (intros Hne; by apply Hne).
    unfold compareModifiedRows.
    destruct (compareModifiedRows_loop_returns u (rangeRow modifiedRow) modifiedRow
                prevRow ∅) as (deltaRow & err & ->).
    simpl. case_bool_decide; [destruct (isV1 u) |]; done.
  - intros deltaRow err Hgate Hcmp. rewrite Hgate; simpl.
    rewrite Hkv; simpl. rewrite Hrow, Hprev; simpl. rewrite Hprow; simpl.
    rewrite bool_decide_eq_false_2 by (intros Hne; by apply Hne).
    rewrite Hcmp; simpl. rewrite size_pos_nonempty.
    destruct (decide (deltaRow = ∅)); case_bool_decide; try done.
    by destruct (isV1 u).
Qed.

(** X9. Whether the diff engine meets an error or not, the delta of an
    emitted Modify row update ([Old] under v1, [Modify] under v2/v3) is
    not empty and holds only columns of the projected post-image whose
    value differs from the pre-image.  So a column whose new value is
    JSON null and that the pre-image lacks is never reported. *)
Theorem modify_delta_only_changed (u : updater) (event : Event.t)
    (rowUpdate : RowUpdate.t) (uuid : string) :
  Event.IsModify event = Ok true ->
  prepareRowUpdate u event = Ok (Some rowUpdate, uuid) ->
  exists kv prevKv modifiedRow prevRow deltaRow,
    Event.Kv event = Some kv /\
    Event.PrevKv event = Some prevKv /\
    prepareRow u (KeyValue.Value kv) = Ok (modifiedRow, uuid) /\
    prepareRow u (KeyValue.Value prevKv) = Ok (prevRow, uuid) /\
    (if isV1 u then RowUpdate.Old rowUpdate else RowUpdate.Modify rowUpdate)
    = Some deltaRow /\
    deltaRow <> ∅ /\
    (forall c, is_Some (deltaRow !! c) ->
               exists v, modifiedRow !! c = Some v /\ v <> index prevRow c) /\
    (forall c, modifiedRow !! c = Some VNil -> prevRow !! c = None ->
               deltaRow !! c = None).
Proof.
  intros Hmod. unfold prepareRowUpdate. rewrite Hmod; simpl.
  intros (kv & prevKv & modifiedRow & prevRow & deltaRow & err & Hkv & Hprev &
          Hrow & Hprow & Hloop & Hne & ->)%prepareModifyRowUpdate_inv.
  assert (forall c, is_Some (deltaRow !! c) ->
                    exists v, modifiedRow !! c = Some v /\ v <> index prevRow c)
    as Honly.
  { intros c Hc.
    destruct (compareModifiedRows_loop_changed _ _ _ _ _ _ _ _ Hloop Hc)
      as [Hin | (v & Hv & Hdiff)].
    - rewrite lookup_empty in Hin. by destruct Hin.
    - exists v. split; [| done].
      by apply (rangeRow_lookup rangeRow rangeRow_entries). }
  exists kv, prevKv, modifiedRow, prevRow, deltaRow.
  repeat split; try done.
  - by destruct (isV1 u).
  - intros c Hc Hpc. destruct (deltaRow !! c) as [d |] eqn:E; [| done].
    destruct (Honly c (mk_is_Some _ _ E)) as (v & Hv & Hdiff).
    destruct Hdiff. unfold index. rewrite Hpc. simpl. congruence.
Qed.

(** X10. Where the updater dereferences a nil pointer.  It panics on
    a Put event without a key-value; on an updater without a [Select]
    ([mcrToUpdater] gives every updater one), for a Delete event and for
    an event with a key-value; on a Delete event with an open gate and
    no previous key-value; and on a Modify event with an open gate, a
    post-image that decodes and no previous key-value (as in a watch
    without previous values). *)
Theorem prepareRowUpdate_panic (u : updater) (event : Event.t) :
  (Event.Type_ event = Event.PUT -> Event.Kv event = None ->
   prepareRowUpdate u event = Panic) /\
  (MonitorCondRequest.Select (mcr u) = None ->
   Event.Type_ event = Event.DELETE \/ is_Some (Event.Kv event) ->
   prepareRowUpdate u event = Panic) /\
  (forall select,
      MonitorCondRequest.Select (mcr u) = Some select ->
      Event.Type_ event = Event.DELETE ->
      MSIsTrue (MonitorSelect.Delete select) = true ->
      Event.PrevKv event = None ->
      prepareRowUpdate u event = Panic) /\
  (forall select kv modifiedRow uuid,
      MonitorCondRequest.Select (mcr u) = Some select ->
      Event.IsModify event = Ok true ->
      MSIsTrue (MonitorSelect.Modify select) = true ->
      Event.Kv event = Some kv ->
      prepareRow u (KeyValue.Value kv) = Ok (modifiedRow, uuid) ->
      Event.PrevKv event = None ->
      prepareRowUpdate u event = Panic).
Proof.
  split; [| split; [| split]].
  - intros Hput Hkv. unfold prepareRowUpdate, Event.IsModify. by rewrite Hput, Hkv.
  - intros Hsel Hev.
    unfold prepareRowUpdate, Event.IsModify, Event.IsCreate,
      prepareCreateRowUpdate, prepareDeleteRowUpdate, prepareModifyRowUpdate.
    rewrite Hsel. destruct (Event.Type_ event); simpl; [| done].
    destruct Hev as [[=] | [kv ->]]; simpl. by case_bool_decide.
  - intros select Hsel Hdel Hgate Hprev. destruct (IsDelete _ Hdel) as [Hmod Hcreate].
    unfold prepareRowUpdate. rewrite Hmod; simpl. rewrite Hcreate; simpl.
    unfold prepareDeleteRowUpdate. rewrite Hsel; simpl. by rewrite Hgate, Hprev.
  - intros select kv modifiedRow uuid Hsel Hmod Hgate Hkv Hrow Hprev.
    unfold prepareRowUpdate, prepareModifyRowUpdate.
    rewrite Hmod; simpl. rewrite Hsel; simpl. rewrite Hgate, Hkv; simpl.
    by rewrite Hrow, Hprev.
Qed.

End UpdaterMore.

(** X11. When the diff engine meets no error, the delta does not depend
    on the order in which [range] visits the post-image. *)
Theorem compareModifiedRows_any_order
    (UnmarshalMap : ColumnSchema.t -> Value -> option OvsMap)
    (UnmarshalSet : ColumnSchema.t -> Value -> option OvsSet)
    (range1 range2 : Row -> list (string * Value))
    (u : updater) (modifiedRow prevRow : Row) :
  (forall m : Row, range1 m ≡ₚ map_to_list m) ->
  (forall m : Row, range2 m ≡ₚ map_to_list m) ->
  (forall c v, modifiedRow !! c = Some v -> v <> index prevRow c ->
               exists d, compareColumn UnmarshalMap UnmarshalSet u modifiedRow prevRow c
                         = Ok d) ->
  compareModifiedRows UnmarshalMap UnmarshalSet range1 u modifiedRow prevRow ∅
  = compareModifiedRows UnmarshalMap UnmarshalSet range2 u modifiedRow prevRow ∅.
Proof.
  intros Hrange1 Hrange2 Hok.
  destruct (compareModifiedRows_Ok UnmarshalMap UnmarshalSet range1 Hrange1
              u modifiedRow prevRow Hok) as (delta1 & -> & Hchanged1 & Honly1).
  destruct (compareModifiedRows_Ok UnmarshalMap UnmarshalSet range2 Hrange2
              u modifiedRow prevRow Hok) as (delta2 & -> & Hchanged2 & Honly2).
  do 2 f_equal. apply map_eq. intros c.
  destruct (delta1 !! c) as [d1 |] eqn:E1.
  - destruct (Honly1 c (mk_is_Some _ _ E1)) as (v & Hv & Hne).
    destruct (Hchanged1 c v Hv Hne) as (d & Hd & Hd1).
    destruct (Hchanged2 c v Hv Hne) as (d' & Hd' & Hd2). congruence.
  - destruct (delta2 !! c) as [d2 |] eqn:E2; [| done].
    destruct (Honly2 c (mk_is_Some _ _ E2)) as (v & Hv & Hne).
    destruct (Hchanged1 c v Hv Hne) as (d & _ & Hd1). congruence.
Qed.

(** ** Diff engine: sets and maps *)

Lemma setsDifference_found (s1 : Atom) (set2 : list Atom) :
  existsb (fun s2 => bool_decide (s1 = s2)) set2 = true <-> s1 ∈ set2.
Proof.
  rewrite existsb_exists. split.
  - intros (s2 & Hin & Heq). apply bool_decide_eq_true in Heq as <-.
    by apply list_elem_of_In.
  - intros Hin. exists s1. split; [by apply list_elem_of_In |].
    by apply bool_decide_eq_true.
Qed.

Lemma setsDifference_pass_filter (set1 set2 diff : list Atom) :
  setsDifference_pass set1 set2 diff
  = (diff ++ filter (fun a => a ∉ set2) set1)%list.
Proof.
  unfold setsDifference_pass. revert diff.
  induction set1 as [| s1 set1 IH]; intros diff; simpl.
  - by rewrite app_nil_r.
  - rewrite IH. destruct (existsb _ set2) eqn:E; simpl.
    + apply setsDifference_found in E. by rewrite filter_cons_False by tauto.
    + assert (s1 ∉ set2) as Hnot.
      { intros Hin%setsDifference_found. congruence. }
      rewrite filter_cons_True by done. by rewrite <- app_assoc.
Qed.

(** X12. [setsDifference] is the symmetric difference: the elements of
    the first set that are not in the second, in their order, followed
    by the elements of the second set that are not in the first. *)
Theorem setsDifference_symmetric_difference (set1 set2 : OvsSet) :
  GoSet (setsDifference set1 set2)
  = (filter (fun a => a ∉ GoSet set2) (GoSet set1) ++
     filter (fun a => a ∉ GoSet set1) (GoSet set2))%list /\
  (forall a, a ∈ GoSet (setsDifference set1 set2)
             <-> (a ∈ GoSet set1 /\ a ∉ GoSet set2) \/
                 (a ∈ GoSet set2 /\ a ∉ GoSet set1)).
Proof.
  assert (GoSet (setsDifference set1 set2)
          = (filter (fun a => a ∉ GoSet set2) (GoSet set1) ++
             filter (fun a => a ∉ GoSet set1) (GoSet set2))%list) as Heq.
  { unfold setsDifference; simpl. by rewrite !setsDifference_pass_filter. }
  split; [done |]. intros a.
  rewrite Heq, elem_of_app, !list_elem_of_filter. tauto.
Qed.

(** X13. The difference of two sets is empty exactly when they have the
    same elements, so the difference of a set with itself is empty;
    swapping the two sets permutes the difference; and the difference of
    two sets without repeated elements has no repeated element. *)
Theorem setsDifference_empty_swap (set1 set2 : OvsSet) :
  (GoSet (setsDifference set1 set2) = []
   <-> forall a, a ∈ GoSet set1 <-> a ∈ GoSet set2) /\
  GoSet (setsDifference set1 set1) = [] /\
  GoSet (setsDifference set1 set2) ≡ₚ GoSet (setsDifference set2 set1) /\
  (NoDup (GoSet set1) -> NoDup (GoSet set2) ->
   NoDup (GoSet (setsDifference set1 set2))).
Proof.
  assert (forall s1 s2 : OvsSet,
             GoSet (setsDifference s1 s2)
             = (filter (fun a => a ∉ GoSet s2) (GoSet s1) ++
                filter (fun a => a ∉ GoSet s1) (GoSet s2))%list) as Heq.
  { intros s1 s2. unfold setsDifference; simpl.
    by rewrite !setsDifference_pass_filter. }
  assert (forall l1 l2 : list Atom,
             filter (fun a => a ∉ l2) l1 = [] <-> forall a, a ∈ l1 -> a ∈ l2) as Hnil.
  { intros l1 l2. split.
    - intros Hf a Hin. destruct (decide (a ∈ l2)) as [| Hnot]; [done |].
      assert (a ∈ filter (fun a => a ∉ l2) l1) as Ha by (by apply list_elem_of_filter).
      rewrite Hf in Ha. by apply not_elem_of_nil in Ha.
    - intros Hsub. apply filter_none. intros a Hin Hnot. by apply Hnot, Hsub. }
  split; [| split; [| split]].
  - rewrite Heq. split.
    + intros [H1 H2]%app_eq_nil a. split; by apply Hnil.
    + intros Hsame. apply app_nil. split; apply Hnil; intros a; by apply Hsame.
  - rewrite Heq. apply app_nil. split; by apply Hnil.
  - rewrite !Heq. apply Permutation_app_comm.
  - intros Hnd1 Hnd2. rewrite Heq. apply NoDup_app. split; [| split].
    + by apply NoDup_filter.
    + intros a [Hnot Hin]%list_elem_of_filter [Hnot' Hin']%list_elem_of_filter. done.
    + by apply NoDup_filter.
Qed.

(** X14. The delta of a map column is empty exactly when the two maps
    are equal, and the keys of the delta are keys of one of the two
    maps. *)
Theorem compareMaps_loops_empty (newMap prevMap : OvsMap) :
  (GoMap (compareMaps_loops newMap prevMap) = ∅ <-> GoMap newMap = GoMap prevMap) /\
  (forall k, is_Some (GoMap (compareMaps_loops newMap prevMap) !! k) ->
             is_Some (GoMap newMap !! k) \/ is_Some (GoMap prevMap !! k)).
Proof.
  split.
  - split.
    + intros Hempty. apply map_eq. intros k.
      pose proof (compareMaps_loops_lookup newMap prevMap k) as Hk.
      rewrite Hempty, lookup_empty in Hk.
      destruct (GoMap newMap !! k) as [v |]; [| done].
      by destruct (decide (GoMap prevMap !! k = Some v)).
    + intros Heq. apply map_eq. intros k.
      rewrite compareMaps_loops_lookup, lookup_empty, Heq.
      destruct (GoMap prevMap !! k) as [v |]; [| done]. by rewrite decide_True.
  - intros k. rewrite compareMaps_loops_lookup.
    destruct (GoMap newMap !! k) as [v |]; [by left; eauto | by right].
Qed.

(** ** Monitor registry *)

Lemma keep_slot (jsonValue : string) (o : option (list updater)) :
  default [] (o ≫= keep jsonValue)
  = filter (fun u => jasonValueStr u ≠ jsonValue) (default [] o).
Proof.
  destruct o as [l |]; [| done]. simpl. unfold keep.
  by destruct (decide _) as [-> |].
Qed.

Lemma keep_comm (j j' : string) (o : option (list updater)) :
  (o ≫= keep j) ≫= keep j' = (o ≫= keep j') ≫= keep j.
Proof.
  assert (forall (j j' : string) (l : list updater),
             (keep j l) ≫= keep j'
             = keep j' (filter (fun u => jasonValueStr u ≠ j) l)) as Hstep.
  { intros a b l. unfold keep.
    destruct (decide (filter (fun u => jasonValueStr u ≠ a) l = [])) as [Heq |];
      simpl; [| done].
    rewrite Heq. by rewrite decide_True. }
  destruct o as [l |]; [| done]. simpl. rewrite !Hstep. unfold keep.
  rewrite !list_filter_filter.
  assert (filter (fun u => jasonValueStr u ≠ j' ∧ jasonValueStr u ≠ j) l
          = filter (fun u => jasonValueStr u ≠ j ∧ jasonValueStr u ≠ j') l) as ->.
  { apply list_filter_iff. tauto. }
  done.
Qed.

Section RegistryMore.
Context {Key : Type} `{Countable Key}.

Implicit Types (m : @dbMonitor Key _ _) (U : gmap Key (list updater)).

Lemma addUpdaters_slot m U (key : Key) :
  slot (key2Updaters (addUpdaters m U)) key
  = (slot (key2Updaters m) key ++ default [] (U !! key))%list.
Proof.
  unfold slot at 1. rewrite addUpdaters_lookup.
  destruct (U !! key); simpl; [done |]. by rewrite app_nil_r.
Qed.

Lemma hasUpdaters_true m :
  hasUpdaters m = true <-> exists key, is_Some (key2Updaters m !! key).
Proof.
  unfold hasUpdaters. rewrite bool_decide_eq_true. split.
  - intros Hsize. destruct (map_choose (key2Updaters m)) as (key & l & Hl).
    + apply map_size_non_empty_iff. lia.
    + by exists key, l.
  - intros (key & l & Hl).
    assert (size (key2Updaters m) ≠ 0%nat); [| lia].
    apply map_size_non_empty_iff. intros Hempty.
    by rewrite Hempty, lookup_empty in Hl.
Qed.

(** X15. A new monitor has no updaters.  [addUpdaters] makes a slot for
    every key of the incoming map, also for a key that comes with an
    empty list of updaters: after it the registry has the keys it had
    and those of the incoming map, and [hasUpdaters] holds as soon as
    the incoming map has a key. *)
Theorem addUpdaters_keys m U (dbName : string) :
  hasUpdaters (newMonitor (Key := Key) dbName) = false /\
  dom (key2Updaters (addUpdaters m U)) = dom (key2Updaters m) ∪ dom U /\
  (hasUpdaters (addUpdaters m U) = true <-> hasUpdaters m = true \/ U <> ∅).
Proof.
  assert (forall key, is_Some (key2Updaters (addUpdaters m U) !! key)
                      <-> is_Some (key2Updaters m !! key) \/ is_Some (U !! key)) as Hsome.
  { intros key. rewrite addUpdaters_lookup.
    destruct (U !! key) as [us |]; split; eauto.
    - intros [? | [? ?]]; done. }
  split; [done |]. split.
  - apply set_eq. intros key. rewrite elem_of_union, !elem_of_dom. apply Hsome.
  - rewrite !hasUpdaters_true. split.
    + intros (key & [Hm | Hu]%Hsome); [left; eauto |].
      right. intros ->. rewrite lookup_empty in Hu. by destruct Hu.
    + intros [(key & Hkey) | Hne].
      * exists key. apply Hsome. by left.
      * destruct (map_choose U Hne) as (key & us & Hus).
        exists key. apply Hsome. right. eauto.
Qed.

(** X16. Adding two maps one after the other appends, in each slot, the
    updaters of the first and then those of the second to what the slot
    had.  When the two maps have no key in common, the result is that of
    adding their union, and does not depend on which map is added
    first. *)
Theorem addUpdaters_twice m U1 U2 :
  (forall key,
      slot (key2Updaters (addUpdaters (addUpdaters m U1) U2)) key
      = (slot (key2Updaters m) key ++ default [] (U1 !! key)
           ++ default [] (U2 !! key))%list) /\
  (U1 ##ₘ U2 ->
   addUpdaters (addUpdaters m U1) U2 = addUpdaters m (U1 ∪ U2) /\
   addUpdaters (addUpdaters m U1) U2 = addUpdaters (addUpdaters m U2) U1).
Proof.
  split.
  - intros key. by rewrite !addUpdaters_slot, app_assoc.
  - intros Hdisj.
    assert (forall key,
               key2Updaters (addUpdaters (addUpdaters m U1) U2) !! key
               = key2Updaters (addUpdaters m (U1 ∪ U2)) !! key) as H12.
    { intros key. rewrite !addUpdaters_lookup. unfold slot.
      rewrite addUpdaters_lookup.
      destruct (U1 !! key) as [us1 |] eqn:E1, (U2 !! key) as [us2 |] eqn:E2.
      - by destruct (map_disjoint_spec U1 U2) as [Hd _];
          destruct (Hd Hdisj key us1 us2).
      - by rewrite (lookup_union_Some_l _ _ _ _ E1).
      - by rewrite (lookup_union_r _ _ _ E1), E2.
      - by rewrite (lookup_union_r _ _ _ E1), E2. }
    assert (forall key,
               key2Updaters (addUpdaters (addUpdaters m U2) U1) !! key
               = key2Updaters (addUpdaters m (U1 ∪ U2)) !! key) as H21.
    { intros key. rewrite !addUpdaters_lookup. unfold slot.
      rewrite addUpdaters_lookup.
      destruct (U1 !! key) as [us1 |] eqn:E1, (U2 !! key) as [us2 |] eqn:E2.
      - by destruct (map_disjoint_spec U1 U2) as [Hd _];
          destruct (Hd Hdisj key us1 us2).
      - by rewrite (lookup_union_Some_l _ _ _ _ E1).
      - by rewrite (lookup_union_r _ _ _ E1), E2.
      - by rewrite (lookup_union_r _ _ _ E1), E2. }
    split; apply dbMonitor_eq; try done. intros key. by rewrite H12, H21.
Qed.

(** X17. [removeUpdaters] filters: in the slot of a listed key it keeps,
    in their order, exactly the updaters that carry another key than
    [jsonValue]; it leaves the slots of the other keys and the stored
    revision as they are. *)
Theorem removeUpdaters_filter m (keys : list Key) (jsonValue : string) :
  (forall key,
      slot (key2Updaters (removeUpdaters m keys jsonValue)) key
      = if decide (key ∈ keys)
        then filter (fun u => jasonValueStr u ≠ jsonValue) (slot (key2Updaters m) key)
        else slot (key2Updaters m) key) /\
  revChecker (removeUpdaters m keys jsonValue) = revChecker m.
Proof.
  split; [| done]. intros key. unfold slot. rewrite removeUpdaters_lookup.
  destruct (decide (key ∈ keys)); [apply keep_slot | done].
Qed.

(** X18. [removeUpdaters] depends on the key list only through the keys
    it holds, not on their order or on repetitions, and two removals
    commute. *)
Theorem removeUpdaters_order m (keys keys' : list Key) (j j' : string) :
  ((forall key, key ∈ keys <-> key ∈ keys') ->
   removeUpdaters m keys j = removeUpdaters m keys' j) /\
  removeUpdaters (removeUpdaters m keys j) keys' j'
  = removeUpdaters (removeUpdaters m keys' j') keys j.
Proof.
  split.
  - intros Hsame. apply dbMonitor_eq; [| done]. intros key.
    rewrite !removeUpdaters_lookup.
    destruct (decide (key ∈ keys)) as [Hin | Hin], (decide (key ∈ keys')) as [Hin' | Hin'];
      try done; exfalso; specialize (Hsame key); tauto.
  - apply dbMonitor_eq; [| done]. intros key. rewrite !removeUpdaters_lookup.
    destruct (decide (key ∈ keys)), (decide (key ∈ keys')); try done.
    apply keep_comm.
Qed.

Lemma cancelDbMonitor_inner (updaters : list updater) (acc : gmap string string)
    (j : string) :
  is_Some (foldl (fun (jasonValues : gmap string string) updater =>
                    <[jasonValueStr updater := jasonValueStr updater]> jasonValues)
             acc updaters !! j)
  <-> is_Some (acc !! j) \/ exists u, u ∈ updaters /\ jasonValueStr u = j.
Proof.
  revert acc. induction updaters as [| u updaters IH]; intros acc; simpl.
  - split; [by left | intros [? | (u & Hu & _)]; [done |]].
    by apply not_elem_of_nil in Hu.
  - rewrite IH. split.
    + intros [Hacc | (u' & Hu' & Hj)].
      * destruct (decide (jasonValueStr u = j)) as [Heq | Hne].
        -- right. exists u. split; [apply elem_of_cons; by left | done].
        -- left. by rewrite lookup_insert_ne in Hacc.
      * right. exists u'. split; [apply elem_of_cons; by right | done].
    + intros [Hacc | (u' & [-> | Hu']%elem_of_cons & Hj)].
      * left. destruct (decide (jasonValueStr u = j)) as [-> | Hne];
          [rewrite lookup_insert_eq; eauto | by rewrite lookup_insert_ne].
      * left. rewrite Hj, lookup_insert_eq. eauto.
      * right. eauto.
Qed.

Lemma cancelDbMonitor_outer (entries : list (Key * list updater))
    (acc : gmap string string) (j : string) :
  is_Some (foldl (fun (jasonValues : gmap string string) '(_, updaters) =>
                    foldl (fun (jasonValues : gmap string string) updater =>
                             <[jasonValueStr updater := jasonValueStr updater]>
                               jasonValues) jasonValues updaters)
             acc entries !! j)
  <-> is_Some (acc !! j) \/
      exists key updaters u,
        (key, updaters) ∈ entries /\ u ∈ updaters /\ jasonValueStr u = j.
Proof.
  revert acc. induction entries as [| [key0 updaters0] entries IH]; intros acc; simpl.
  - split; [by left | intros [? | (key & us & u & Hin & _)]; [done |]].
    by apply not_elem_of_nil in Hin.
  - rewrite IH, cancelDbMonitor_inner. split.
    + intros [[Hacc | (u & Hu & Hj)] | (key & us & u & Hin & Hu & Hj)].
      * by left.
      * right. exists key0, updaters0, u. split; [apply elem_of_cons; by left | done].
      * right. exists key, us, u. split; [apply elem_of_cons; by right | done].
    + intros [Hacc | (key & us & u & [[= -> ->] | Hin]%elem_of_cons & Hu & Hj)].
      * left. by left.
      * left. right. eauto.
      * right. eauto 10.
Qed.

(** X19. [cancelDbMonitor] empties the registry and keeps the stored
    revision; it notifies the handler once for each key that some
    registered updater carries, and for no other key. *)
Theorem cancelDbMonitor_notifies m :
  key2Updaters (cancelDbMonitor m).1 = ∅ /\
  hasUpdaters (cancelDbMonitor m).1 = false /\
  revChecker (cancelDbMonitor m).1 = revChecker m /\
  NoDup (cancelDbMonitor m).2 /\
  (forall j, j ∈ (cancelDbMonitor m).2
             <-> exists key updaters u,
                   key2Updaters m !! key = Some updaters /\ u ∈ updaters /\
                   jasonValueStr u = j).
Proof.
  repeat split; try done.
  - apply NoDup_fst_map_to_list.
  - simpl. intros Hj. apply list_elem_of_fmap in Hj as ([j' v] & -> & Hin).
    apply elem_of_map_to_list in Hin.
    unfold cancelDbMonitor_collect in Hin.
    apply mk_is_Some, cancelDbMonitor_outer in Hin as [Hacc | (key & us & u & Hin & Hu)].
    + rewrite lookup_empty in Hacc. by destruct Hacc.
    + apply elem_of_map_to_list in Hin. eauto.
  - simpl. intros (key & us & u & Hkey & Hu & Hj).
    assert (is_Some (cancelDbMonitor_collect (map_to_list (key2Updaters m)) !! j))
      as [v Hv].
    { apply cancelDbMonitor_outer. right. exists key, us, u.
      split; [by apply elem_of_map_to_list | done]. }
    apply list_elem_of_fmap. exists (j, v). split; [done |].
    by apply elem_of_map_to_list.
Qed.

End RegistryMore.

(** ** Watch loop *)

Section WatchLoopMore.
Context {Key : Type} `{Countable Key}.
Variable ParseKey : string -> option Key.
Variable ToTableKey : Key -> Key.
Variable TableName : Key -> string.
Variable UnmarshalMap : ColumnSchema.t -> Value -> option OvsMap.
Variable UnmarshalSet : ColumnSchema.t -> Value -> option OvsSet.
Variable rangeRow : Row -> list (string * Value).

Implicit Types (m : @dbMonitor Key _ _)
  (result : gmap string (gmap string (gmap string RowUpdate.t))).

Local Abbreviation prepareRowUpdate :=
  (prepareRowUpdate UnmarshalMap UnmarshalSet rangeRow).
Local Abbreviation loggedUpdaters :=
  (Logged.prepareTableUpdate_updaters TableName UnmarshalMap UnmarshalSet rangeRow).
Local Abbreviation loggedEvents :=
  (Logged.prepareTableUpdate_events ParseKey ToTableKey TableName UnmarshalMap
     UnmarshalSet rangeRow).

(** The row update stored under a key, a table and a UUID. *)
Local Abbreviation stored result j t uuid :=
  (default ∅ (default ∅ (result !! j) !! t) !! uuid).

Lemma stored_insert result (j0 t0 uuid0 : string) (ru0 : RowUpdate.t) (j t uuid : string) :
  stored (<[j0 := <[t0 := <[uuid0 := ru0]>
                             (default ∅ (default ∅ (result !! j0) !! t0))]>
                    (default ∅ (result !! j0))]> result) j t uuid
  = if decide (j = j0 /\ t = t0 /\ uuid = uuid0) then Some ru0
    else stored result j t uuid.
Proof.
  destruct (decide (j = j0)) as [-> | Hj].
  - rewrite lookup_insert_eq; simpl.
    destruct (decide (t = t0)) as [-> | Ht].
    + rewrite lookup_insert_eq; simpl.
      destruct (decide (uuid = uuid0)) as [-> | Hu].
      * rewrite lookup_insert_eq. by rewrite decide_True.
      * rewrite lookup_insert_ne by done. by rewrite decide_False by tauto.
    + rewrite lookup_insert_ne by done. by rewrite decide_False by tauto.
  - rewrite lookup_insert_ne by done. by rewrite decide_False by tauto.
Qed.

Lemma stored_Some result (j t uuid : string) (ru : RowUpdate.t) :
  stored result j t uuid = Some ru
  <-> exists tableUpdates tableUpdate,
        result !! j = Some tableUpdates /\ tableUpdates !! t = Some tableUpdate /\
        tableUpdate !! uuid = Some ru.
Proof.
  split.
  - destruct (result !! j) as [tus |]; simpl; [| by rewrite lookup_empty].
    destruct (tus !! t) as [tu |] eqn:E; simpl; [| by rewrite lookup_empty]. eauto.
  - intros (tus & tu & -> & Ht & Hu). simpl. by rewrite Ht.
Qed.

(** One iteration of the loop over the updaters, and of the loop over
    the events. *)
Local Abbreviation loggedUpdaterStep events ev key u result :=
  (match prepareRowUpdate u ev with
   | Panic => Panic
   | Err _ => Ok result
   | Ok (None, _) => Ok result
   | Ok (Some rowUpdate, uuid) =>
       done ← (if decide (is_Some (stored result (jasonValueStr u) (TableName key) uuid))
               then Logged.logEvents events else Ok tt);
       Ok (<[jasonValueStr u :=
              <[TableName key :=
                  <[uuid := rowUpdate]>
                    (default ∅ (default ∅ (result !! jasonValueStr u) !! TableName key))]>
                (default ∅ (result !! jasonValueStr u))]> result)
   end).

Local Abbreviation loggedEventStep m events ev result :=
  (match Event.Kv ev with
   | None => Ok result
   | Some kv =>
       match ParseKey (KeyValue.Key kv) with
       | None => Ok result
       | Some key =>
           match key2Updaters m !! ToTableKey key with
           | None => Ok result
           | Some updaters => loggedUpdaters events ev key updaters result
           end
       end
   end).

(** The log call returns when every event of the batch has both
    key-values, and panics otherwise. *)
Lemma logEvents_cases (events : list Event.t) :
  (Logged.logEvents events = Ok tt /\
   Forall (fun eLog => is_Some (Event.Kv eLog) /\ is_Some (Event.PrevKv eLog)) events) \/
  (Logged.logEvents events = Panic /\
   Exists (fun eLog => Event.Kv eLog = None \/ Event.PrevKv eLog = None) events).
Proof.
  induction events as [| eLog events IH] using rev_ind.
  - left. by split; [| constructor].
  - unfold Logged.logEvents in *. rewrite foldl_app. simpl.
    destruct IH as [[-> Hall] | [-> Hex]]; simpl.
    + destruct (Event.Kv eLog) as [kv |] eqn:Hkv; simpl.
      * destruct (Event.PrevKv eLog) as [prevKv |] eqn:Hprev; simpl.
        -- left. split; [done |]. apply Forall_app. split; [done |].
           apply Forall_singleton. rewrite Hkv, Hprev. by split; eexists.
        -- right. split; [done |]. apply Exists_app. right.
           apply Exists_cons. left. by right.
      * right. split; [done |]. apply Exists_app. right.
        apply Exists_cons. left. by left.
    + right. split; [done |]. apply Exists_app. by left.
Qed.

Lemma loggedUpdaters_app events ev (key : Key) updaters1 updaters2 result :
  loggedUpdaters events ev key (updaters1 ++ updaters2) result
  = (r ← loggedUpdaters events ev key updaters1 result;
     loggedUpdaters events ev key updaters2 r).
Proof.
  unfold Logged.prepareTableUpdate_updaters. rewrite foldl_app.
  destruct (foldl _ (Ok result) updaters1) as [r | e |]; simpl; [done | |].
  - by induction updaters2.
  - by induction updaters2.
Qed.

Lemma loggedUpdaters_singleton events ev (key : Key) u result :
  loggedUpdaters events ev key [u] result = loggedUpdaterStep events ev key u result.
Proof. done. Qed.

Lemma loggedEvents_app m events todo1 todo2 :
  loggedEvents m events (todo1 ++ todo2)
  = foldl (fun acc ev => result ← acc; loggedEventStep m events ev result)
      (loggedEvents m events todo1) todo2.
Proof. unfold Logged.prepareTableUpdate_events. by rewrite foldl_app. Qed.

Lemma loggedEvents_snoc m events todo ev :
  loggedEvents m events (todo ++ [ev])
  = (result ← loggedEvents m events todo; loggedEventStep m events ev result).
Proof. by rewrite loggedEvents_app. Qed.

Lemma loggedEventStep_cases m events ev result :
  loggedEventStep m events ev result = Ok result \/
  exists kv key updaters,
    Event.Kv ev = Some kv /\ ParseKey (KeyValue.Key kv) = Some key /\
    key2Updaters m !! ToTableKey key = Some updaters /\
    loggedEventStep m events ev result = loggedUpdaters events ev key updaters result.
Proof.
  destruct (Event.Kv ev) as [kv |] eqn:Hkv; [| by left].
  destruct (ParseKey (KeyValue.Key kv)) as [key |] eqn:Hkey; [| by left].
  destruct (key2Updaters m !! ToTableKey key) as [updaters |] eqn:Hus; [| by left].
  right. exists kv, key, updaters. by rewrite Hkey, Hus.
Qed.

(** An invariant of the result that each emitted row update keeps is an
    invariant of the two loops. *)
Lemma loggedUpdaters_invariant
    (P : gmap string (gmap string (gmap string RowUpdate.t)) -> Prop)
    events ev (key : Key) updaters result result' :
  (forall u r rowUpdate uuid,
      u ∈ updaters -> P r -> prepareRowUpdate u ev = Ok (Some rowUpdate, uuid) ->
      P (<[jasonValueStr u :=
             <[TableName key :=
                 <[uuid := rowUpdate]>
                   (default ∅ (default ∅ (r !! jasonValueStr u) !! TableName key))]>
               (default ∅ (r !! jasonValueStr u))]> r)) ->
  P result ->
  loggedUpdaters events ev key updaters result = Ok result' ->
  P result'.
Proof.
  revert result'. induction updaters as [| u updaters IH] using rev_ind;
    intros result' Hstep Hinit.
  - by intros [= <-].
  - rewrite loggedUpdaters_app.
    destruct (loggedUpdaters events ev key updaters result) as [r | |] eqn:E;
      simpl; [| done ..].
    assert (P r) as Hr.
    { apply IH; [| done ..]. intros u' r' ru uuid Hu'. apply Hstep.
      apply elem_of_app. by left. }
    rewrite loggedUpdaters_singleton.
    destruct (prepareRowUpdate u ev) as [[[ru |] uuid] | |] eqn:Eu; try done.
    + destruct (decide _); simpl.
      * destruct (Logged.logEvents events) as [[] | |]; simpl; [| done ..].
        intros [= <-]. apply Hstep; [| done ..]. apply elem_of_app. right.
        by apply list_elem_of_singleton.
      * intros [= <-]. apply Hstep; [| done ..]. apply elem_of_app. right.
        by apply list_elem_of_singleton.
    + by intros [= <-].
    + by intros [= <-].
Qed.

Lemma loggedEvents_invariant
    (P : gmap string (gmap string (gmap string RowUpdate.t)) -> Prop)
    m events todo result :
  (forall ev kv key updaters u r rowUpdate uuid,
      ev ∈ todo -> Event.Kv ev = Some kv ->
      ParseKey (KeyValue.Key kv) = Some key ->
      key2Updaters m !! ToTableKey key = Some updaters ->
      u ∈ updaters -> P r -> prepareRowUpdate u ev = Ok (Some rowUpdate, uuid) ->
      P (<[jasonValueStr u :=
             <[TableName key :=
                 <[uuid := rowUpdate]>
                   (default ∅ (default ∅ (r !! jasonValueStr u) !! TableName key))]>
               (default ∅ (r !! jasonValueStr u))]> r)) ->
  P ∅ ->
  loggedEvents m events todo = Ok result ->
  P result.
Proof.
  revert result. induction todo as [| ev todo IH] using rev_ind;
    intros result Hstep Hinit.
  - by intros [= <-].
  - rewrite loggedEvents_snoc.
    destruct (loggedEvents m events todo) as [r | |] eqn:E; simpl; [| done ..].
    assert (P r) as Hr.
    { apply IH; [| done ..]. intros ev' kv key us u r' ru uuid Hev'. apply Hstep.
      apply elem_of_app. by left. }
    destruct (loggedEventStep_cases m events ev r)
      as [-> | (kv & key & us & Hkv & Hkey & Hus & ->)].
    + by intros [= <-].
    + apply loggedUpdaters_invariant; [| done].
      intros u r' ru uuid Hu. eapply Hstep; eauto.
      apply elem_of_app. right. by apply list_elem_of_singleton.
Qed.

(** Every row update of the result was emitted by a registered updater
    on an event of the batch, and no map of the result is empty. *)
Lemma prepareTableUpdate_sound m events result :
  Logged.prepareTableUpdate ParseKey ToTableKey TableName UnmarshalMap UnmarshalSet
    rangeRow m events = Ok result ->
  (forall j t uuid ru,
      stored result j t uuid = Some ru ->
      exists ev kv key updaters u,
        ev ∈ events /\ Event.Kv ev = Some kv /\
        ParseKey (KeyValue.Key kv) = Some key /\
        key2Updaters m !! ToTableKey key = Some updaters /\
        u ∈ updaters /\ jasonValueStr u = j /\ TableName key = t /\
        prepareRowUpdate u ev = Ok (Some ru, uuid)) /\
  (forall j tableUpdates,
      result !! j = Some tableUpdates ->
      tableUpdates <> ∅ /\
      forall t tableUpdate, tableUpdates !! t = Some tableUpdate -> tableUpdate <> ∅).
Proof.
  unfold Logged.prepareTableUpdate. intros Hresult. split.
  - pattern result.
    apply (fun P Hs Hi => loggedEvents_invariant P m events events result Hs Hi Hresult);
      cbv beta.
    + intros ev kv key us u r ru0 uuid0 Hev Hkv Hkey Hus Hu Hr Hemit j t uuid ru.
      rewrite stored_insert. destruct (decide _) as [(-> & -> & ->) |].
      * intros [= <-]. exists ev, kv, key, us, u. by repeat split.
      * apply Hr.
    + intros j t uuid ru. by rewrite !lookup_empty.
  - pattern result.
    apply (fun P Hs Hi => loggedEvents_invariant P m events events result Hs Hi Hresult);
      cbv beta.
    + intros ev kv key us u r ru0 uuid0 Hev Hkv Hkey Hus Hu Hr Hemit j tus.
      destruct (decide (j = jasonValueStr u)) as [-> | Hj].
      * rewrite lookup_insert_eq. intros [= <-]. split; [apply insert_non_empty |].
        intros t tu. destruct (decide (t = TableName key)) as [-> | Ht].
        -- rewrite lookup_insert_eq. intros [= <-]. apply insert_non_empty.
        -- rewrite lookup_insert_ne by done.
           destruct (r !! jasonValueStr u) as [tus0 |] eqn:E; simpl;
             [| by rewrite lookup_empty].
           by apply (Hr _ _ E).
      * rewrite lookup_insert_ne by done. apply Hr.
    + intros j tus. by rewrite lookup_empty.
Qed.

Lemma loggedUpdaters_outcome events ev (key : Key) updaters result :
  match loggedUpdaters events ev key updaters result with
  | Ok _ => True
  | Err _ => False
  | Panic =>
      (exists u, u ∈ updaters /\ prepareRowUpdate u ev = Panic) \/
      Logged.logEvents events = Panic
  end.
Proof.
  induction updaters as [| u updaters IH] using rev_ind; [done |].
  rewrite loggedUpdaters_app.
  destruct (loggedUpdaters events ev key updaters result) as [r | |]; simpl.
  - rewrite loggedUpdaters_singleton.
    destruct (prepareRowUpdate u ev) as [[[ru |] uuid] | |] eqn:Eu; try done.
    + destruct (decide _); simpl; [| done].
      destruct (logEvents_cases events) as [[-> _] | [Hlog _]]; [done |].
      rewrite Hlog. simpl. by right.
    + left. exists u. split; [| done]. apply elem_of_app. right.
      by apply list_elem_of_singleton.
  - done.
  - destruct IH as [(u' & Hu' & Hp) | Hlog]; [| by right].
    left. exists u'. split; [| done]. apply elem_of_app. by left.
Qed.

Lemma loggedEvents_outcome m events todo :
  match loggedEvents m events todo with
  | Ok _ => True
  | Err _ => False
  | Panic =>
      (exists ev kv key updaters u,
          ev ∈ todo /\ Event.Kv ev = Some kv /\
          ParseKey (KeyValue.Key kv) = Some key /\
          key2Updaters m !! ToTableKey key = Some updaters /\
          u ∈ updaters /\ prepareRowUpdate u ev = Panic) \/
      (exists eLog,
          eLog ∈ events /\ (Event.Kv eLog = None \/ Event.PrevKv eLog = None))
  end.
Proof.
  induction todo as [| ev todo IH] using rev_ind; [done |].
  rewrite loggedEvents_snoc.
  destruct (loggedEvents m events todo) as [r | |]; simpl.
  - destruct (loggedEventStep_cases m events ev r)
      as [-> | (kv & key & us & Hkv & Hkey & Hus & ->)]; [done |].
    pose proof (loggedUpdaters_outcome events ev key us r) as Hout.
    destruct (loggedUpdaters events ev key us r); [done .. |].
    destruct Hout as [(u & Hu & Hp) | Hlog].
    + left. exists ev, kv, key, us, u.
      repeat split; try done. apply elem_of_app. right.
      by apply list_elem_of_singleton.
    + right. destruct (logEvents_cases events) as [[Hok _] | [_ Hex]]; [congruence |].
      apply Exists_exists in Hex as (eLog & HeLog & Hmissing). by exists eLog.
  - done.
  - destruct IH as [(ev' & kv & key & us & u & Hev' & Hrest) | Hmissing]; [| by right].
    left. exists ev', kv, key, us, u. split; [| done]. apply elem_of_app. by left.
Qed.

Lemma loggedUpdaters_keeps events ev (key : Key) updaters result (j t uuid : string) :
  is_Some (stored result j t uuid) ->
  match loggedUpdaters events ev key updaters result with
  | Ok r => is_Some (stored r j t uuid)
  | Err _ => False
  | Panic => True
  end.
Proof.
  intros Hstored.
  pose proof (loggedUpdaters_outcome events ev key updaters result) as Hout.
  destruct (loggedUpdaters events ev key updaters result) as [r | |] eqn:E;
    [| done ..].
  pattern r.
  apply (loggedUpdaters_invariant _ events ev key updaters result r); [| done | done].
  intros u r0 ru0 uuid0 _ Hr0 _. cbv beta. rewrite stored_insert.
  destruct (decide _); [by eexists | done].
Qed.

Lemma loggedUpdaters_duplicate events ev (key : Key) (before between after : list updater)
    (u1 u2 : updater) (ru1 ru2 : RowUpdate.t) (uuid : string) result :
  Logged.logEvents events = Panic ->
  jasonValueStr u1 = jasonValueStr u2 ->
  prepareRowUpdate u1 ev = Ok (Some ru1, uuid) ->
  prepareRowUpdate u2 ev = Ok (Some ru2, uuid) ->
  loggedUpdaters events ev key (before ++ u1 :: between ++ u2 :: after) result = Panic.
Proof.
  intros Hlog Hsame Hemit1 Hemit2.
  rewrite loggedUpdaters_app.
  pose proof (loggedUpdaters_outcome events ev key before result) as Hout.
  destruct (loggedUpdaters events ev key before result) as [r | |]; simpl;
    [| done ..].
  change (u1 :: between ++ u2 :: after)%list
    with ([u1] ++ between ++ u2 :: after)%list.
  rewrite loggedUpdaters_app, loggedUpdaters_singleton, Hemit1.
  destruct (decide _); simpl; [by rewrite Hlog |].
  rewrite loggedUpdaters_app.
  match goal with
  | |- context [loggedUpdaters events ev key between ?r1] =>
      pose proof (loggedUpdaters_keeps events ev key between r1
                    (jasonValueStr u1) (TableName key) uuid) as Hkeeps
  end.
  rewrite stored_insert, decide_True in Hkeeps by done.
  specialize (Hkeeps (mk_is_Some _ _ eq_refl)).
  destruct (loggedUpdaters events ev key between _) as [r2 | |]; simpl; [| done ..].
  change (u2 :: after)%list with ([u2] ++ after)%list.
  rewrite loggedUpdaters_app, loggedUpdaters_singleton, Hemit2, <- Hsame.
  rewrite decide_True by done. simpl. by rewrite Hlog.
Qed.

Lemma loggedEvents_stuck m events todo
    (acc : Res (gmap string (gmap string (gmap string RowUpdate.t)))) :
  acc = Panic ->
  foldl (fun acc ev => result ← acc; loggedEventStep m events ev result) acc todo
  = Panic.
Proof. intros ->. by induction todo. Qed.

(** The events that the loop passes over: no key-value, a key that does
    not parse, or a table without updaters. *)
Local Abbreviation passedOver m ev :=
  (match Event.Kv ev with
   | None => True
   | Some kv =>
       match ParseKey (KeyValue.Key kv) with
       | None => True
       | Some key => key2Updaters m !! ToTableKey key = None
       end
   end).

Lemma loggedEvents_passedOver m events todo :
  Forall (fun ev => passedOver m ev) todo -> loggedEvents m events todo = Ok ∅.
Proof.
  induction todo as [| ev todo IH] using rev_ind; [done |].
  intros [Htodo Hev]%Forall_app. rewrite Forall_singleton in Hev.
  rewrite loggedEvents_snoc, (IH Htodo); simpl. revert Hev.
  destruct (Event.Kv ev) as [kv |]; [| done].
  destruct (ParseKey (KeyValue.Key kv)) as [key |]; [| done].
  by intros ->.
Qed.

(** X20. [prepareTableUpdate] never returns an error: the error of an
    updater on an event is dropped with that row update, and the batch
    goes on.  It panics only if some registered updater panics on some
    event of the batch, or if some event of the batch lacks a key-value
    or a previous key-value (which the log of a duplicate reads). *)
Theorem prepareTableUpdate_outcome m events :
  match Logged.prepareTableUpdate ParseKey ToTableKey TableName UnmarshalMap
          UnmarshalSet rangeRow m events with
  | Ok _ => True
  | Err _ => False
  | Panic =>
      (exists ev kv key updaters u,
          ev ∈ events /\ Event.Kv ev = Some kv /\
          ParseKey (KeyValue.Key kv) = Some key /\
          key2Updaters m !! ToTableKey key = Some updaters /\
          u ∈ updaters /\ prepareRowUpdate u ev = Panic) \/
      (exists eLog,
          eLog ∈ events /\ (Event.Kv eLog = None \/ Event.PrevKv eLog = None))
  end.
Proof. apply loggedEvents_outcome. Qed.

(** X21. A duplicate makes the watch loop panic on a batch with an
    event that lacks a key-value or a previous key-value (as a Create
    event of a watch does): when two updaters of the table of an event
    carry the same JSON value and both emit a row update for the same
    UUID on that event, [prepareTableUpdate] panics. *)
Theorem prepareTableUpdate_duplicate_panics m events ev eLog (kv : KeyValue.t)
    (key : Key) (before between after : list updater) (u1 u2 : updater)
    (ru1 ru2 : RowUpdate.t) (uuid : string) :
  ev ∈ events ->
  Event.Kv ev = Some kv ->
  ParseKey (KeyValue.Key kv) = Some key ->
  key2Updaters m !! ToTableKey key
  = Some (before ++ u1 :: between ++ u2 :: after)%list ->
  jasonValueStr u1 = jasonValueStr u2 ->
  prepareRowUpdate u1 ev = Ok (Some ru1, uuid) ->
  prepareRowUpdate u2 ev = Ok (Some ru2, uuid) ->
  eLog ∈ events ->
  Event.Kv eLog = None \/ Event.PrevKv eLog = None ->
  Logged.prepareTableUpdate ParseKey ToTableKey TableName UnmarshalMap UnmarshalSet
    rangeRow m events = Panic.
Proof.
  intros Hev Hkv Hkey Hus Hsame Hemit1 Hemit2 HeLog Hmissing.
  assert (Logged.logEvents events = Panic) as Hlog.
  { destruct (logEvents_cases events) as [[_ Hall] | [Hlog _]]; [| done].
    rewrite Forall_forall in Hall. destruct (Hall eLog HeLog) as [[? Hk] [? Hp]].
    destruct Hmissing; congruence. }
  unfold Logged.prepareTableUpdate.
  apply list_elem_of_split in Hev as (todo1 & todo2 & Hsplit).
  rewrite Hsplit at 2.
  change (ev :: todo2)%list with ([ev] ++ todo2)%list.
  rewrite app_assoc, loggedEvents_app. apply loggedEvents_stuck.
  rewrite loggedEvents_snoc.
  pose proof (loggedEvents_outcome m events todo1) as Hout.
  destruct (loggedEvents m events todo1) as [r | |]; simpl; [| done ..].
  rewrite Hkv, Hkey, Hus. by eapply loggedUpdaters_duplicate.
Qed.

(** X22. Two ways of handing nothing to the handler.  An empty batch
    leaves the monitor as it is, also the stored revision when the
    revision of the batch is greater.  A batch whose events are all
    passed over (no key-value, a key that does not parse, a table
    without updaters) hands nothing either, but its revision, if
    greater, is stored. *)
Theorem notify_nothing m events (newRevision : Z) :
  Logged.notify ParseKey ToTableKey TableName UnmarshalMap UnmarshalSet rangeRow
    m [] newRevision = Ok (m, []) /\
  (events <> [] ->
   Forall (fun ev => passedOver m ev) events ->
   revision (revChecker m) < newRevision ->
   Logged.notify ParseKey ToTableKey TableName UnmarshalMap UnmarshalSet rangeRow
     m events newRevision
   = Ok (mkDbMonitor (key2Updaters m) (mkRevisionChecker newRevision), [])).
Proof.
  split; [done |]. intros Hevents Hpassed Hlt.
  unfold Logged.notify, Logged.prepareTableUpdate.
  rewrite bool_decide_eq_false_2 by (by destruct events).
  rewrite isNewRevision_spec, decide_True by done.
  by rewrite (loggedEvents_passedOver
                (mkDbMonitor (key2Updaters m) (mkRevisionChecker newRevision))
                events events Hpassed).
Qed.

(** X23. A batch is not processed twice: after [notify] has returned on
    a batch that is not empty, another batch that is not empty and whose
    revision is at most the one of the first hands nothing to the
    handler and leaves the monitor as it is. *)
Theorem notify_replay m events (newRevision : Z) m'
    (handed : list (string * gmap string (gmap string RowUpdate.t)))
    (events' : list Event.t) (revision' : Z) :
  events <> [] ->
  Logged.notify ParseKey ToTableKey TableName UnmarshalMap UnmarshalSet rangeRow
    m events newRevision = Ok (m', handed) ->
  events' <> [] ->
  revision' <= newRevision ->
  Logged.notify ParseKey ToTableKey TableName UnmarshalMap UnmarshalSet rangeRow
    m' events' revision' = Ok (m', []).
Proof.
  intros Hevents Hnotify Hevents' Hle.
  assert (newRevision <= revision (revChecker m')) as Hstored.
  { unfold Logged.notify in Hnotify.
    rewrite bool_decide_eq_false_2 in Hnotify by (by destruct events).
    rewrite isNewRevision_spec in Hnotify.
    destruct (decide (revision (revChecker m) < newRevision)).
    - destruct (Logged.prepareTableUpdate _ _ _ _ _ _ _ events) as [result | |];
        simpl in Hnotify; [| done ..].
      case_bool_decide; injection Hnotify as <- _; simpl; lia.
    - injection Hnotify as <- _. simpl. lia. }
  unfold Logged.notify. rewrite bool_decide_eq_false_2 by (by destruct events').
  rewrite isNewRevision_spec, decide_False by lia. by destruct m'.
Qed.

(** X24. What [notify] hands to the handler: at most one set of table
    updates for each key, none of them empty and none with an empty
    table; and every row update in them was emitted by
    [prepareRowUpdate] for an updater that is registered under the table
    key of an event of the batch and that carries this key, under the
    table name of that event. *)
Theorem notify_handed m events (newRevision : Z) m'
    (handed : list (string * gmap string (gmap string RowUpdate.t))) :
  Logged.notify ParseKey ToTableKey TableName UnmarshalMap UnmarshalSet rangeRow
    m events newRevision = Ok (m', handed) ->
  NoDup handed.*1 /\
  forall j tableUpdates,
    (j, tableUpdates) ∈ handed ->
    tableUpdates <> ∅ /\
    forall t tableUpdate,
      tableUpdates !! t = Some tableUpdate ->
      tableUpdate <> ∅ /\
      forall uuid ru,
        tableUpdate !! uuid = Some ru ->
        exists ev kv key updaters u,
          ev ∈ events /\ Event.Kv ev = Some kv /\
          ParseKey (KeyValue.Key kv) = Some key /\
          key2Updaters m !! ToTableKey key = Some updaters /\
          u ∈ updaters /\ jasonValueStr u = j /\ TableName key = t /\
          prepareRowUpdate u ev = Ok (Some ru, uuid).
Proof.
  assert (NoDup (@nil string) /\
          forall j (tus : gmap string (gmap string RowUpdate.t)),
            (j, tus) ∈ @nil (string * gmap string (gmap string RowUpdate.t)) ->
            tus <> ∅ /\
            forall t tu, tus !! t = Some tu ->
              tu <> ∅ /\
              forall uuid ru, tu !! uuid = Some ru ->
                exists ev kv key updaters u,
                  ev ∈ events /\ Event.Kv ev = Some kv /\
                  ParseKey (KeyValue.Key kv) = Some key /\
                  key2Updaters m !! ToTableKey key = Some updaters /\
                  u ∈ updaters /\ jasonValueStr u = j /\ TableName key = t /\
                  prepareRowUpdate u ev = Ok (Some ru, uuid)) as Hnil.
  { split; [constructor |]. intros j tus Hin. by apply not_elem_of_nil in Hin. }
  unfold Logged.notify. case_bool_decide; [by intros [= <- <-] |].
  destruct (isNewRevision (revChecker m) newRevision) as [[|] rc];
    [| by intros [= <- <-]].
  destruct (Logged.prepareTableUpdate _ _ _ _ _ _ _ events) as [result | |] eqn:E;
    simpl; [| done ..].
  case_bool_decide; [by intros [= <- <-] |]. intros [= <- <-].
  apply prepareTableUpdate_sound in E as [Hsound Hne]. simpl in Hsound.
  split; [apply NoDup_fst_map_to_list |].
  intros j tus Hin%elem_of_map_to_list.
  destruct (Hne j tus Hin) as [Htus Htables]. split; [done |].
  intros t tu Ht. split; [by eapply Htables |].
  intros uuid ru Hru. apply Hsound. rewrite Hin; simpl. by rewrite Ht.
Qed.

(** X25. The later emission wins: when [prepareTableUpdate] returns, the
    row update that the last updater of the table emits on the last
    event of the batch is the one stored under its key, table and UUID,
    whatever earlier events and updaters stored there. *)
Theorem prepareTableUpdate_last_wins m events ev (kv : KeyValue.t) (key : Key)
    (updaters : list updater) (u : updater) (ru : RowUpdate.t) (uuid : string) result :
  Event.Kv ev = Some kv ->
  ParseKey (KeyValue.Key kv) = Some key ->
  key2Updaters m !! ToTableKey key = Some (updaters ++ [u])%list ->
  prepareRowUpdate u ev = Ok (Some ru, uuid) ->
  Logged.prepareTableUpdate ParseKey ToTableKey TableName UnmarshalMap UnmarshalSet
    rangeRow m (events ++ [ev]) = Ok result ->
  exists tableUpdates tableUpdate,
    result !! jasonValueStr u = Some tableUpdates /\
    tableUpdates !! TableName key = Some tableUpdate /\
    tableUpdate !! uuid = Some ru.
Proof.
  intros Hkv Hkey Hus Hemit. unfold Logged.prepareTableUpdate.
  rewrite loggedEvents_snoc.
  destruct (loggedEvents m (events ++ [ev]) events) as [r | |]; simpl; [| done ..].
  rewrite Hkv, Hkey, Hus, loggedUpdaters_app.
  destruct (loggedUpdaters (events ++ [ev]) ev key updaters r) as [r' | |]; simpl;
    [| done ..].
  rewrite loggedUpdaters_singleton, Hemit.
  destruct (decide _); simpl.
  - destruct (Logged.logEvents (events ++ [ev])) as [[] | |]; simpl; [| done ..].
    intros [= <-]. apply stored_Some. rewrite stored_insert. by rewrite decide_True.
  - intros [= <-]. apply stored_Some. rewrite stored_insert. by rewrite decide_True.
Qed.

End WatchLoopMore.

(** ** Session handler *)

Section HandlerMore.
Context {Key : Type} `{Countable Key}.
Context {Updater Locker : Type}.
Variable NewTableKey : string -> string -> Key.
Variable mcrToUpdater : MonitorCondRequest.t -> bool -> Updater.
Variable key : Updater -> string.
Variable Sprintf_v : Value -> string.

Implicit Types (ch : Handler.t (Locker := Locker)).

Local Abbreviation monitor_requests := (Handler.monitor_requests mcrToUpdater key).
Local Abbreviation monitor_tables :=
  (Handler.monitor_tables NewTableKey mcrToUpdater key).
Local Abbreviation monitor :=
  (Handler.monitor (Locker := Locker) NewTableKey mcrToUpdater key Sprintf_v).
Local Abbreviation MonitorCancel :=
  (Handler.MonitorCancel (Key := Key) (Updater := Updater) (Locker := Locker) Sprintf_v).
Local Abbreviation notify :=
  (Handler.notify (Key := Key) (Updater := Updater) (Locker := Locker)).
Local Abbreviation Cleanup :=
  (Handler.Cleanup (Key := Key) (Updater := Updater) (Locker := Locker)).

Lemma monitor_requests_fmap (isV1 : bool) (mcrs : list MonitorCondRequest.t) :
  monitor_requests isV1 mcrs
  = ((fun mcr => mcrToUpdater mcr isV1) <$> mcrs,
     (fun mcr => key (mcrToUpdater mcr isV1)) <$> mcrs).
Proof.
  unfold monitor_requests.
  assert (forall (us : list Updater) (ks : list string),
             foldl (fun '(updaters, keys) mcr =>
                      let updater := mcrToUpdater mcr isV1 in
                      ((updaters ++ [updater])%list, (keys ++ [key updater])%list))
               (us, ks) mcrs
             = ((us ++ ((fun mcr => mcrToUpdater mcr isV1) <$> mcrs))%list,
                (ks ++ ((fun mcr => key (mcrToUpdater mcr isV1)) <$> mcrs))%list))
    as Hgen.
  { induction mcrs as [| mcr mcrs IH]; intros us ks; simpl.
    - by rewrite !app_nil_r.
    - rewrite IH. by rewrite <- !app_assoc. }
  apply Hgen.
Qed.

Lemma monitor_tables_snoc (dbName : string) (isV1 : bool)
    (entries : list (string * list MonitorCondRequest.t)) (tableName : string)
    (mcrs : list MonitorCondRequest.t) :
  monitor_tables dbName isV1 (entries ++ [(tableName, mcrs)])
  = (<[NewTableKey dbName tableName := (fun mcr => mcrToUpdater mcr isV1) <$> mcrs]>
       (monitor_tables dbName isV1 entries).1,
     <[tableName := (fun mcr => key (mcrToUpdater mcr isV1)) <$> mcrs]>
       (monitor_tables dbName isV1 entries).2).
Proof.
  unfold monitor_tables. rewrite foldl_app. simpl.
  destruct (foldl _ _ entries) as [updatersMap updaterKeys].
  by rewrite monitor_requests_fmap.
Qed.

Lemma monitor_tables_entries (dbName : string) (isV1 : bool)
    (entries : list (string * list MonitorCondRequest.t)) :
  NoDup entries.*1 ->
  (forall tableName,
      (monitor_tables dbName isV1 entries).2 !! tableName
      = fmap (fun mcr => key (mcrToUpdater mcr isV1))
          <$> (list_to_map entries : gmap string (list MonitorCondRequest.t))
                !! tableName) /\
  (Inj (=) (=) (NewTableKey dbName) ->
   forall tableName,
     (monitor_tables dbName isV1 entries).1 !! NewTableKey dbName tableName
     = fmap (fun mcr => mcrToUpdater mcr isV1)
         <$> (list_to_map entries : gmap string (list MonitorCondRequest.t))
               !! tableName).
Proof.
  induction entries as [| [t0 mcrs] entries IH] using rev_ind; intros Hnodup.
  - split; [| intros _]; intros t; simpl; by rewrite !lookup_empty.
  - rewrite fmap_app in Hnodup. apply NoDup_app in Hnodup as (Hnodup & Hdisj & _).
    assert (t0 ∉ entries.*1) as Ht0.
    { intros Hin. apply (Hdisj t0 Hin). simpl. apply elem_of_cons. by left. }
    destruct (IH Hnodup) as [IHkeys IHmap].
    rewrite monitor_tables_snoc, list_to_map_snoc by done. simpl. split.
    + intros t. destruct (decide (t = t0)) as [-> | Hne].
      * by rewrite !lookup_insert_eq.
      * rewrite !lookup_insert_ne by done. apply IHkeys.
    + intros Hinj t. destruct (decide (t = t0)) as [-> | Hne].
      * by rewrite !lookup_insert_eq.
      * rewrite !lookup_insert_ne; [by apply IHmap | done |].
        intros Heq. by apply Hinj in Heq.
Qed.

(** The two maps that [monitor] builds from the requests. *)
Lemma monitor_tables_lookup (dbName : string) (isV1 : bool)
    (requests : gmap string (list MonitorCondRequest.t)) :
  (forall tableName,
      (monitor_tables dbName isV1 (map_to_list requests)).2 !! tableName
      = fmap (fun mcr => key (mcrToUpdater mcr isV1)) <$> requests !! tableName) /\
  (Inj (=) (=) (NewTableKey dbName) ->
   forall tableName,
     (monitor_tables dbName isV1 (map_to_list requests)).1
       !! NewTableKey dbName tableName
     = fmap (fun mcr => mcrToUpdater mcr isV1) <$> requests !! tableName).
Proof.
  destruct (monitor_tables_entries dbName isV1 (map_to_list requests)
              (NoDup_fst_map_to_list requests)) as [Hkeys Hmap].
  rewrite list_to_map_to_list in Hkeys, Hmap. done.
Qed.

Lemma length_zero_empty (str : string) : String.length str = 0%nat <-> str = "".
Proof. by destruct str. Qed.

(** X26. [monitor] rejects a request without a database name, and a
    request whose JSON value is already the key of a monitor of this
    handler (the name is checked first); a rejected request changes
    nothing in the handler and calls nothing on the database.  Every
    other request is accepted. *)
Theorem monitor_rejects ch (param : Handler.CondMonitorParameters)
    (notificationType : UpdateNotificationType) :
  match (monitor ch param notificationType).2 with
  | inl e =>
      (monitor ch param notificationType).1 = (ch, []) /\
      if decide (Handler.DatabaseName param = "") then e = Handler.ErrNoDatabaseName
      else e = Handler.ErrDuplicateJsonValue /\
           is_Some (Handler.monitors ch !! Sprintf_v (Handler.JsonValue param))
  | inr _ =>
      Handler.DatabaseName param <> "" /\
      Handler.monitors ch !! Sprintf_v (Handler.JsonValue param) = None
  end.
Proof.
  unfold monitor, Handler.jsonValueToString.
  case_bool_decide as Hlen; rewrite length_zero_empty in Hlen; simpl.
  - by rewrite decide_True.
  - destruct (Handler.monitors ch !! _) as [data |] eqn:E; simpl.
    + rewrite decide_False by done. eauto.
    + by destruct (monitor_tables _ _ _).
Qed.

(** X27. An accepted request registers the monitor under the string of
    its JSON value, with the name of the database, the notification
    type, the JSON value as the client gave it and, for each table of
    the request, the keys of its updaters in the order of the requests;
    the other monitors are as before.  The database is called once, with
    the map of updaters that is also returned; when [NewTableKey] tells
    tables apart, this map has for each table the updaters of its
    requests, v1 updaters exactly for the notification type [Update].
    After it, a request with the same JSON value is rejected. *)
Theorem monitor_registers ch (param param' : Handler.CondMonitorParameters)
    (notificationType notificationType' : UpdateNotificationType) :
  Handler.DatabaseName param <> "" ->
  Handler.monitors ch !! Sprintf_v (Handler.JsonValue param) = None ->
  exists updatersMap updaterKeys ch',
    monitor ch param notificationType
    = (ch',
       [Handler.AddMonitors (Handler.DatabaseName param) updatersMap
          (Sprintf_v (Handler.JsonValue param))],
       inr updatersMap) /\
    ch' = Handler.mk (Handler.connection ch)
            (<[Sprintf_v (Handler.JsonValue param) :=
                 Handler.mkMonitorData (Handler.DatabaseName param) notificationType
                   updaterKeys (Handler.JsonValue param)]> (Handler.monitors ch))
            (Handler.databaseLocks ch) /\
    (forall tableName,
        updaterKeys !! tableName
        = fmap (fun mcr =>
                  key (mcrToUpdater mcr (bool_decide (notificationType = Update))))
            <$> Handler.MonitorCondRequests param !! tableName) /\
    (Inj (=) (=) (NewTableKey (Handler.DatabaseName param)) ->
     forall tableName,
       updatersMap !! NewTableKey (Handler.DatabaseName param) tableName
       = fmap (fun mcr => mcrToUpdater mcr (bool_decide (notificationType = Update)))
           <$> Handler.MonitorCondRequests param !! tableName) /\
    (Handler.DatabaseName param' <> "" ->
     Sprintf_v (Handler.JsonValue param') = Sprintf_v (Handler.JsonValue param) ->
     monitor ch' param' notificationType'
     = (ch', [], inl Handler.ErrDuplicateJsonValue)).
Proof.
  intros Hdb Hfresh.
  destruct (monitor_tables_lookup (Handler.DatabaseName param)
              (bool_decide (notificationType = Update))
              (Handler.MonitorCondRequests param)) as [Hkeys Hmap].
  unfold monitor at 1, Handler.jsonValueToString.
  rewrite bool_decide_eq_false_2 by (by rewrite length_zero_empty).
  rewrite Hfresh.
  destruct (monitor_tables _ _ _) as [updatersMap updaterKeys]. simpl in Hkeys, Hmap.
  eexists updatersMap, updaterKeys, _. split; [done |]. split; [done |].
  split; [done |]. split; [done |].
  intros Hdb' Hsame. unfold monitor, Handler.jsonValueToString.
  rewrite bool_decide_eq_false_2 by (by rewrite length_zero_empty).
  simpl. by rewrite Hsame, lookup_insert_eq.
Qed.

(** X28. [MonitorCancel] undoes [monitor]: after an accepted request,
    cancelling with its JSON value gives the handler back as it was
    before the request, replies [{}], and calls the database once to
    remove, under the name of the database of the request, the keys that
    the request registered.  Cancelling once more, or cancelling a JSON
    value that was never registered, fails with "unknown monitor" and
    changes and calls nothing. *)
Theorem monitor_cancel_round_trip ch (param : Handler.CondMonitorParameters)
    (notificationType : UpdateNotificationType) ch'
    (effects : list (Handler.effect (Key := Key) (Updater := Updater) (Locker := Locker)))
    (updatersMap : gmap Key (list Updater)) :
  monitor ch param notificationType = (ch', effects, inr updatersMap) ->
  (exists updaterKeys,
      Handler.updaters <$> Handler.monitors ch' !! Sprintf_v (Handler.JsonValue param)
      = Some updaterKeys /\
      MonitorCancel ch' (Handler.JsonValue param)
      = (ch,
         [Handler.RemoveMonitors (Handler.DatabaseName param) updaterKeys
            (Sprintf_v (Handler.JsonValue param))],
         inr "{}")) /\
  MonitorCancel ch (Handler.JsonValue param) = (ch, [], inl Handler.ErrUnknownMonitor).
Proof.
  unfold monitor, Handler.jsonValueToString.
  case_bool_decide as Hlen; [done |].
  destruct (Handler.monitors ch !! Sprintf_v (Handler.JsonValue param)) as [data |] eqn:E;
    [done |].
  destruct (monitor_tables _ _ _) as [um updaterKeys]. intros [= <- _ _].
  split.
  - exists updaterKeys. simpl. rewrite lookup_insert_eq. split; [done |].
    unfold MonitorCancel, Handler.jsonValueToString. simpl.
    rewrite lookup_insert_eq. simpl.
    rewrite delete_insert_eq, delete_id by done. by destruct ch.
  - unfold MonitorCancel, Handler.jsonValueToString. by rewrite E.
Qed.

(** X29. [notify] sends to the client only for a registered monitor.
    For a monitor that [monitor] has registered, on a handler with a
    connection, it sends one notification that carries the JSON value as
    the client gave it and the updates: [update] for [Update], [update2]
    for [Update2], and [update3], with the zero UUID between the two,
    for [Update3].  For a key that is not registered, so also after
    [MonitorCancel], it sends nothing, with or without a connection.
    For a registered monitor on a handler without a connection (no
    [SetConnection] yet) it panics. *)
Theorem notify_registered ch (param : Handler.CondMonitorParameters)
    (notificationType : UpdateNotificationType) ch'
    (effects : list (Handler.effect (Key := Key) (Updater := Updater) (Locker := Locker)))
    (updatersMap : gmap Key (list Updater))
    (updates : gmap string (gmap string RowUpdate.t)) :
  monitor ch param notificationType = (ch', effects, inr updatersMap) ->
  (Handler.connection ch = true ->
   notify ch' (Sprintf_v (Handler.JsonValue param)) updates
   = Ok [Handler.Notify
           match notificationType with
           | Update => "update" | Update2 => "update2" | Update3 => "update3"
           end
           (Handler.ParamsList
              match notificationType with
              | Update3 =>
                  [Handler.ParamJson (Handler.JsonValue param);
                   Handler.ParamString Handler.ZERO_UUID; Handler.ParamUpdates updates]
              | _ => [Handler.ParamJson (Handler.JsonValue param);
                      Handler.ParamUpdates updates]
              end)]) /\
  (Handler.connection ch = false ->
   notify ch' (Sprintf_v (Handler.JsonValue param)) updates = Panic) /\
  notify (MonitorCancel ch' (Handler.JsonValue param)).1.1
    (Sprintf_v (Handler.JsonValue param)) updates = Ok [] /\
  notify ch (Sprintf_v (Handler.JsonValue param)) updates = Ok [].
Proof.
  unfold monitor, Handler.jsonValueToString.
  case_bool_decide as Hlen; [done |].
  destruct (Handler.monitors ch !! Sprintf_v (Handler.JsonValue param)) as [data |] eqn:E;
    [done |].
  destruct (monitor_tables _ _ _) as [um updaterKeys]. intros [= <- _ _].
  split; [| split; [| split]].
  - intros Hconn. unfold notify. simpl. rewrite lookup_insert_eq, Hconn. simpl.
    by destruct notificationType.
  - intros Hconn. unfold notify. simpl. by rewrite lookup_insert_eq, Hconn.
  - unfold MonitorCancel, Handler.jsonValueToString, notify. simpl.
    rewrite lookup_insert_eq. simpl. by rewrite lookup_delete_eq.
  - unfold notify. by rewrite E.
Qed.

Lemma Cleanup_RemoveMonitors ch (dbName : string)
    (updaterKeys : gmap string (list string)) (jsonValueStr : string) :
  Handler.RemoveMonitors dbName updaterKeys jsonValueStr ∈ (Cleanup ch).2
  <-> exists data,
        Handler.monitors ch !! jsonValueStr = Some data /\
        Handler.dataBaseName data = dbName /\ Handler.updaters data = updaterKeys.
Proof.
  unfold Cleanup. simpl. rewrite elem_of_app, !list_elem_of_fmap. split.
  - intros [[[id lock] [Heq _]] | [[j data] [Heq Hin%elem_of_map_to_list]]];
      [discriminate |].
    injection Heq as -> -> ->. eauto.
  - intros (data & Hin%elem_of_map_to_list & <- & <-). right.
    by exists (jsonValueStr, data).
Qed.

(** X30. [Cleanup] leaves the handler as it is and removes from the
    database what [monitor] has registered: after an accepted request it
    calls the database to remove the monitor with the name of the
    database and the JSON value of the request and the keys that the
    request registered.  A monitor that [MonitorCancel] has cancelled is
    not removed a second time by [Cleanup]. *)
Theorem Cleanup_after_monitor ch (param : Handler.CondMonitorParameters)
    (notificationType : UpdateNotificationType) ch'
    (effects : list (Handler.effect (Key := Key) (Updater := Updater) (Locker := Locker)))
    (updatersMap : gmap Key (list Updater)) :
  monitor ch param notificationType = (ch', effects, inr updatersMap) ->
  (Cleanup ch').1 = ch' /\
  (forall (dbName : string) (updaterKeys : gmap string (list string)),
      Handler.RemoveMonitors dbName updaterKeys (Sprintf_v (Handler.JsonValue param))
        ∈ (Cleanup ch').2
      <-> dbName = Handler.DatabaseName param /\
          Some updaterKeys
          = Handler.updaters
              <$> Handler.monitors ch' !! Sprintf_v (Handler.JsonValue param)) /\
  (forall (dbName : string) (updaterKeys : gmap string (list string)),
      Handler.RemoveMonitors dbName updaterKeys (Sprintf_v (Handler.JsonValue param))
        ∉ (Cleanup (MonitorCancel ch' (Handler.JsonValue param)).1.1).2).
Proof.
  unfold monitor, Handler.jsonValueToString.
  case_bool_decide as Hlen; [done |].
  destruct (Handler.monitors ch !! Sprintf_v (Handler.JsonValue param)) as [data |] eqn:E;
    [done |].
  destruct (monitor_tables _ _ _) as [um updaterKeys]. intros [= <- _ _].
  split; [done |]. split.
  - intros dbName keys. rewrite Cleanup_RemoveMonitors. simpl.
    rewrite lookup_insert_eq. simpl. split.
    + by intros (data & [= <-] & <- & <-).
    + intros [-> [= ->]]. by eexists.
  - intros dbName keys. rewrite Cleanup_RemoveMonitors.
    unfold MonitorCancel, Handler.jsonValueToString. simpl.
    rewrite lookup_insert_eq. simpl. rewrite lookup_delete_eq.
    by intros (data & ? & _).
Qed.

End HandlerMore.

(** ** Scenarios for the further properties *)

(** X3 on the v1 updater with the projection [c2] and the Modify event
    that takes [c2] from ["v2"] to ["v3"]. *)
Lemma row_update_within_projection_witness :
  let u := updaterOn ["c2"] true in
  let rowUpdate :=
    RowUpdate.mk (Some {["c2" := VString "v3"]}) (Some {["c2" := VString "v2"]})
      None None false None in
  Forall (fun columns : option Row =>
            forall row c, columns = Some row -> is_Some (row !! c) ->
                          c ∈ MonitorCondRequest.Columns (mcr u))
    [RowUpdate.New rowUpdate; RowUpdate.Old rowUpdate; RowUpdate.Initial rowUpdate;
     RowUpdate.Insert rowUpdate; RowUpdate.Modify rowUpdate].
Proof.
  intros u rowUpdate.
  apply (row_update_within_projection wireMap wireSet rangeForward rangeForward_entries
           u (putEvent 1 2 (Some data2) (Some (Some data1))) None rowUpdate "U1").
  - discriminate.
  - left. vm_compute. reflexivity.
Defined.

(** X4 on an updater whose flags are all false: a Create event whose
    payload does not decode, a Delete event whose previous payload does
    not decode, a Modify event without payloads and a nil snapshot. *)
Lemma closed_gate_no_row_update_witness :
  let u := updaterClosed false in
  prepareRowUpdate wireMap wireSet rangeForward u (putEvent 1 1 None None)
  = Ok (None, "") /\
  prepareRowUpdate wireMap wireSet rangeForward u (deleteEvent None) = Ok (None, "") /\
  prepareRowUpdate wireMap wireSet rangeForward u (putEvent 1 2 None (Some None))
  = Ok (None, "") /\
  prepareCreateRowInitial u None = Ok (None, "").
Proof.
  intros u.
  pose (select := MonitorSelect.mk (Some false) (Some false) (Some false) (Some false)).
  split; [| split; [| split]].
  - apply (closed_gate_no_row_update wireMap wireSet rangeForward u
             (putEvent 1 1 None None) None select); reflexivity.
  - apply (closed_gate_no_row_update wireMap wireSet rangeForward u
             (deleteEvent None) None select); reflexivity.
  - apply (closed_gate_no_row_update wireMap wireSet rangeForward u
             (putEvent 1 2 None (Some None)) None select); reflexivity.
  - apply (closed_gate_no_row_update wireMap wireSet rangeForward u
             (deleteEvent None) None select); reflexivity.
Defined.


(** X6 on the v1 Modify row update of the projection [c2]. *)
Lemma row_update_shape_witness :
  let rowUpdate :=
    RowUpdate.mk (Some {["c2" := VString "v3"]}) (Some {["c2" := VString "v2"]})
      None None false None in
  RowUpdate.Initial rowUpdate = None /\
  (RowUpdate.Insert rowUpdate = None /\ RowUpdate.Modify rowUpdate = None /\
   RowUpdate.Delete rowUpdate = false /\
   (is_Some (RowUpdate.New rowUpdate) \/ is_Some (RowUpdate.Old rowUpdate)) /\
   (Event.IsCreate (putEvent 1 2 (Some data2) (Some (Some data1))) = Ok true ->
    RowUpdate.Old rowUpdate = None) /\
   (Event.Type_ (putEvent 1 2 (Some data2) (Some (Some data1))) = Event.DELETE ->
    RowUpdate.New rowUpdate = None)) /\
  Forall (fun columns : option Row => columns <> Some ∅)
    [RowUpdate.New rowUpdate; RowUpdate.Old rowUpdate; RowUpdate.Initial rowUpdate;
     RowUpdate.Insert rowUpdate; RowUpdate.Modify rowUpdate].
Proof.
  intros rowUpdate.
  apply (row_update_shape wireMap wireSet rangeForward rangeForward_entries
           (updaterOn ["c2"] true) (putEvent 1 2 (Some data2) (Some (Some data1)))
           rowUpdate "U1").
  vm_compute. reflexivity.
Defined.

(** X7 on a Modify event that carries the first row twice. *)
Lemma modify_same_payload_witness :
  let u := updaterOn [] false in
  let row : Row := {[ "c1" := VString "v1"; "c2" := VString "v2" ]} in
  compareModifiedRows wireMap wireSet rangeForward u row row ∅ = Ok (∅, None) /\
  prepareRowUpdate wireMap wireSet rangeForward u
    (putEvent 1 2 (Some data1) (Some (Some data1)))
  = Ok (None, "").
Proof.
  intros u row.
  apply (modify_same_payload wireMap wireSet rangeForward rangeForward_entries u
           (putEvent 1 2 (Some data1) (Some (Some data1))) MonitorSelect.empty
           (kvOf 1 2 (Some data1)) (kvOf 1 1 (Some data1)) row "U1");
    reflexivity.
Defined.

(** X8 on a Modify event whose changed column is not in the schema, so
    that the diff engine returns an error with an empty delta. *)
Lemma modify_returns_no_error_witness :
  let post : Row := {[ "_uuid" := U1; "x" := VNumber 1 ]} in
  let pre : Row := {[ "_uuid" := U1; "x" := VNumber 0 ]} in
  compareModifiedRows wireMap wireSet rangeForward (updaterOn [] false)
    {[ "x" := VNumber 1 ]} {[ "x" := VNumber 0 ]} ∅
  = Ok (∅, Some (ErrLookupColumn "x")) /\
  prepareRowUpdate wireMap wireSet rangeForward (updaterOn [] false)
    (putEvent 1 2 (Some post) (Some (Some pre)))
  = Ok (None, "").
Proof.
  intros post pre. split; [vm_compute; reflexivity |].
  destruct (modify_returns_no_error wireMap wireSet rangeForward (updaterOn [] false)
              (putEvent 1 2 (Some post) (Some (Some pre))) MonitorSelect.empty
              (kvOf 1 2 (Some post)) (kvOf 1 1 (Some pre))
              {[ "x" := VNumber 1 ]} {[ "x" := VNumber 0 ]} "U1")
    as [_ Hemit].
  - reflexivity.
  - reflexivity.
  - reflexivity.
  - reflexivity.
  - vm_compute. reflexivity.
  - vm_compute. reflexivity.
  - rewrite (Hemit ∅ (Some (ErrLookupColumn "x")));
      [by rewrite decide_True | reflexivity | vm_compute; reflexivity].
Defined.

(** X9 on the v1 Modify row update of the projection [c2]. *)
Lemma modify_delta_only_changed_witness :
  let u := updaterOn ["c2"] true in
  let event := putEvent 1 2 (Some data2) (Some (Some data1)) in
  let rowUpdate :=
    RowUpdate.mk (Some {["c2" := VString "v3"]}) (Some {["c2" := VString "v2"]})
      None None false None in
  exists kv prevKv modifiedRow prevRow deltaRow,
    Event.Kv event = Some kv /\
    Event.PrevKv event = Some prevKv /\
    prepareRow u (KeyValue.Value kv) = Ok (modifiedRow, "U1") /\
    prepareRow u (KeyValue.Value prevKv) = Ok (prevRow, "U1") /\
    (if isV1 u then RowUpdate.Old rowUpdate else RowUpdate.Modify rowUpdate)
    = Some deltaRow /\
    deltaRow <> ∅ /\
    (forall c, is_Some (deltaRow !! c) ->
               exists v, modifiedRow !! c = Some v /\ v <> index prevRow c) /\
    (forall c, modifiedRow !! c = Some VNil -> prevRow !! c = None ->
               deltaRow !! c = None).
Proof.
  intros u event rowUpdate.
  apply (modify_delta_only_changed wireMap wireSet rangeForward rangeForward_entries
           u event rowUpdate "U1").
  - reflexivity.
  - vm_compute. reflexivity.
Defined.

(** X10 on a Delete event and a Modify event without a previous
    key-value, for an updater with open gates. *)
Lemma prepareRowUpdate_panic_witness :
  let u := updaterOn [] false in
  prepareRowUpdate wireMap wireSet rangeForward u
    (Event.mk Event.DELETE (Some (kvOf 0 0 None)) None)
  = Panic /\
  prepareRowUpdate wireMap wireSet rangeForward u (putEvent 1 2 (Some data2) None)
  = Panic.
Proof.
  intros u. split.
  - apply (proj1 (proj2 (proj2
             (prepareRowUpdate_panic wireMap wireSet rangeForward u
                (Event.mk Event.DELETE (Some (kvOf 0 0 None)) None))))
             MonitorSelect.empty); reflexivity.
  - apply (proj2 (proj2 (proj2
             (prepareRowUpdate_panic wireMap wireSet rangeForward u
                (putEvent 1 2 (Some data2) None))))
             MonitorSelect.empty (kvOf 1 2 (Some data2))
             {[ "c1" := VString "v1"; "c2" := VString "v3" ]} "U1");
      first [reflexivity | vm_compute; reflexivity].
Defined.

(** X11 on two changed string columns, visited forwards and backwards. *)
Lemma compareModifiedRows_any_order_witness :
  let u := updaterOn [] false in
  let modifiedRow : Row := {[ "c1" := VString "w1"; "c2" := VString "v3" ]} in
  let prevRow : Row := {[ "c1" := VString "v1"; "c2" := VString "v2" ]} in
  compareModifiedRows wireMap wireSet rangeForward u modifiedRow prevRow ∅
  = compareModifiedRows wireMap wireSet rangeBackward u modifiedRow prevRow ∅.
Proof.
  intros u modifiedRow prevRow.
  apply (compareModifiedRows_any_order wireMap wireSet rangeForward rangeBackward
           u modifiedRow prevRow rangeForward_entries rangeBackward_entries).
  intros c v Hc _.
  apply lookup_insert_Some in Hc as [[<- <-] | [_ [<- <-]%lookup_singleton_Some]];
    eexists; vm_compute; reflexivity.
Defined.

(** X23 on the batch of a Create event at revision 6, handed twice. *)
Lemma notify_replay_witness :
  let m' := registryOf {[ table1 := [updaterOf "jv" [] false] ]} 6 in
  Logged.notify parsePath tablePath tableOf wireMap wireSet rangeForward m'
    [putEvent 1 1 (Some data1) None] 6
  = Ok (m', []).
Proof.
  intros m'.
  eapply (notify_replay parsePath tablePath tableOf wireMap wireSet rangeForward
            (registryOf {[ table1 := [updaterOf "jv" [] false] ]} 5)
            [putEvent 1 1 (Some data1) None] 6 m' _
            [putEvent 1 1 (Some data1) None] 6).
  - discriminate.
  - vm_compute. reflexivity.
  - discriminate.
  - lia.
Defined.

(** X24 on the batch of a Create event for a monitored table. *)
Lemma notify_handed_witness :
  let m := registryOf {[ table1 := [updaterOf "jv" [] false] ]} 5 in
  let events := [putEvent 1 1 (Some data1) None] in
  let handed :=
    [("jv",
      ({[ "table" :=
            {[ "U1" :=
                 RowUpdate.mk None None None
                   (Some {[ "c1" := VString "v1"; "c2" := VString "v2" ]})
                   false None ]} ]} : gmap string (gmap string RowUpdate.t)))] in
  NoDup handed.*1 /\
  forall j tableUpdates,
    (j, tableUpdates) ∈ handed ->
    tableUpdates <> ∅ /\
    forall t tableUpdate,
      tableUpdates !! t = Some tableUpdate ->
      tableUpdate <> ∅ /\
      forall uuid ru,
        tableUpdate !! uuid = Some ru ->
        exists ev kv key updaters u,
          ev ∈ events /\ Event.Kv ev = Some kv /\
          parsePath (KeyValue.Key kv) = Some key /\
          key2Updaters m !! tablePath key = Some updaters /\
          u ∈ updaters /\ jasonValueStr u = j /\ tableOf key = t /\
          prepareRowUpdate wireMap wireSet rangeForward u ev = Ok (Some ru, uuid).
Proof.
  intros m events handed.
  apply (notify_handed parsePath tablePath tableOf wireMap wireSet rangeForward
           m events 6
           (registryOf {[ table1 := [updaterOf "jv" [] false] ]} 6) handed).
  vm_compute. reflexivity.
Defined.

(** X21 on a table with two updaters of the same monitor, whose
    projections are [c1] and [c2], and the Create event of the first
    row, which has no previous key-value. *)
Lemma prepareTableUpdate_duplicate_panics_witness :
  Logged.prepareTableUpdate parsePath tablePath tableOf wireMap wireSet rangeForward
    (registryOf {[ table1 := [updaterOf "jv" ["c1"] false; updaterOf "jv" ["c2"] false] ]} 0)
    [putEvent 1 1 (Some data1) None]
  = Panic.
Proof.
  apply (prepareTableUpdate_duplicate_panics parsePath tablePath tableOf wireMap wireSet
           rangeForward
           (registryOf
              {[ table1 := [updaterOf "jv" ["c1"] false; updaterOf "jv" ["c2"] false] ]} 0)
           [putEvent 1 1 (Some data1) None]
           (putEvent 1 1 (Some data1) None) (putEvent 1 1 (Some data1) None)
           (kvOf 1 1 (Some data1)) ["key"; "db"; "table"; "000"]
           [] [] [] (updaterOf "jv" ["c1"] false) (updaterOf "jv" ["c2"] false)
           (RowUpdate.mk None None None (Some {[ "c1" := VString "v1" ]}) false None)
           (RowUpdate.mk None None None (Some {[ "c2" := VString "v2" ]}) false None)
           "U1").
  - apply list_elem_of_singleton. reflexivity.
  - reflexivity.
  - vm_compute. reflexivity.
  - vm_compute. reflexivity.
  - reflexivity.
  - vm_compute. reflexivity.
  - vm_compute. reflexivity.
  - apply list_elem_of_singleton. reflexivity.
  - right. reflexivity.
Defined.

(** X25 on a table with two updaters of the same monitor, v1 then v2,
    and a Modify event: the row update of the second one is the one
    that is stored. *)
Lemma prepareTableUpdate_last_wins_witness :
  let ru := RowUpdate.mk None None None None false (Some {[ "c2" := VString "v3" ]}) in
  exists (tableUpdates : gmap string (gmap string RowUpdate.t))
         (tableUpdate : gmap string RowUpdate.t),
    ({[ "jv" := {[ "table" := {[ "U1" := ru ]} ]} ]}
       : gmap string (gmap string (gmap string RowUpdate.t))) !! "jv"
    = Some tableUpdates /\
    tableUpdates !! "table" = Some tableUpdate /\
    tableUpdate !! "U1" = Some ru.
Proof.
  intros ru.
  apply (prepareTableUpdate_last_wins parsePath tablePath tableOf wireMap wireSet
           rangeForward
           (registryOf {[ table1 := [updaterOf "jv" [] true; updaterOf "jv" [] false] ]} 0)
           [] (putEvent 1 2 (Some data2) (Some (Some data1))) (kvOf 1 2 (Some data2))
           ["key"; "db"; "table"; "000"] [updaterOf "jv" [] true]
           (updaterOf "jv" [] false) ru "U1"
           {[ "jv" := {[ "table" := {[ "U1" := ru ]} ]} ]}).
  - reflexivity.
  - vm_compute. reflexivity.
  - vm_compute. reflexivity.
  - vm_compute. reflexivity.
  - vm_compute. reflexivity.
Defined.

(** X27 on a request for one table with two requests. *)
Lemma monitor_registers_witness :
  exists (updatersMap : gmap (list string) (list (MonitorCondRequest.t * bool)))
         (updaterKeys : gmap string (list string)) (ch' : Handler.t (Locker := string)),
    Handler.monitor newTablePath requestUpdater requestKey printValue
      handler0 params1 Update2
    = (ch', [Handler.AddMonitors "db" updatersMap "jv"], inr updatersMap) /\
    updaterKeys !! "table" = Some ["c1"; "c2"] /\
    updatersMap !! ["key"; "db"; "table"]
    = Some [(MonitorCondRequest.mk ["c1"] None None, false);
            (MonitorCondRequest.mk ["c2"] None None, false)] /\
    Handler.monitor newTablePath requestUpdater requestKey printValue
      ch' params1 Update
    = (ch', [], inl Handler.ErrDuplicateJsonValue).
Proof.
  destruct (monitor_registers newTablePath requestUpdater requestKey printValue
              handler0 params1 params1 Update2 Update)
    as (updatersMap & updaterKeys & ch' & Hmonitor & _ & Hkeys & Hmap & Hagain).
  - discriminate.
  - reflexivity.
  - exists updatersMap, updaterKeys, ch'. split; [exact Hmonitor |].
    split; [rewrite Hkeys; vm_compute; reflexivity |].
    split; [| apply Hagain; [discriminate | reflexivity]].
    etrans; [apply (Hmap ltac:(by intros t1 t2 [= ->]) "table") |].
    vm_compute. reflexivity.
Defined.

(** X28 on the same request. *)
Lemma monitor_cancel_round_trip_witness :
  let ch' :=
    (Handler.monitor newTablePath requestUpdater requestKey printValue
       handler0 params1 Update2).1.1 in
  (exists updaterKeys,
      Handler.updaters <$> Handler.monitors ch' !! "jv" = Some updaterKeys /\
      Handler.MonitorCancel (Key := list string)
        (Updater := MonitorCondRequest.t * bool) printValue ch' (VString "jv")
      = (handler0, [Handler.RemoveMonitors "db" updaterKeys "jv"], inr "{}")) /\
  Handler.MonitorCancel (Key := list string)
    (Updater := MonitorCondRequest.t * bool) printValue handler0 (VString "jv")
  = (handler0, [], inl Handler.ErrUnknownMonitor).
Proof.
  intros ch'.
  eapply (monitor_cancel_round_trip newTablePath requestUpdater requestKey printValue
            handler0 params1 Update2 ch').
  vm_compute. reflexivity.
Defined.

(** X29 on the same request and an empty set of updates. *)
Lemma notify_registered_witness :
  let ch' :=
    (Handler.monitor newTablePath requestUpdater requestKey printValue
       handler0 params1 Update2).1.1 in
  Handler.notify (Key := list string) (Updater := MonitorCondRequest.t * bool)
    ch' "jv" ∅
  = Ok [Handler.Notify "update2"
          (Handler.ParamsList [Handler.ParamJson (VString "jv");
                               Handler.ParamUpdates ∅])] /\
  Handler.notify (Key := list string) (Updater := MonitorCondRequest.t * bool)
    (Handler.MonitorCancel (Key := list string)
       (Updater := MonitorCondRequest.t * bool) printValue ch' (VString "jv")).1.1
    "jv" ∅
  = Ok [].
Proof.
  intros ch'.
  assert (exists effects updatersMap,
             Handler.monitor newTablePath requestUpdater requestKey printValue
               handler0 params1 Update2
             = (ch', effects, inr updatersMap)) as (effects & updatersMap & Hmonitor).
  { eexists _, _. vm_compute. reflexivity. }
  destruct (notify_registered newTablePath requestUpdater requestKey printValue
              handler0 params1 Update2 ch' effects updatersMap ∅ Hmonitor)
    as (Hsend & _ & Hcancelled & _).
  split; [apply Hsend; reflexivity | exact Hcancelled].
Defined.

(** X30 on the same request. *)
Lemma Cleanup_after_monitor_witness :
  let ch' :=
    (Handler.monitor newTablePath requestUpdater requestKey printValue
       handler0 params1 Update2).1.1 in
  Handler.RemoveMonitors (Key := list string) (Updater := MonitorCondRequest.t * bool)
    "db" {[ "table" := ["c1"; "c2"] ]} "jv"
    ∈ (Handler.Cleanup ch').2.
Proof.
  intros ch'.
  assert (exists effects updatersMap,
             Handler.monitor newTablePath requestUpdater requestKey printValue
               handler0 params1 Update2
             = (ch', effects, inr updatersMap)) as (effects & updatersMap & Hmonitor).
  { eexists _, _. vm_compute. reflexivity. }
  destruct (Cleanup_after_monitor newTablePath requestUpdater requestKey printValue
              handler0 params1 Update2 ch' effects updatersMap Hmonitor)
    as (_ & Hremoved & _).
  apply (Hremoved "db" {[ "table" := ["c1"; "c2"] ]}).
  split; [reflexivity | vm_compute; reflexivity].
Defined.
